(** * job-bot: the multi-provider job agent ([job_agent_multi.py])

    A shallow embedding of the provider adapters, the provider detector, the
    slug resolver, the keyword filter, the URL-hash dedup loop, the seen file
    and the loop of [main] over the sheet, together with the properties the
    specification states about them and further properties of the code.

    Conventions of the embedding.
    - Python [str] values are Rocq strings read as sequences of code points
      below 256; [lower], [strip] and the UTF-8 encoding follow Python on
      that range.
    - A parsed JSON document, and every Python value the adapters handle, is
      a [value].
    - An operation that raises a Python exception returns [Raise]; the
      [try/except Exception] of each adapter is [try_warn].
    - The libraries the script calls but does not define ([requests],
      [urllib.parse.urlparse], [datetime], the [repr] of floats and
      containers) are parameters of the development. *)

From Stdlib Require Import ZArith NArith Ascii String DecimalString.
From Corelib Require Import PrimFloat.
From stdpp Require Import gmap strings list.

Local Open Scope string_scope.

(** ** Text: the [str] methods the script uses *)

Module Text.

Definition code (c : ascii) : N := N_of_ascii c.

(** Code points that [str.lower] maps 32 places up: A-Z, and the Latin-1
    capitals U+00C0..U+00DE without the multiplication sign U+00D7. *)
Definition is_upper (c : ascii) : bool :=
  let n := code c in
  ((65 <=? n) && (n <=? 90) || (192 <=? n) && (n <=? 222) && negb (n =? 215))%N.

Definition lower_char (c : ascii) : ascii :=
  if is_upper c then ascii_of_N (code c + 32) else c.

(** [s.lower()] *)
Fixpoint lower (s : string) : string :=
  match s with
  | EmptyString => EmptyString
  | String c s' => String (lower_char c) (lower s')
  end.

(** The characters [str.strip()] removes: those with [str.isspace]. *)
Definition is_space (c : ascii) : bool :=
  let n := code c in
  ((9 <=? n) && (n <=? 13) || (28 <=? n) && (n <=? 32) || (n =? 133) || (n =? 160))%N.

Definition is_empty (s : string) : bool :=
  match s with EmptyString => true | _ => false end.

Fixpoint lstrip_by (p : ascii -> bool) (s : string) : string :=
  match s with
  | EmptyString => EmptyString
  | String c s' => if p c then lstrip_by p s' else s
  end.

Fixpoint rstrip_by (p : ascii -> bool) (s : string) : string :=
  match s with
  | EmptyString => EmptyString
  | String c s' =>
      let r := rstrip_by p s' in
      if p c && is_empty r then EmptyString else String c r
  end.

Definition strip_by (p : ascii -> bool) (s : string) : string :=
  rstrip_by p (lstrip_by p s).

(** [s.strip()] *)
Definition strip : string -> string := strip_by is_space.

(** [s.strip(c)] for a one-character argument *)
Definition strip_char (c : ascii) : string -> string := strip_by (Ascii.eqb c).

(** [s.split(sep)] for a one-character separator: never the empty list. *)
Fixpoint split (sep : ascii) (s : string) : list string :=
  match s with
  | EmptyString => [EmptyString]
  | String c s' =>
      if Ascii.eqb c sep then EmptyString :: split sep s'
      else match split sep s' with
           | w :: ws => String c w :: ws
           | [] => [String c EmptyString]
           end
  end.

(** [needle in hay] *)
Fixpoint contains (needle hay : string) : bool :=
  String.prefix needle hay ||
  match hay with
  | EmptyString => false
  | String _ hay' => contains needle hay'
  end.

(** [s[:n]] *)
Fixpoint take (n : nat) (s : string) : string :=
  match n, s with
  | S n', String c s' => String c (take n' s')
  | _, _ => EmptyString
  end.

(** [re.sub(r"<[^>]+>", " ", s)].  [tag_rest s] is what follows the first
    ['>'] of [s]: with one character of [[^>]+] already read, the greedy
    class runs up to that ['>'] and nothing shorter can match. *)
Fixpoint tag_rest (s : string) : option string :=
  match s with
  | EmptyString => None
  | String c s' => if Ascii.eqb c ">" then Some s' else tag_rest s'
  end.

(** A match of [<[^>]+>] at the head of [s], leaving the rest. *)
Definition match_tag (s : string) : option string :=
  match s with
  | String "<" (String c s') => if Ascii.eqb c ">" then None else tag_rest s'
  | _ => None
  end.

(** The scan of [re.sub]: leftmost match first, then on from its end; a
    character where no match starts is copied.  [fuel] bounds the number of
    steps and [String.length s] is always enough. *)
Fixpoint sub_tags_from (fuel : nat) (s : string) : string :=
  match fuel, s with
  | S fuel', String c s' =>
      match match_tag s with
      | Some rest => String " " (sub_tags_from fuel' rest)
      | None => String c (sub_tags_from fuel' s')
      end
  | _, _ => EmptyString
  end.

Definition sub_tags (s : string) : string := sub_tags_from (String.length s) s.

(** [str(n)] for an [int] *)
Definition of_Z (z : Z) : string := NilZero.string_of_int (Z.to_int z).

End Text.

(** ** SHA-1 ([hashlib.sha1(...).hexdigest()]) *)

Module Sha1.

Local Open Scope Z_scope.

Definition w32 (x : Z) : Z := x mod 2 ^ 32.
Definition rotl (n x : Z) : Z := w32 (Z.lor (Z.shiftl x n) (Z.shiftr x (32 - n))).
Definition add32 (x y : Z) : Z := w32 (x + y).

(** Big-endian bytes of [x], [n] of them. *)
Fixpoint be_bytes (n : nat) (x : Z) : list Z :=
  match n with
  | O => []
  | S n' => (Z.shiftr x (8 * Z.of_nat n')) mod 256 :: be_bytes n' x
  end.

Definition pad (msg : list Z) : list Z :=
  let l := Z.of_nat (length msg) in
  let zeros := Z.to_nat ((55 - l) mod 64) in
  msg ++ [128] ++ repeat 0 zeros ++ be_bytes 8 (8 * l).

Fixpoint be_word (bs : list Z) (acc : Z) : Z :=
  match bs with
  | [] => acc
  | b :: bs' => be_word bs' (Z.lor (Z.shiftl acc 8) b)
  end.

Fixpoint words (n : nat) (bs : list Z) : list Z :=
  match n with
  | O => []
  | S n' => be_word (firstn 4 bs) 0 :: words n' (skipn 4 bs)
  end.

Definition at_ (w : list Z) (i : nat) : Z := nth i w 0.

Fixpoint extend (n : nat) (w : list Z) : list Z :=
  match n with
  | O => w
  | S n' =>
      let t := length w in
      extend n' (w ++ [rotl 1 (Z.lxor (Z.lxor (at_ w (t - 3)) (at_ w (t - 8)))
                                      (Z.lxor (at_ w (t - 14)) (at_ w (t - 16))))])
  end.

Definition schedule (block : list Z) : list Z := extend 64 (words 16 block).

Definition state : Type := Z * Z * Z * Z * Z.

Definition f_k (t : nat) (b c d : Z) : Z * Z :=
  if (t <? 20)%nat then (Z.lor (Z.land b c) (Z.land (Z.lxor b 4294967295) d), 1518500249)
  else if (t <? 40)%nat then (Z.lxor (Z.lxor b c) d, 1859775393)
  else if (t <? 60)%nat then
    (Z.lor (Z.lor (Z.land b c) (Z.land b d)) (Z.land c d), 2400959708)
  else (Z.lxor (Z.lxor b c) d, 3395469782).

Definition round (w : list Z) (st : state) (t : nat) : state :=
  let '(a, b, c, d, e) := st in
  let '(f, k) := f_k t b c d in
  (add32 (add32 (add32 (add32 (rotl 5 a) f) e) k) (at_ w t), a, rotl 30 b, c, d).

Definition compress (h : state) (block : list Z) : state :=
  let w := schedule block in
  let '(a, b, c, d, e) := fold_left (round w) (seq 0 80) h in
  let '(h0, h1, h2, h3, h4) := h in
  (add32 h0 a, add32 h1 b, add32 h2 c, add32 h3 d, add32 h4 e).

Fixpoint blocks (n : nat) (h : state) (bs : list Z) : state :=
  match n with
  | O => h
  | S n' => blocks n' (compress h (firstn 64 bs)) (skipn 64 bs)
  end.

Definition init : state := (1732584193, 4023233417, 2562383102, 271733878, 3285377520).

Definition hex_digit (x : Z) : ascii :=
  if x <? 10 then ascii_of_N (Z.to_N (48 + x)) else ascii_of_N (Z.to_N (87 + x)).

Fixpoint hex (nibbles : nat) (x : Z) : string :=
  match nibbles with
  | O => EmptyString
  | S n' => String (hex_digit ((Z.shiftr x (4 * Z.of_nat n')) mod 16)) (hex n' x)
  end.

Definition hexdigest (msg : list Z) : string :=
  let p := pad msg in
  let '(h0, h1, h2, h3, h4) := blocks (length p / 64) init p in
  hex 8 h0 +:+ hex 8 h1 +:+ hex 8 h2 +:+ hex 8 h3 +:+ hex 8 h4.

(** [s.encode("utf-8")] on code points below 256 *)
Fixpoint utf8 (s : string) : list Z :=
  match s with
  | EmptyString => []
  | String c s' =>
      let n := Z.of_N (Text.code c) in
      if n <? 128 then n :: utf8 s'
      else Z.lor 192 (Z.shiftr n 6) :: Z.lor 128 (Z.land n 63) :: utf8 s'
  end.

End Sha1.

(** ** Python values and the operations on them *)

Module Py.

(** What [json.loads] yields, which is also every value a posting field can
    hold.  A [VDict] lists its items in insertion order, keys distinct. *)
#[warnings="-register-all"] Inductive value : Type :=
| VNone
| VBool (b : bool)
| VInt (n : Z)
| VFloat (x : float)
| VStr (s : string)
| VList (items : list value)
| VDict (items : list (string * value)).

(** The outcome of an expression: a value, or an exception (every exception
    met here derives from [Exception]). *)
Inductive result (A : Type) : Type :=
| Ok (a : A)
| Raise.
Arguments Ok {A} a.
Arguments Raise {A}.

#[export] Instance result_ret : MRet result := fun A a => Ok a.
#[export] Instance result_bind : MBind result := fun A B f m =>
  match m with Ok a => f a | Raise => Raise end.

(** [bool(v)] *)
Definition truthy (v : value) : bool :=
  match v with
  | VNone => false
  | VBool b => b
  | VInt n => negb (n =? 0)%Z
  | VFloat x => negb (PrimFloat.eqb x 0%float)
  | VStr s => negb (Text.is_empty s)
  | VList l => match l with [] => false | _ => true end
  | VDict d => match d with [] => false | _ => true end
  end.

(** [a or b]: [b] is evaluated only when [a] is falsy. *)
Definition or_else (a : value) (b : result value) : result value :=
  if truthy a then Ok a else b.

Fixpoint assoc (k : string) (d : list (string * value)) : option value :=
  match d with
  | [] => None
  | (k', v) :: d' => if String.eqb k k' then Some v else assoc k d'
  end.

(** [v.get(k, default)]: only a dict has [get]. *)
Definition get_or (v : value) (k : string) (default : value) : result value :=
  match v with
  | VDict d => Ok (match assoc k d with Some x => x | None => default end)
  | _ => Raise
  end.

(** [v.get(k)] *)
Definition get (v : value) (k : string) : result value := get_or v k VNone.

Fixpoint chars (s : string) : list value :=
  match s with
  | EmptyString => []
  | String c s' => VStr (String c EmptyString) :: chars s'
  end.

(** What [for x in v] runs over: the items of a list, the keys of a dict,
    the characters of a str. *)
Definition iter (v : value) : result (list value) :=
  match v with
  | VList l => Ok l
  | VDict d => Ok (map (fun kv => VStr (fst kv)) d)
  | VStr s => Ok (chars s)
  | _ => Raise
  end.

(** [v[:n]] *)
Definition slice_to (n : nat) (v : value) : result value :=
  match v with
  | VStr s => Ok (VStr (Text.take n s))
  | VList l => Ok (VList (firstn n l))
  | _ => Raise
  end.

(** [v[0]]; a dict parsed from JSON has no key [0]. *)
Definition index0 (v : value) : result value :=
  match v with
  | VList (x :: _) => Ok x
  | VStr (String c _) => Ok (VStr (String c EmptyString))
  | _ => Raise
  end.

(** [v.lower()] *)
Definition lower (v : value) : result string :=
  match v with
  | VStr s => Ok (Text.lower s)
  | _ => Raise
  end.

(** [len(v)] where it is defined *)
Definition len (v : value) : option nat :=
  match v with
  | VStr s => Some (String.length s)
  | VList l => Some (length l)
  | VDict d => Some (length d)
  | _ => None
  end.

End Py.
Export Py.

(** The common posting schema: the dict literal every adapter appends. *)
Record posting : Type := Posting {
  company : value;
  title : value;
  location : value;
  url : value;
  source : value;
  postedAt : value;
  snippet : value
}.

(** ** [sha1] and [strip_html] *)

(** [sha1(s)]: [(s or "")] must be a str to have [encode]. *)
Definition sha1 (s : value) : result string :=
  match (if truthy s then s else VStr "") with
  | VStr t => Ok (Sha1.hexdigest (Sha1.utf8 t))
  | _ => Raise
  end.

(** [strip_html(t)]: [re.sub] wants a str. *)
Definition strip_html (t : value) : result string :=
  match (if truthy t then t else VStr "") with
  | VStr s => Ok (Text.strip (Text.sub_tags s))
  | _ => Raise
  end.

(** ** The world of an adapter call *)

(** A call of [get_json]; the headers and the timeout are fixed.  A POST
    carries [body or {}]. *)
Inductive request : Type :=
| GET (target : string) (params : list (string * string))
| POST (target : string) (params : list (string * string)) (body : value).

(** What the script has done so far: the requests issued, the warnings
    printed, and the list [out] of the adapter that is running. *)
Record state : Type := State {
  sent : list request;
  warnings : list string;
  out : list posting
}.

(** Stateful code that may raise; the state survives the exception. *)
Definition M (A : Type) : Type := state -> result A * state.

#[export] Instance M_ret : MRet M := fun A a st => (Ok a, st).
#[export] Instance M_bind : MBind M := fun A B f m st =>
  match m st with
  | (Ok a, st') => f a st'
  | (Raise, st') => (Raise, st')
  end.

Definition lift {A} (r : result A) : M A := fun st => (r, st).

(** [out = []] *)
Definition new_out : M unit :=
  fun st => (Ok tt, State (sent st) (warnings st) []).

(** [out.append(p)] *)
Definition append (p : posting) : M unit :=
  fun st => (Ok tt, State (sent st) (warnings st) (out st ++ [p])).

(** [return out] *)
Definition return_out : M (list posting) := fun st => (Ok (out st), st).

(** [try: body / except Exception as e: print(msg, e)] *)
Definition try_warn (msg : string) (body : M unit) : M unit :=
  fun st =>
    match body st with
    | (Ok _, st') => (Ok tt, st')
    | (Raise, st') => (Ok tt, State (sent st') (warnings st' ++ [msg]) (out st'))
    end.

(** [for x in xs: body(x)] once [xs] is known to be iterable *)
Fixpoint for_items (body : value -> M unit) (xs : list value) : M unit :=
  match xs with
  | [] => mret tt
  | x :: xs' => body x ≫= fun _ => for_items body xs'
  end.

(** [for x in v: body(x)] *)
Definition for_each (v : value) (body : value -> M unit) : M unit :=
  xs ← lift (iter v); for_items body xs.

(** The parts of [urlparse(u)] the script reads. *)
Record url_parts : Type := UrlParts {
  netloc : string;
  path : string
}.

(** ** Dedup by URL hash (lines 264-269 of [main]) *)

(** The variables of the loop. *)
Record dedup_vars : Type := DedupVars {
  seen : gset string;
  all_rows : list posting;
  fresh : list posting;
  newkeys : gset string
}.

(** One turn of [for r in all_rows]. *)
Definition dedup_step (v : dedup_vars) (r : posting) : result dedup_vars :=
  key ← sha1 (url r);
  if decide (key ∈ seen v) then Ok v
  else Ok (DedupVars (seen v) (all_rows v) (fresh v ++ [r]) (newkeys v ∪ {[ key ]})).

Fixpoint dedup_loop (rows : list posting) (v : dedup_vars) : result dedup_vars :=
  match rows with
  | [] => Ok v
  | r :: rows' => dedup_step v r ≫= dedup_loop rows'
  end.

(** [fresh=[]; newkeys=set()] and the loop: the spec's [partition]. *)
Definition dedup (v : dedup_vars) : result dedup_vars :=
  dedup_loop (all_rows v) (DedupVars (seen v) (all_rows v) [] ∅).

(** The fingerprint of a posting. *)
Definition fingerprint (r : posting) : result string := sha1 (url r).

(** A posting whose [url] the fingerprint accepts: a str, or a falsy value. *)
Definition hashable (r : posting) : Prop := exists k, fingerprint r = Ok k.

(** [sha1(r.get("url")) not in seen] *)
Definition is_fresh (seen : gset string) (r : posting) : bool :=
  match fingerprint r with
  | Ok k => bool_decide (k ∉ seen)
  | Raise => false
  end.

(** The fingerprint of [r] is [k]. *)
Definition has_key (k : string) (r : posting) : bool :=
  match fingerprint r with
  | Ok k' => String.eqb k k'
  | Raise => false
  end.

(** The set of the fingerprints of [rows]. *)
Definition keys_of (rows : list posting) : gset string :=
  list_to_set (omap (fun r => match fingerprint r with Ok k => Some k | Raise => None end)
                    rows).

(** The last character of a string. *)
Fixpoint last_char (s : string) : option ascii :=
  match s with
  | EmptyString => None
  | String c EmptyString => Some c
  | String _ s' => last_char s'
  end.

(** ** The rows of the input sheet *)

(** One row of [companies.xlsx] after [fillna("")], each cell as [str]
    renders it. *)
Record company_row : Type := CompanyRow {
  row_company_name : string;
  row_provider : string;
  row_slug : string;
  row_career_url : string;
  row_keywords : string
}.

(** What a run of [main] hands over: the rows given to [to_excel] (none for
    the empty frame) and the seen file as the run leaves it. *)
Record main_result : Type := MainResult {
  written : list posting;
  seen_after : option string
}.

(** ** Notions about text used to state properties *)

(** Some [<[^>]+>] matches somewhere in [s]. *)
Fixpoint has_tag (s : string) : bool :=
  match s with
  | EmptyString => false
  | String _ s' =>
      match Text.match_tag s with Some _ => true | None => has_tag s' end
  end.

(** [c] occurs in [s]. *)
Fixpoint has_char (c : ascii) (s : string) : bool :=
  match s with
  | EmptyString => false
  | String c' s' => Ascii.eqb c' c || has_char c s'
  end.

(** Every character of [s] satisfies [p]. *)
Fixpoint all_of (p : ascii -> bool) (s : string) : bool :=
  match s with
  | EmptyString => true
  | String c s' => p c && all_of p s'
  end.

(** [0-9a-f] *)
Definition is_hex (c : ascii) : bool :=
  let n := Text.code c in
  ((48 <=? n) && (n <=? 57) || (97 <=? n) && (n <=? 102))%N.

(** The first character of a string. *)
Definition first_char (s : string) : option ascii :=
  match s with
  | EmptyString => None
  | String c _ => Some c
  end.

(** What follows the last [c] of [s], all of [s] when there is none:
    [s.rpartition(c)[2]]. *)
Fixpoint after_last (c : ascii) (s : string) : string :=
  match s with
  | EmptyString => EmptyString
  | String c' s' =>
      if has_char c s' then after_last c s'
      else if Ascii.eqb c' c then s' else s
  end.

(** What precedes the first [c] of [s]: [s.partition(c)[0]]. *)
Fixpoint before_first (c : ascii) (s : string) : string :=
  match s with
  | EmptyString => EmptyString
  | String c' s' => if Ascii.eqb c' c then EmptyString else String c' (before_first c s')
  end.

(** [s] from its first [c] on, nothing when there is none. *)
Fixpoint from_first (c : ascii) (s : string) : string :=
  match s with
  | EmptyString => EmptyString
  | String c' s' => if Ascii.eqb c' c then s else from_first c s'
  end.

(** The hostname of a network location, as the [hostname] attribute of
    [urllib.parse] gives it: the user information up to the last [@] and the
    port are dropped, and the host is lower-cased (up to a [%], which starts
    the zone of an IPv6 address).  The empty string stands for [None].  The
    script never reads it: it reads [netloc]. *)
Definition hostname (netloc : string) : string :=
  let hostinfo := after_last "@" netloc in
  let host :=
    if has_char "[" hostinfo
    then before_first "]" (match from_first "[" hostinfo with
                           | String _ r => r
                           | EmptyString => EmptyString
                           end)
    else before_first ":" hostinfo in
  Text.lower (before_first "%" host) +:+ from_first "%" host.

(** ** The seen file ([load_seen], [save_seen]) *)

(** The file at [SEEN_PATH] is modelled by its text, a str like every other
    here, and by [None] when it does not exist.  [load_seen] reads it through
    [csv.reader] and [save_seen] appends to it through [csv.writer], both
    with the default dialect and over a file opened with [newline=""].  The
    parser is that of CPython 3.11, for which a NUL is a character like any
    other. *)

Module Csv.

Definition LF : ascii := "010"%char.
Definition CR : ascii := "013"%char.
Definition QUOTE : ascii := "034"%char.
Definition COMMA : ascii := ","%char.

Definition CRLF : string := String CR (String LF EmptyString).

Definition starts_with (c : ascii) (s : string) : bool :=
  match s with
  | String c' _ => Ascii.eqb c' c
  | EmptyString => false
  end.

(** The lines that iterating over the file yields: with [newline=""] a line
    ends after a line feed, and after a carriage return that no line feed
    follows; the ends are kept, and the last line may have none. *)
Fixpoint lines (s : string) : list string :=
  match s with
  | EmptyString => []
  | String c s' =>
      if Ascii.eqb c LF || Ascii.eqb c CR && negb (starts_with LF s')
      then String c EmptyString :: lines s'
      else match lines s' with
           | l :: ls => String c l :: ls
           | [] => [String c EmptyString]
           end
  end.

(** The states of the parser of [csv.reader]. *)
Inductive phase : Type :=
| START_RECORD
| START_FIELD
| IN_FIELD
| IN_QUOTED_FIELD
| QUOTE_IN_QUOTED_FIELD
| EAT_CRNL.

(** The parser: its state, the fields of the record read so far, and the
    field being read. *)
Record parser : Type := Parser {
  at_ : phase;
  fields : list string;
  field : string
}.

(** [parse_reset] *)
Definition reset : parser := Parser START_RECORD [] EmptyString.

(** [csv.field_size_limit()] *)
Definition field_limit : N := 131072.

(** [parse_add_char]: a field that has reached the limit takes no more. *)
Definition add_char (r : parser) (c : ascii) (next : phase) : result parser :=
  if (N.of_nat (String.length (field r)) <? field_limit)%N
  then Ok (Parser next (fields r) (field r +:+ String c EmptyString))
  else Raise.

(** [parse_save_field] *)
Definition save_field (r : parser) (next : phase) : parser :=
  Parser next (fields r ++ [field r]) EmptyString.

Definition move (r : parser) (next : phase) : parser :=
  Parser next (fields r) (field r).

Definition is_newline (c : ascii) : bool := Ascii.eqb c LF || Ascii.eqb c CR.

(** [parse_process_char] in the state [START_FIELD]. *)
Definition start_field (r : parser) (c : option ascii) : result parser :=
  match c with
  | None => Ok (save_field r START_RECORD)
  | Some c =>
      if is_newline c then Ok (save_field r EAT_CRNL)
      else if Ascii.eqb c QUOTE then Ok (move r IN_QUOTED_FIELD)
      else if Ascii.eqb c COMMA then Ok (save_field r START_FIELD)
      else add_char r c IN_FIELD
  end.

(** [parse_process_char] for the default dialect: delimiter [,], quote
    character, doubled quotes, no escape character, not strict.  [None] is
    the end of a line. *)
Definition process_char (r : parser) (c : option ascii) : result parser :=
  match at_ r with
  | START_RECORD =>
      match c with
      | None => Ok r
      | Some c' => if is_newline c' then Ok (move r EAT_CRNL) else start_field r c
      end
  | START_FIELD => start_field r c
  | IN_FIELD =>
      match c with
      | None => Ok (save_field r START_RECORD)
      | Some c =>
          if is_newline c then Ok (save_field r EAT_CRNL)
          else if Ascii.eqb c COMMA then Ok (save_field r START_FIELD)
          else add_char r c IN_FIELD
      end
  | IN_QUOTED_FIELD =>
      match c with
      | None => Ok r
      | Some c =>
          if Ascii.eqb c QUOTE then Ok (move r QUOTE_IN_QUOTED_FIELD)
          else add_char r c IN_QUOTED_FIELD
      end
  | QUOTE_IN_QUOTED_FIELD =>
      match c with
      | None => Ok (save_field r START_RECORD)
      | Some c =>
          if Ascii.eqb c QUOTE then add_char r c IN_QUOTED_FIELD
          else if Ascii.eqb c COMMA then Ok (save_field r START_FIELD)
          else if is_newline c then Ok (save_field r EAT_CRNL)
          else add_char r c IN_FIELD
      end
  | EAT_CRNL =>
      match c with
      | None => Ok (move r START_RECORD)
      | Some c => if is_newline c then Ok r else Raise
      end
  end.

(** The characters of a line, then its end. *)
Fixpoint parse_line (r : parser) (line : string) : result parser :=
  match line with
  | EmptyString => process_char r None
  | String c line' => process_char r (Some c) ≫= fun r' => parse_line r' line'
  end.

(** The records read from the lines [ls], and the parser as the last line
    leaves it: a record is complete when a line ends in [START_RECORD], and
    the parser is reset before the next one. *)
Fixpoint read (r : parser) (ls : list string) : result (list (list string) * parser) :=
  match ls with
  | [] => Ok ([], r)
  | l :: ls' =>
      match parse_line r l with
      | Raise => Raise
      | Ok r' =>
          match at_ r' with
          | START_RECORD =>
              match read reset ls' with
              | Ok (records, r'') => Ok (fields r' :: records, r'')
              | Raise => Raise
              end
          | _ => read r' ls'
          end
      end
  end.

(** At the end of the input a field that is open is closed, and its record
    is the last one. *)
Definition at_end (r : parser) : list (list string) :=
  if negb (Text.is_empty (field r))
     || match at_ r with IN_QUOTED_FIELD => true | _ => false end
  then [(fields r ++ [field r])%list]
  else [].

(** [list(csv.reader(f))] for a file of text [text]. *)
Definition reader (text : string) : result (list (list string)) :=
  match read reset (lines text) with
  | Ok (records, r) => Ok (records ++ at_end r)%list
  | Raise => Raise
  end.

(** The characters that make [csv.writer] quote a field. *)
Definition special (c : ascii) : bool :=
  Ascii.eqb c COMMA || Ascii.eqb c QUOTE || Ascii.eqb c CR || Ascii.eqb c LF.

Fixpoint any_special (s : string) : bool :=
  match s with
  | EmptyString => false
  | String c s' => special c || any_special s'
  end.

Fixpoint double_quotes (s : string) : string :=
  match s with
  | EmptyString => EmptyString
  | String c s' =>
      if Ascii.eqb c QUOTE then String c (String c (double_quotes s'))
      else String c (double_quotes s')
  end.

(** What [writerow([k])] writes: the field, between quotes when it is empty
    or holds a special character, and the line terminator. *)
Definition write_row (k : string) : string :=
  (if Text.is_empty k || any_special k
   then String QUOTE (double_quotes k +:+ String QUOTE EmptyString)
   else k) +:+ CRLF.

End Csv.

(** [load_seen(path)] *)
Definition load_seen (f : option string) : result (gset string) :=
  match f with
  | None => Ok ∅
  | Some text =>
      match Csv.reader text with
      | Ok records =>
          Ok (fold_left (fun s row => match row with k :: _ => s ∪ {[ k ]} | [] => s end)
                        records ∅)
      | Raise => Raise
      end
  end.

(** The rows [save_seen] writes for [keys]. *)
Fixpoint rows_text (keys : list string) : string :=
  match keys with
  | [] => EmptyString
  | k :: keys' => Csv.write_row k +:+ rows_text keys'
  end.

(** [save_seen(path, keys)]: mode ["a"] creates the file when it is missing
    and writes after its last character; the keys are written in the order
    the set yields them. *)
Definition save_seen (f : option string) (keys : gset string) : option string :=
  Some ((match f with Some text => text | None => EmptyString end)
          +:+ rows_text (elements keys)).

(** The keys of the seen file in the order of its records: the first field
    of each record that has one. *)
Definition file_keys (f : option string) : result (list string) :=
  match f with
  | None => Ok []
  | Some text =>
      match Csv.reader text with
      | Ok records =>
          Ok (omap (fun row : list string => match row with k :: _ => Some k | [] => None end)
                   records)
      | Raise => Raise
      end
  end.

(** A key that [csv.writer] writes as it is and [csv.reader] reads back as
    it is: not empty, without comma, quote or line end, within the field
    limit.  The fingerprints are such keys. *)
Definition plain (k : string) : bool :=
  negb (Text.is_empty k) && negb (Csv.any_special k)
  && (N.of_nat (String.length k) <=? Csv.field_limit)%N.

(** The text ends where a line ends: it is empty or its last character is a
    line feed. *)
Definition terminated (text : string) : bool :=
  match last_char text with
  | None => true
  | Some c => Ascii.eqb c Csv.LF
  end.

(** The seen file ends where a record ends: it does not exist, or it is
    empty or ends with a line feed that is not inside a quoted field, and
    reading it raises no error.  A file that only [save_seen] has written is
    such a file. *)
Definition complete (f : option string) : Prop :=
  match f with
  | None => True
  | Some text =>
      terminated text = true /\
      exists records, Csv.read Csv.reset (Csv.lines text) = Ok (records, Csv.reset)
  end.

(** ** Instances for the examples *)

Module Fixture.

Definition is_scheme_char (c : ascii) : bool :=
  let n := Text.code c in
  ((97 <=? n) && (n <=? 122) || (65 <=? n) && (n <=? 90) || (48 <=? n) && (n <=? 57)
   || (n =? 43) || (n =? 45) || (n =? 46))%N.

Definition is_alpha (c : ascii) : bool :=
  let n := Text.code c in
  ((97 <=? n) && (n <=? 122) || (65 <=? n) && (n <=? 90))%N.

(** [s] cut before its first character in [stop]. *)
Fixpoint span (stop : ascii -> bool) (s : string) : string * string :=
  match s with
  | EmptyString => (EmptyString, EmptyString)
  | String c s' =>
      if stop c then (EmptyString, s)
      else let '(a, b) := span stop s' in (String c a, b)
  end.

Fixpoint all_chars (p : ascii -> bool) (s : string) : bool :=
  match s with
  | EmptyString => true
  | String c s' => p c && all_chars p s'
  end.

Definition ends_netloc (c : ascii) : bool :=
  Ascii.eqb c "/" || Ascii.eqb c "?" || Ascii.eqb c "#".

Definition ends_path (c : ascii) : bool := Ascii.eqb c "?" || Ascii.eqb c "#".

(** How [urlparse] reads a URL of the plain form
    [scheme://netloc/path?query#fragment], each part optional, without
    brackets or control characters; on these it does not raise. *)
Definition urlparse (u : string) : result url_parts :=
  let '(scheme, rest) := span (Ascii.eqb ":") u in
  let after :=
    match scheme, rest with
    | String c _, String _ r =>
        if is_alpha c && all_chars is_scheme_char scheme then r else u
    | _, _ => u
    end in
  let '(loc, tail) :=
    match after with
    | String "/" (String "/" r) => span ends_netloc r
    | _ => (EmptyString, after)
    end in
  Ok (UrlParts loc (span ends_path tail).1).

(** A network on which every request has the same outcome. *)
Definition answer (resp : result value) : request -> result value := fun _ => resp.

(** The fixtures have no [createdAt], and their fields are strings. *)
Definition iso_epoch (v : value) : result value :=
  match v with
  | VInt _ | VFloat _ => Ok (VStr "1970-01-01T00:00:00+00:00")
  | _ => Raise
  end.

Definition repr_blank (v : value) : string := "".

Definition start : state := State [] [] [].

(** A Greenhouse response whose second entry is not an object. *)
Definition greenhouse_doc : value :=
  VDict [("jobs", VList [
    VDict [("title", VStr "Engineer");
           ("absolute_url", VStr "https://boards.greenhouse.io/acme/jobs/1");
           ("content", VStr "<p>Build <b>things</b></p>")];
    VInt 5])].

Definition greenhouse_first : posting :=
  Posting (VStr "Acme") (VStr "Engineer") (VStr "")
          (VStr "https://boards.greenhouse.io/acme/jobs/1") (VStr "Greenhouse") VNone
          (VStr "Build  things").

(** A Lever response: a closed entry, one without a state, and one whose
    state is capitalised and whose plain description holds a tag. *)
Definition lever_closed : list (string * value) :=
  [("state", VStr "closed"); ("text", VStr "Old role");
   ("hostedUrl", VStr "https://jobs.lever.co/acme/0")].

Definition lever_stateless : list (string * value) :=
  [("text", VStr "Designer"); ("hostedUrl", VStr "https://jobs.lever.co/acme/1");
   ("categories", VDict [("team", VStr "Design")])].

Definition lever_capital : list (string * value) :=
  [("state", VStr "Published"); ("text", VStr "Engineer");
   ("hostedUrl", VStr "https://jobs.lever.co/acme/2");
   ("descriptionPlain", VStr "<b>Hi</b> there ")].

Definition lever_doc : value :=
  VList [VDict lever_closed; VDict lever_stateless; VDict lever_capital].

Definition lever_designer : posting :=
  Posting (VStr "Acme") (VStr "Designer") (VStr "Design")
          (VStr "https://jobs.lever.co/acme/1") (VStr "Lever") VNone (VStr "").

Definition lever_engineer : posting :=
  Posting (VStr "Acme") (VStr "Engineer") (VStr "")
          (VStr "https://jobs.lever.co/acme/2") (VStr "Lever") VNone
          (VStr "<b>Hi</b> there ").

(** The posting of the keyword example of the specification. *)
Definition senior : posting :=
  Posting (VStr "Acme") (VStr "Senior Engineer") (VStr "Remote")
          (VStr "https://jobs.example.com/42") (VStr "Lever") VNone (VStr "").

(** Two postings of one run with the same URL, and one seen before. *)
Definition twin (company_ : string) : posting :=
  Posting (VStr company_) (VStr "Engineer") (VStr "Remote")
          (VStr "https://jobs.example.com/42") (VStr "Lever") VNone (VStr "").

Definition old : posting :=
  Posting (VStr "Acme") (VStr "Clerk") (VStr "") (VStr "https://jobs.example.com/7")
          (VStr "Lever") VNone (VStr "").

Definition batch : dedup_vars :=
  DedupVars {[ "bf92217410b8b9e933dd9ddb055ac2a5ca641a7d" ]}
            [twin "Acme"; old; twin "Initech"] [] ∅.

(** What the Lever adapter makes of an entry without any field. *)
Definition untitled : posting :=
  Posting (VStr "Acme") VNone (VStr "") VNone (VStr "Lever") VNone (VStr "").

(** Lever responses in which one entry cannot be processed: a number before
    the entry without a state, a number before the capitalised one, and a
    number after the capitalised one. *)
Definition lever_number_first : value := VList [VInt 5; VDict lever_stateless].

Definition lever_number_then_capital : value := VList [VInt 5; VDict lever_capital].

Definition lever_number_last : value := VList [VDict lever_capital; VInt 5].

(** A quote, a line feed or a carriage return before a text. *)
Definition q (s : string) : string := String Csv.QUOTE s.
Definition nl (s : string) : string := String Csv.LF s.
Definition cr (s : string) : string := String Csv.CR s.

(** [urlparse] refuses a network location that has one square bracket and
    not the other ([ValueError]). *)
Definition urlparse_strict (u : string) : result url_parts :=
  match urlparse u with
  | Ok parts =>
      if xorb (has_char "[" (netloc parts)) (has_char "]" (netloc parts))
      then Raise else Ok parts
  | Raise => Raise
  end.

(** Rows of the sheet: a configured Lever board, a row without provider or
    URL, and a row whose URL has an unmatched bracket. *)
Definition acme_row : company_row :=
  CompanyRow " Acme " "Lever" "acme" "https://[jobs.lever.co/acme" "engineer; designer".

Definition blank_row : company_row := CompanyRow "Nobody" "" "" "" "".


(** What a first run over the Lever board writes and leaves behind. *)
Definition first_run : main_result :=
  MainResult [lever_designer; lever_engineer]
             (Some ("5543734241644de7b3c080dcb9fc6043a560a88d" +:+ Csv.CRLF +:+
                    "ebe6595f14aa21097d71de89b05bed8474c2b34c" +:+ Csv.CRLF)).

Definition after_first_run : state :=
  State [GET "https://api.lever.co/v0/postings/acme" [("mode", "json")]] []
        [lever_designer; lever_engineer].

End Fixture.

(** ** The adapters, the detector, the resolver and the filter *)

Section Agent.

(** [get_json] up to its return: the outcome of the [requests] call, of
    [raise_for_status] and of [r.json()].  [Raise] stands for a transport
    error, an error status, or a body that is not JSON. *)
Variable net : request -> result value.

(** [urllib.parse.urlparse]; it raises [ValueError] on some inputs. *)
Variable urlparse : string -> result url_parts.

(** [datetime.fromtimestamp(ms/1000, tz=timezone.utc).isoformat()] *)
Variable iso_utc : value -> result value.

(** [str(v)] for the floats, lists and dicts, whose [repr] the script leaves
    to Python. *)
Variable repr_other : value -> string.

(** [f"{v}"] *)
Definition format (v : value) : string :=
  match v with
  | VNone => "None"
  | VBool true => "True"
  | VBool false => "False"
  | VInt n => Text.of_Z n
  | VStr s => s
  | _ => repr_other v
  end.

(** [get_json(url, params, method, body)] *)
Definition get_json (req : request) : M value :=
  fun st => (net req, State (sent st ++ [req]) (warnings st) (out st)).

(** [name or slug] *)
Definition name_or (name slug : string) : value :=
  VStr (if Text.is_empty name then slug else name).

(** *** Greenhouse *)

Definition greenhouse_row (slug name : string) (j : value) : result posting :=
  title_ ← get j "title";
  loc ← get j "location";
  loc ← or_else loc (Ok (VDict []));
  location_ ← get_or loc "name" (VStr "");
  url_ ← get j "absolute_url";
  posted ← get j "updated_at";
  content ← get_or j "content" (VStr "");
  text ← strip_html content;
  snippet_ ← slice_to 280 (VStr text);
  mret (Posting (name_or name slug) title_ location_ url_ (VStr "Greenhouse")
                posted snippet_).

Definition fetch_greenhouse (slug name : string) : M (list posting) :=
  let url := "https://boards-api.greenhouse.io/v1/boards/" +:+ slug +:+ "/jobs" in
  new_out ≫= fun _ =>
  try_warn ("[warn] greenhouse " +:+ slug)
    (data ← get_json (GET url [("content", "true")]);
     jobs ← lift (get_or data "jobs" (VList []));
     for_each jobs (fun j => p ← lift (greenhouse_row slug name j); append p))
  ≫= fun _ => return_out.

(** *** Lever *)

(** The test of line 67, negated: [true] when the entry is kept. *)
Definition lever_published (j : value) : result bool :=
  st ← get_or j "state" (VStr "published");
  s ← lower st;
  mret (String.eqb s "published").

Definition lever_row (slug name : string) (j : value) : result posting :=
  cat ← get j "categories";
  cat ← or_else cat (Ok (VDict []));
  title_ ← get j "text";
  l ← get cat "location";
  l ← or_else l (get cat "team");
  location_ ← or_else l (Ok (VStr ""));
  url_ ← get j "hostedUrl";
  created ← get j "createdAt";
  posted ← (if truthy created then iso_utc created else Ok VNone);
  d ← get j "descriptionPlain";
  d ← or_else d (Ok (VStr ""));
  snippet_ ← slice_to 280 d;
  mret (Posting (name_or name slug) title_ location_ url_ (VStr "Lever")
                posted snippet_).

Definition fetch_lever (slug name : string) : M (list posting) :=
  let url := "https://api.lever.co/v0/postings/" +:+ slug in
  new_out ≫= fun _ =>
  try_warn ("[warn] lever " +:+ slug)
    (data ← get_json (GET url [("mode", "json")]);
     for_each data (fun j =>
       keep ← lift (lever_published j);
       if (keep : bool) then p ← lift (lever_row slug name j); append p
       else (mret tt : M unit)))
  ≫= fun _ => return_out.

(** *** Workable *)

Definition workable_row (slug name : string) (j : value) : result posting :=
  title_ ← get j "title";
  loc ← get_or j "location" (VDict []);
  loc ← or_else loc (Ok (VDict []));
  location_ ← get_or loc "city" (VStr "");
  u ← get j "application_url";
  url_ ← or_else u (get j "url");
  p ← get j "published_on";
  posted ← or_else p (get j "updated_at");
  code ← get_or j "shortcode" (VStr "");
  text ← strip_html code;
  snippet_ ← slice_to 280 (VStr text);
  mret (Posting (name_or name slug) title_ location_ url_ (VStr "Workable")
                posted snippet_).

Definition fetch_workable (slug name : string) : M (list posting) :=
  let url := "https://apply.workable.com/api/v3/accounts/" +:+ slug +:+ "/jobs" in
  new_out ≫= fun _ =>
  try_warn ("[warn] workable " +:+ slug)
    (data ← get_json (GET url [("active", "true")]);
     results ← lift (get_or data "results" (VList []));
     for_each results (fun j => p ← lift (workable_row slug name j); append p))
  ≫= fun _ => return_out.

(** *** SmartRecruiters *)

Definition smartrecruiters_row (slug name : string) (j : value) : result posting :=
  ref ← get_or j "ref" (VDict []);
  u ← get ref "jobAdUrl";
  u ← or_else u (get j "applyUrl");
  u ← or_else u (get j "postingUrl");
  id ← get j "id";
  u ← (if negb (truthy u) && truthy id
       then mret (VStr ("https://jobs.smartrecruiters.com/" +:+ slug +:+ "/" +:+ format id))
       else mret u);
  title_ ← get j "name";
  loc ← get_or j "location" (VDict []);
  loc ← or_else loc (Ok (VDict []));
  location_ ← get_or loc "city" (VStr "");
  r ← get j "releasedDate";
  posted ← or_else r (get j "createdOn");
  ad ← get_or j "jobAd" (VDict []);
  sections ← get_or ad "sections" (VDict []);
  desc ← get_or sections "companyDescription" (VStr "");
  text ← strip_html desc;
  snippet_ ← slice_to 280 (VStr text);
  mret (Posting (name_or name slug) title_ location_ u (VStr "SmartRecruiters")
                posted snippet_).

Definition fetch_smartrecruiters (slug name : string) : M (list posting) :=
  let url := "https://api.smartrecruiters.com/v1/companies/" +:+ slug +:+ "/postings" in
  new_out ≫= fun _ =>
  try_warn ("[warn] smartrecruiters " +:+ slug)
    (data ← get_json (GET url [("limit", "100")]);
     content ← lift (get_or data "content" (VList []));
     for_each content (fun j => p ← lift (smartrecruiters_row slug name j); append p))
  ≫= fun _ => return_out.

(** *** Ashby *)

Definition ashby_query (slug : string) : value :=
  VDict [("operationName", VStr "JobBoardAllPositions");
         ("variables", VDict [("organizationSlug", VStr slug)]);
         ("query", VStr "query JobBoardAllPositions($organizationSlug: String!) { jobBoard: jobBoardWithEmail(organizationSlug: $organizationSlug) { teams { name jobs { id title locationSlug locationName applyUrl publishedAt } } } }")].

Definition ashby_row (slug name : string) (j : value) : result posting :=
  title_ ← get j "title";
  l ← get j "locationName";
  l ← or_else l (get j "locationSlug");
  location_ ← or_else l (Ok (VStr ""));
  url_ ← get j "applyUrl";
  posted ← get j "publishedAt";
  mret (Posting (name_or name slug) title_ location_ url_ (VStr "Ashby")
                posted (VStr "")).

Definition fetch_ashby (slug name : string) : M (list posting) :=
  let url := "https://jobs.ashbyhq.com/api/non-user-graphql" in
  let query := ashby_query slug in
  new_out ≫= fun _ =>
  try_warn ("[warn] ashby " +:+ slug)
    (data ← get_json (POST url [] query);
     board ← lift (d ← or_else data (Ok (VDict []));
                   d ← get_or d "data" (VDict []);
                   b ← get_or d "jobBoard" (VDict []);
                   or_else b (Ok (VDict [])));
     teams ← lift (t ← get_or board "teams" (VList []); or_else t (Ok (VList [])));
     for_each teams (fun team =>
       jobs ← lift (js ← get_or team "jobs" (VList []); or_else js (Ok (VList [])));
       for_each jobs (fun j => p ← lift (ashby_row slug name j); append p)))
  ≫= fun _ => return_out.

(** *** Workday *)

(** [[p for p in path.split('/') if p]] *)
Definition path_parts (p : string) : list string :=
  List.filter (fun s => negb (Text.is_empty s)) (Text.split "/" p).

Definition workday_body : value :=
  VDict [("appliedFacets", VDict []); ("limit", VInt 50); ("offset", VInt 0);
         ("searchText", VStr "")].

Definition workday_row (host tenant name : string) (j : value) : result posting :=
  title_ ← get j "title";
  locs ← get_or j "locations" (VList []);
  locs ← or_else locs (Ok (VList [VNone]));
  first ← index0 locs;
  location_ ← or_else first (Ok (VStr ""));
  ext ← get_or j "externalPath" (VStr "");
  p ← get j "postedOn";
  posted ← or_else p (get j "startDate");
  desc ← get_or j "shortDescription" (VStr "");
  text ← strip_html desc;
  snippet_ ← slice_to 280 (VStr text);
  mret (Posting (name_or name tenant) title_ location_
                (VStr ("https://" +:+ host +:+ format ext)) (VStr "Workday")
                posted snippet_).

Definition workday_api (host tenant site : string) : string :=
  "https://" +:+ host +:+ "/wday/cxs/" +:+ tenant +:+ "/" +:+ site +:+ "/jobs".

Definition fetch_workday (career_url name : string) : M (list posting) :=
  new_out ≫= fun _ =>
  try_warn ("[warn] workday " +:+ career_url)
    (u ← lift (urlparse career_url);
     let host := netloc u in
     let parts := path_parts (path u) in
     if negb (Text.contains ".myworkdayjobs.com" host) || (length parts <? 1)%nat
     then mret tt
     else
       let tenant := hd "" (Text.split "." host) in
       let site := hd "" parts in
       let api := workday_api host tenant site in
       data ← get_json (POST api [] workday_body);
       jobs ← lift (js ← get_or data "jobPostings" (VList []); or_else js (Ok (VList [])));
       for_each jobs (fun j => p ← lift (workday_row host tenant name j); append p))
  ≫= fun _ => return_out.

(** *** Detection *)

Definition known_providers : gset string :=
  {[ "greenhouse"; "lever"; "workable"; "ashby"; "smartrecruiters"; "workday" ]}.

(** The hostname tests of lines 189-194, in order. *)
Definition host_provider (host : string) : string :=
  if Text.contains "greenhouse.io" host then "greenhouse"
  else if Text.contains "lever.co" host then "lever"
  else if Text.contains "workable.com" host then "workable"
  else if Text.contains "ashbyhq.com" host || Text.contains "jobs.ashbyhq.com" host
       then "ashby"
  else if Text.contains "smartrecruiters.com" host then "smartrecruiters"
  else if Text.contains "myworkdayjobs.com" host then "workday"
  else "".

(** [detect_provider(provider, slug, career_url)]; on a str, [x or ""] is
    [x].  The empty string is the unknown provider. *)
Definition detect_provider (provider slug career_url : string) : result string :=
  let prov := Text.lower (Text.strip provider) in
  if decide (prov ∈ known_providers) then Ok prov
  else
    u ← urlparse career_url;
    mret (host_provider (Text.lower (netloc u))).

(** [slug_from_url(prov, career_url)] *)
Definition slug_from_url (prov career_url : string) : result string :=
  u ← urlparse career_url;
  let path := Text.strip_char "/" (path u) in
  let parts := if Text.is_empty path then [] else Text.split "/" path in
  let first := match parts with p :: _ => p | [] => "" end in
  if String.eqb prov "greenhouse" then Ok first
  else if String.eqb prov "lever" then Ok first
  else if String.eqb prov "workable" then Ok first
  else if String.eqb prov "ashby" then Ok first
  else if String.eqb prov "smartrecruiters" then Ok first
  else Ok "".

(** *** Keyword filter *)

(** [[k.strip().lower() for k in kw_str.split(";") if k.strip()]] *)
Definition keywords (kw_str : string) : list string :=
  map (fun k => Text.lower (Text.strip k))
      (List.filter (fun k => negb (Text.is_empty (Text.strip k))) (Text.split ";" kw_str)).

(** The haystack of line 222. *)
Definition hay (r : posting) : string :=
  Text.lower (format (title r) +:+ " " +:+ format (snippet r) +:+ " " +:+ format (location r)).

(** [any(k in hay for k in kws)] *)
Definition any_in (kws : list string) (h : string) : bool :=
  existsb (fun k => Text.contains k h) kws.

(** The loop of lines 220-224, [acc] being [out]. *)
Fixpoint keyword_loop (kws : list string) (rows acc : list posting) : list posting :=
  match rows with
  | [] => acc
  | r :: rows' =>
      keyword_loop kws rows' (if any_in kws (hay r) then acc ++ [r] else acc)
  end.

(** [keyword_filter(rows, kw_str)] *)
Definition keyword_filter (rows : list posting) (kw_str : string) : list posting :=
  let kws := keywords kw_str in
  match kws with
  | [] => rows
  | _ => keyword_loop kws rows []
  end.

(** *** The loop of [main] over the sheet (lines 230-261) *)

(** [print] of an informational line; it goes where the warnings go. *)
Definition info (line : string) : M unit :=
  fun st => (Ok tt, State (sent st) (warnings st ++ [line]) (out st)).

(** The providers of line 239, which are called with a slug. *)
Definition slug_providers : list string :=
  ["greenhouse"; "lever"; "workable"; "ashby"; "smartrecruiters"].

(** The conditional expression of lines 246-253. *)
Definition fetch_by_slug (prov slug name : string) : M (list posting) :=
  if String.eqb prov "greenhouse" then fetch_greenhouse slug name
  else if String.eqb prov "lever" then fetch_lever slug name
  else if String.eqb prov "workable" then fetch_workable slug name
  else if String.eqb prov "ashby" then fetch_ashby slug name
  else if String.eqb prov "smartrecruiters" then fetch_smartrecruiters slug name
  else mret [].

(** The body of [for _, row in df.iterrows()] up to the filtered [rows]. *)
Definition company_rows (c : company_row) : M (list posting) :=
  let name := Text.strip (row_company_name c) in
  let provider := Text.lower (Text.strip (row_provider c)) in
  let slug := Text.strip (row_slug c) in
  let career_url := Text.strip (row_career_url c) in
  let keywords := row_keywords c in
  prov ← lift (detect_provider provider slug career_url);
  rows ← (if bool_decide (prov ∈ slug_providers) then
            slug ← (if Text.is_empty slug then lift (slug_from_url prov career_url)
                    else mret slug);
            if Text.is_empty slug && negb (String.eqb prov "workday") then
              info ("[info] No slug for " +:+ name +:+ " (" +:+ prov +:+ "); skipping")
              ≫= fun _ => mret []
            else fetch_by_slug prov slug name
          else if String.eqb prov "workday" then fetch_workday career_url name
          else
            info ("[info] Unknown provider for " +:+ name
                    +:+ "; provide career_url or provider/slug")
            ≫= fun _ => mret []);
  mret (keyword_filter rows keywords).

(** The loop, [all_rows.extend(rows)] after each row of the sheet. *)
Fixpoint main_loop (df : list company_row) (all_rows : list posting)
  : M (list posting) :=
  match df with
  | [] => mret all_rows
  | c :: df' => company_rows c ≫= fun rows => main_loop df' (all_rows ++ rows)
  end.

(** [main()] over the sheet [df] and the seen file: the loop, the dedup, and
    the two branches of line 273.  The name of the output file and the two
    closing [print]s, which hold a time stamp, are left out; [read_excel]
    and [to_excel] are taken to succeed, the sheet being given as its rows
    and the workbook as the list of the postings written.  The seen file is
    read after the loop over the sheet. *)
Definition main (df : list company_row) (seen_csv : option string) : M main_result :=
  all_rows ← main_loop df [];
  seen ← lift (load_seen seen_csv);
  v ← lift (dedup (DedupVars seen all_rows [] ∅));
  match fresh v with
  | _ :: _ => mret (MainResult (fresh v) (save_seen seen_csv (newkeys v)))
  | [] => mret (MainResult [] seen_csv)
  end.

(** [m] returns [r], issues the requests [reqs] and prints [msgs], in every
    state. *)
Definition runs_as {A} (m : M A) (r : result A) (reqs : list request)
    (msgs : list string) : Prop :=
  forall st,
    (m st).1 = r /\ sent (m st).2 = (sent st ++ reqs)%list /\
    warnings (m st).2 = (warnings st ++ msgs)%list.

(** *** Notions used to state the properties *)

(** What one turn of an adapter loop does with an entry: raise, skip it, or
    append its posting. *)
Definition emit (e : result (option posting)) : M unit :=
  fun st =>
    match e with
    | Raise => (Raise, st)
    | Ok None => (Ok tt, st)
    | Ok (Some p) => append p st
    end.

(** The postings of the entries that come before the first entry on which
    [entry] raises, and whether the end of [js] was reached. *)
Fixpoint collect (entry : value -> result (option posting)) (js : list value)
  : list posting * bool :=
  match js with
  | [] => ([], true)
  | j :: js' =>
      match entry j with
      | Raise => ([], false)
      | Ok o =>
          let '(ps, fin) := collect entry js' in
          (match o with Some p => p :: ps | None => ps end, fin)
      end
  end.

(** The same for a response: nothing when the call raised or when the list
    the adapter iterates over cannot be reached. *)
Definition processed (entries : value -> result (list value))
    (entry : value -> result (option posting)) (resp : result value)
  : list posting * bool :=
  match resp ≫= entries with
  | Raise => ([], false)
  | Ok js => collect entry js
  end.

(** An adapter with one request and one loop. *)
Definition single_loop (msg : string) (req : request) (nav : value -> result value)
    (body : value -> M unit) : M (list posting) :=
  new_out ≫= fun _ =>
  try_warn msg (data ← get_json req; jobs ← lift (nav data); for_each jobs body)
  ≫= fun _ => return_out.

(** The state an adapter call leaves behind. *)
Definition after (st : state) (reqs : list request) (msg : string)
    (r : list posting * bool) : state :=
  State (sent st ++ reqs) (if r.2 then warnings st else warnings st ++ [msg]) r.1.

(** Which entries each adapter iterates over, and what it does with one. *)
Definition every (row : value -> result posting) (j : value) : result (option posting) :=
  p ← row j; mret (Some p).

Definition greenhouse_entries (data : value) : result (list value) :=
  get_or data "jobs" (VList []) ≫= iter.

Definition lever_entry (slug name : string) (j : value) : result (option posting) :=
  keep ← lever_published j;
  if (keep : bool) then every (lever_row slug name) j else Ok None.

Definition workable_entries (data : value) : result (list value) :=
  get_or data "results" (VList []) ≫= iter.

Definition smartrecruiters_entries (data : value) : result (list value) :=
  get_or data "content" (VList []) ≫= iter.

Definition workday_entries (data : value) : result (list value) :=
  js ← get_or data "jobPostings" (VList []);
  js ← or_else js (Ok (VList []));
  iter js.

Definition ashby_teams (data : value) : result (list value) :=
  d ← or_else data (Ok (VDict []));
  d ← get_or d "data" (VDict []);
  b ← get_or d "jobBoard" (VDict []);
  board ← or_else b (Ok (VDict []));
  t ← get_or board "teams" (VList []);
  t ← or_else t (Ok (VList []));
  iter t.

Definition ashby_jobs (team : value) : result (list value) :=
  js ← get_or team "jobs" (VList []);
  js ← or_else js (Ok (VList []));
  iter js.

(** The postings of Ashby's two nested loops up to the first exception. *)
Fixpoint ashby_collect (slug name : string) (teams : list value) : list posting * bool :=
  match teams with
  | [] => ([], true)
  | team :: teams' =>
      match ashby_jobs team with
      | Raise => ([], false)
      | Ok js =>
          let '(ps, fin) := collect (every (ashby_row slug name)) js in
          if fin then
            let '(qs, fin') := ashby_collect slug name teams' in ((ps ++ qs)%list, fin')
          else (ps, false)
      end
  end.

Definition ashby_processed (slug name : string) (resp : result value)
  : list posting * bool :=
  match resp ≫= ashby_teams with
  | Raise => ([], false)
  | Ok teams => ashby_collect slug name teams
  end.

(** The requests of the adapters. *)
Definition greenhouse_request (slug : string) : request :=
  GET ("https://boards-api.greenhouse.io/v1/boards/" +:+ slug +:+ "/jobs")
      [("content", "true")].
Definition lever_request (slug : string) : request :=
  GET ("https://api.lever.co/v0/postings/" +:+ slug) [("mode", "json")].
Definition workable_request (slug : string) : request :=
  GET ("https://apply.workable.com/api/v3/accounts/" +:+ slug +:+ "/jobs")
      [("active", "true")].
Definition smartrecruiters_request (slug : string) : request :=
  GET ("https://api.smartrecruiters.com/v1/companies/" +:+ slug +:+ "/postings")
      [("limit", "100")].
Definition ashby_request (slug : string) : request :=
  POST "https://jobs.ashbyhq.com/api/non-user-graphql" [] (ashby_query slug).
Definition workday_request (host site : string) : request :=
  POST (workday_api host (hd "" (Text.split "." host)) site) [] workday_body.

(** [m] behaves the same in every state and issues at most [n] requests. *)
Definition steady_within {A} (n : nat) (m : M A) : Prop :=
  exists r reqs msgs, runs_as m r reqs msgs /\ length reqs <= n.

(** What [main] returns, from what its loop over the sheet returns. *)
Definition main_outcome (looped : result (list posting))
    (seen_csv : option string) : result main_result :=
  all_rows ← looped;
  seen ← load_seen seen_csv;
  v ← dedup (DedupVars seen all_rows [] ∅);
  match fresh v with
  | _ :: _ => Ok (MainResult (fresh v) (save_seen seen_csv (newkeys v)))
  | [] => Ok (MainResult [] seen_csv)
  end.

(** *** The statements about the adapters *)

(** [run], the outcome of an adapter call, is a normal return; the rows are
    none when the call of [get_json] raised or the list to iterate over
    cannot be reached in the response, and otherwise the postings appended
    before the first exception. *)
Definition fails_soft (run : result (list posting) * state) (resp : result value)
    (entries : value -> result (list value))
    (rows_of : list value -> list posting * bool) : Prop :=
  exists rows st',
    run = (Ok rows, st') /\
    (resp = Raise -> rows = []) /\
    (forall data, resp = Ok data -> entries data = Raise -> rows = []) /\
    (forall data js, resp = Ok data -> entries data = Ok js -> rows = (rows_of js).1).

(** The entries an adapter iterates over in a response: none when the call
    raised or when the list cannot be reached. *)
Definition entries_of (entries : value -> result (list value)) (resp : result value)
  : list value :=
  match resp ≫= entries with
  | Ok js => js
  | Raise => []
  end.

(** The entries a loop gets through: those that come before the first one
    on which [entry] raises. *)
Fixpoint reached (entry : value -> result (option posting)) (js : list value)
  : list value :=
  match js with
  | [] => []
  | j :: js' =>
      match entry j with
      | Raise => []
      | Ok _ => j :: reached entry js'
      end
  end.

(** The snippet of [p] is the first 280 characters of [strip_html] applied
    to the field [field] of the entry [j]. *)
Definition stripped_of (field : value -> result value) (j : value) (p : posting) : Prop :=
  exists raw t,
    field j = Ok raw /\ strip_html raw = Ok t /\ snippet p = VStr (Text.take 280 t).

(** The snippet of [p] is [(j.get("descriptionPlain") or "")[:280]] for the
    entry [j]: cut, not stripped. *)
Definition plain_of (j : value) (p : posting) : Prop :=
  exists d raw,
    get j "descriptionPlain" = Ok d /\ or_else d (Ok (VStr "")) = Ok raw /\
    slice_to 280 raw = Ok (snippet p).

Definition snippet_within (n : nat) (p : posting) : Prop :=
  exists k, len (snippet p) = Some k /\ k <= n.

(** [jobAd.sections.companyDescription] as line 121 reads it. *)
Definition company_description (j : value) : result value :=
  ad ← get_or j "jobAd" (VDict []);
  sections ← get_or ad "sections" (VDict []);
  get_or sections "companyDescription" (VStr "").

(** The published-state policy on its own: the state defaults to
    ["published"] and is compared lower-cased. *)
Definition state_is_published (j : value) : bool :=
  match j with
  | VDict d =>
      match assoc "state" d with
      | None => true
      | Some (VStr s) => String.eqb (Text.lower s) "published"
      | Some _ => false
      end
  | _ => false
  end.

(** The hostname table of the detector, as the specification lists it. *)
Definition provider_table : list (string * string) :=
  [("greenhouse.io", "greenhouse"); ("lever.co", "lever"); ("workable.com", "workable");
   ("ashbyhq.com", "ashby"); ("smartrecruiters.com", "smartrecruiters");
   ("myworkdayjobs.com", "workday")].

(** The tag of the first table entry whose substring occurs in [host]. *)
Definition first_match (host : string) : string :=
  match find (fun e => Text.contains e.1 host) provider_table with
  | Some e => e.2
  | None => ""
  end.

(** The keyword tokens as the specification words them: split on [;],
    trim and lower-case each token, discard the empty ones. *)
Definition tokens (kw_str : string) : list string :=
  List.filter (fun k => negb (Text.is_empty k))
              (map (fun k => Text.lower (Text.strip k)) (Text.split ";" kw_str)).

(** *** Loop lemmas *)

(** Unfolds the monad operations down to state passing. *)
Ltac run_M :=
  repeat (progress (unfold mbind, mret, M_bind, M_ret, result_bind, result_ret,
                      new_out, try_warn, return_out, get_json, for_each, lift;
                    simpl)).

(** Takes a successful chain of binds apart, one step at a time. *)
Ltac unbind H :=
  unfold mbind, mret, result_bind, result_ret in H;
  repeat match type of H with
         | match ?m with Ok _ => _ | Raise => _ end = Ok _ =>
             let E := fresh "E" in destruct m eqn:E; [|discriminate H]
         end;
  try (injection H as H).

Lemma for_items_collect (entry : value -> result (option posting))
    (body : value -> M unit) (js : list value) (st : state) :
  (forall j s, body j s = emit (entry j) s) ->
  for_items body js st =
    (if (collect entry js).2 then Ok tt else Raise,
     State (sent st) (warnings st) (out st ++ (collect entry js).1)).
Proof.
  intros Hbody. revert st.
  induction js as [|j js IH]; intros st; simpl.
  - rewrite app_nil_r. by destruct st.
  - unfold mbind, M_bind. rewrite Hbody. unfold emit.
    destruct (entry j) as [[p|]|]; simpl.
    + rewrite IH. simpl. destruct (collect entry js) as [ps fin]; simpl.
      by rewrite <- app_assoc.
    + rewrite IH. by destruct (collect entry js) as [ps fin].
    + rewrite app_nil_r. by destruct st.
Qed.

Lemma request_loop_run (req : request) (nav : value -> result value)
    (entry : value -> result (option posting)) (body : value -> M unit) (st : state) :
  (forall j s, body j s = emit (entry j) s) ->
  (data ← get_json req; jobs ← lift (nav data); for_each jobs body) st =
    let r := processed (fun d => nav d ≫= iter) entry (net req) in
    (if r.2 then Ok tt else Raise,
     State (sent st ++ [req]) (warnings st) (out st ++ r.1)).
Proof.
  intros Hbody. unfold processed. run_M.
  destruct (net req) as [data|]; run_M; [|by rewrite app_nil_r].
  destruct (nav data) as [jobs|]; run_M; [|by rewrite app_nil_r].
  destruct (iter jobs) as [js|]; run_M; [|by rewrite app_nil_r].
  by rewrite (for_items_collect entry body _ _ Hbody).
Qed.

Lemma single_loop_run (msg : string) (req : request) (nav : value -> result value)
    (entry : value -> result (option posting)) (body : value -> M unit) (st : state) :
  (forall j s, body j s = emit (entry j) s) ->
  single_loop msg req nav body st =
    let r := processed (fun d => nav d ≫= iter) entry (net req) in
    (Ok r.1, after st [req] msg r).
Proof.
  intros Hbody. unfold single_loop, after.
  unfold mbind at 1 2, M_bind at 1 2, new_out, try_warn, return_out.
  rewrite (request_loop_run req nav entry body _ Hbody). simpl.
  by destruct (processed _ entry (net req)) as [ps []].
Qed.

Lemma row_body (row : value -> result posting) (j : value) (s : state) :
  (p ← lift (row j); append p) s = emit (every row j) s.
Proof. unfold every. run_M. by destruct (row j). Qed.

(** *** What each adapter returns and leaves behind *)

Lemma fetch_greenhouse_run (slug name : string) (st : state) :
  fetch_greenhouse slug name st =
    let r := processed greenhouse_entries (every (greenhouse_row slug name))
               (net (greenhouse_request slug)) in
    (Ok r.1, after st [greenhouse_request slug] ("[warn] greenhouse " +:+ slug) r).
Proof.
  apply (single_loop_run _ (greenhouse_request slug)
           (fun d => get_or d "jobs" (VList [])) (every (greenhouse_row slug name))).
  intros j s. apply row_body.
Qed.

Lemma fetch_lever_run (slug name : string) (st : state) :
  fetch_lever slug name st =
    let r := processed iter (lever_entry slug name) (net (lever_request slug)) in
    (Ok r.1, after st [lever_request slug] ("[warn] lever " +:+ slug) r).
Proof.
  apply (single_loop_run _ (lever_request slug) (fun d => Ok d) (lever_entry slug name)).
  intros j s. unfold lever_entry. run_M.
  destruct (lever_published j) as [[]|]; simpl; [|done..].
  apply row_body.
Qed.

Lemma fetch_workable_run (slug name : string) (st : state) :
  fetch_workable slug name st =
    let r := processed workable_entries (every (workable_row slug name))
               (net (workable_request slug)) in
    (Ok r.1, after st [workable_request slug] ("[warn] workable " +:+ slug) r).
Proof.
  apply (single_loop_run _ (workable_request slug)
           (fun d => get_or d "results" (VList [])) (every (workable_row slug name))).
  intros j s. apply row_body.
Qed.

Lemma fetch_smartrecruiters_run (slug name : string) (st : state) :
  fetch_smartrecruiters slug name st =
    let r := processed smartrecruiters_entries (every (smartrecruiters_row slug name))
               (net (smartrecruiters_request slug)) in
    (Ok r.1,
     after st [smartrecruiters_request slug] ("[warn] smartrecruiters " +:+ slug) r).
Proof.
  apply (single_loop_run _ (smartrecruiters_request slug)
           (fun d => get_or d "content" (VList []))
           (every (smartrecruiters_row slug name))).
  intros j s. apply row_body.
Qed.

Lemma ashby_loop (slug name : string) (teams : list value) (st : state) :
  for_items (fun team =>
      jobs ← lift (js ← get_or team "jobs" (VList []); or_else js (Ok (VList [])));
      for_each jobs (fun j => p ← lift (ashby_row slug name j); append p)) teams st =
    (if (ashby_collect slug name teams).2 then Ok tt else Raise,
     State (sent st) (warnings st) (out st ++ (ashby_collect slug name teams).1)).
Proof.
  revert st. induction teams as [|team teams IH]; intros st.
  - simpl. rewrite app_nil_r. by destruct st.
  - cbn [for_items ashby_collect]. unfold ashby_jobs.
    unfold mbind at 1, M_bind at 1. run_M.
    destruct (get_or team "jobs" (VList [])) as [js|]; simpl;
      [|rewrite app_nil_r; by destruct st].
    destruct (or_else js (Ok (VList []))) as [js'|]; simpl;
      [|rewrite app_nil_r; by destruct st].
    destruct (iter js') as [items|]; simpl; [|rewrite app_nil_r; by destruct st].
    rewrite (for_items_collect (every (ashby_row slug name)))
      by (intros; apply row_body).
    destruct (collect (every (ashby_row slug name)) items) as [ps []]; simpl; [|done].
    rewrite IH. simpl.
    destruct (ashby_collect slug name teams) as [qs fin]; simpl.
    by rewrite <- app_assoc.
Qed.

Lemma fetch_ashby_run (slug name : string) (st : state) :
  fetch_ashby slug name st =
    let r := ashby_processed slug name (net (ashby_request slug)) in
    (Ok r.1, after st [ashby_request slug] ("[warn] ashby " +:+ slug) r).
Proof.
  unfold fetch_ashby, ashby_processed, ashby_teams, after, ashby_request. run_M.
  destruct (net _) as [data|]; run_M; [|done].
  destruct (or_else data (Ok (VDict []))) as [d|]; run_M; [|done].
  destruct (get_or d "data" (VDict [])) as [d'|]; run_M; [|done].
  destruct (get_or d' "jobBoard" (VDict [])) as [b|]; run_M; [|done].
  destruct (or_else b (Ok (VDict []))) as [board|]; run_M; [|done].
  destruct (get_or board "teams" (VList [])) as [t|]; run_M; [|done].
  destruct (or_else t (Ok (VList []))) as [t'|]; run_M; [|done].
  destruct (iter t') as [teams|]; run_M; [|done].
  match goal with |- context [for_items ?b teams ?s] =>
    change (for_items b teams s) with
      (for_items (fun team =>
         jobs ← lift (js ← get_or team "jobs" (VList []); or_else js (Ok (VList [])));
         for_each jobs (fun j => p ← lift (ashby_row slug name j); append p)) teams s)
  end.
  rewrite ashby_loop. simpl.
  by destruct (ashby_collect slug name teams) as [ps []].
Qed.

Lemma fetch_workday_run (career_url name : string) (st : state) :
  fetch_workday career_url name st =
    match urlparse career_url with
    | Raise =>
        (Ok [], State (sent st) (warnings st ++ ["[warn] workday " +:+ career_url]) [])
    | Ok u =>
        let host := netloc u in
        let parts := path_parts (path u) in
        if negb (Text.contains ".myworkdayjobs.com" host) || (length parts <? 1)%nat
        then (Ok [], State (sent st) (warnings st) [])
        else
          let tenant := hd "" (Text.split "." host) in
          let req := workday_request host (hd "" parts) in
          let r := processed workday_entries (every (workday_row host tenant name))
                     (net req) in
          (Ok r.1, after st [req] ("[warn] workday " +:+ career_url) r)
    end.
Proof.
  unfold fetch_workday.
  unfold mbind at 1 2 3, M_bind at 1 2 3, new_out, try_warn, return_out, lift at 1.
  destruct (urlparse career_url) as [u|]; simpl; [|done].
  destruct (negb _ || _); simpl; [done|].
  rewrite (request_loop_run (workday_request (netloc u) (hd "" (path_parts (path u))))
             (fun d => js ← get_or d "jobPostings" (VList []); or_else js (Ok (VList [])))
             (every (workday_row (netloc u) (hd "" (Text.split "." (netloc u))) name)))
    by (intros; apply row_body).
  simpl. unfold after, workday_entries.
  match goal with |- context [processed ?f ?e ?r] => set (pr := processed f e r) end.
  match goal with |- context [processed ?f ?e ?r] =>
    replace (processed f e r) with pr end.
  - by destruct pr as [ps []].
  - subst pr. unfold processed. destruct (net _) as [d|]; simpl; [|done].
    by destruct (get_or d "jobPostings" (VList [])) as [js|].
Qed.

(** *** Facts about text *)

Lemma take_length (n : nat) (s : string) : String.length (Text.take n s) <= n.
Proof.
  revert s. induction n as [|n IH]; intros [|c s]; simpl; try lia.
  specialize (IH s). lia.
Qed.

Lemma slice_to_within (n : nat) (v w : value) :
  slice_to n v = Ok w -> exists k, len w = Some k /\ k <= n.
Proof.
  destruct v; simpl; intros H; inversion H; subst; simpl.
  - eexists; split; [done|]. apply take_length.
  - eexists; split; [done|]. rewrite length_take. lia.
Qed.

(** *** Where the collected postings come from *)

Lemma collect_from (entry : value -> result (option posting)) (js : list value) :
  Forall (fun p => exists j, j ∈ js /\ entry j = Ok (Some p)) (collect entry js).1.
Proof.
  induction js as [|j js IH]; simpl; [constructor|].
  destruct (entry j) as [o|] eqn:Hj; simpl; [|constructor].
  destruct (collect entry js) as [ps fin]; simpl in *.
  assert (Forall (fun p => exists j0, j0 ∈ j :: js /\ entry j0 = Ok (Some p)) ps) as Hps.
  { eapply Forall_impl; [exact IH|]. intros p (j0 & Hin & Hp).
    exists j0. split; [apply elem_of_cons; by right|done]. }
  destruct o as [p|]; [|done].
  constructor; [|done]. exists j. split; [apply elem_of_cons; by left|done].
Qed.

Lemma collect_rows (row : value -> result posting) (js : list value) :
  Forall (fun p => exists j, row j = Ok p) (collect (every row) js).1.
Proof.
  eapply Forall_impl; [apply collect_from|].
  intros p (j & _ & Hp). exists j. unfold every in Hp.
  destruct (row j); simpl in Hp; [by inversion Hp|done].
Qed.


Lemma ashby_collect_rows (slug name : string) (teams : list value) :
  Forall (fun p => exists j, ashby_row slug name j = Ok p) (ashby_collect slug name teams).1.
Proof.
  induction teams as [|team teams IH]; simpl; [constructor|].
  destruct (ashby_jobs team) as [js|]; [|constructor].
  pose proof (collect_rows (ashby_row slug name) js) as Hjs.
  destruct (collect (every (ashby_row slug name)) js) as [ps []]; simpl in *; [|done].
  destruct (ashby_collect slug name teams) as [qs fin]; simpl in *.
  by apply Forall_app.
Qed.

Lemma processed_fails_soft (run : result (list posting) * state) (st' : state)
    (entries : value -> result (list value)) (entry : value -> result (option posting))
    (resp : result value) :
  run = (Ok (processed entries entry resp).1, st') ->
  fails_soft run resp entries (collect entry).
Proof.
  intros ->. exists (processed entries entry resp).1, st'.
  unfold processed. split; [done|]. repeat split.
  - by intros ->.
  - intros data -> Hd. simpl. by rewrite Hd.
  - intros data js -> Hd. simpl. by rewrite Hd.
Qed.

(** *** The snippet of a row *)

Lemma greenhouse_row_snippet (slug name : string) (j : value) (p : posting) :
  greenhouse_row slug name j = Ok p ->
  stripped_of (fun j => get_or j "content" (VStr "")) j p.
Proof.
  intros H. unfold greenhouse_row in H. unbind H. subst p. simpl.
  simpl in *. simplify_eq. by eexists _, _.
Qed.

Lemma workable_row_snippet (slug name : string) (j : value) (p : posting) :
  workable_row slug name j = Ok p ->
  stripped_of (fun j => get_or j "shortcode" (VStr "")) j p.
Proof.
  intros H. unfold workable_row in H. unbind H. subst p.
  simpl in *. simplify_eq. by eexists _, _.
Qed.

Lemma smartrecruiters_row_snippet (slug name : string) (j : value) (p : posting) :
  smartrecruiters_row slug name j = Ok p -> stripped_of company_description j p.
Proof.
  intros H. unfold smartrecruiters_row in H. unbind H. subst p.
  simpl in *. simplify_eq. eexists _, _. unfold company_description.
  split; [|by split].
  match goal with E : get_or j "jobAd" _ = _ |- _ => rewrite E end. simpl.
  match goal with E : get_or _ "sections" _ = _ |- _ => rewrite E end. simpl.
  done.
Qed.

Lemma workday_row_snippet (host tenant name : string) (j : value) (p : posting) :
  workday_row host tenant name j = Ok p ->
  stripped_of (fun j => get_or j "shortDescription" (VStr "")) j p.
Proof.
  intros H. unfold workday_row in H. unbind H. subst p.
  simpl in *. simplify_eq. by eexists _, _.
Qed.

Lemma lever_row_snippet (slug name : string) (j : value) (p : posting) :
  lever_row slug name j = Ok p -> plain_of j p.
Proof.
  intros H. unfold lever_row in H. unbind H. subst p. simpl.
  by eexists _, _.
Qed.

Lemma ashby_row_snippet (slug name : string) (j : value) (p : posting) :
  ashby_row slug name j = Ok p -> snippet p = VStr "".
Proof. intros H. unfold ashby_row in H. unbind H. by subst p. Qed.

Lemma stripped_within (field : value -> result value) (j : value) (p : posting) :
  stripped_of field j p -> snippet_within 280 p.
Proof.
  intros (raw & t & _ & _ & Hs). unfold snippet_within. rewrite Hs.
  eexists. split; [done|]. apply take_length.
Qed.

Lemma plain_within (j : value) (p : posting) : plain_of j p -> snippet_within 280 p.
Proof. intros (d & raw & _ & _ & H). by apply slice_to_within in H. Qed.

(** *** The entries a loop gets through *)

Lemma reached_prefix (entry : value -> result (option posting)) (js : list value) :
  reached entry js `prefix_of` js.
Proof.
  induction js as [|j js IH]; simpl; [done|].
  destruct (entry j); [by apply prefix_cons|apply prefix_nil].
Qed.

Lemma reached_app (entry : value -> result (option posting)) (pre post : list value) :
  Forall (fun j => entry j <> Raise) pre ->
  reached entry (pre ++ post) = (pre ++ reached entry post)%list.
Proof.
  induction 1 as [|j pre Hj _ IH]; [done|]. simpl.
  destruct (entry j); [by rewrite IH|done].
Qed.

Lemma reached_all (entry : value -> result (option posting)) (js : list value) :
  Forall (fun j => entry j <> Raise) js -> reached entry js = js.
Proof.
  intros Hjs. rewrite <- (app_nil_r js) at 1. rewrite reached_app by done.
  simpl. apply app_nil_r.
Qed.

Lemma every_reached (row : value -> result posting) (js : list value) :
  Forall2 (fun j p => row j = Ok p) (reached (every row) js) (collect (every row) js).1.
Proof.
  induction js as [|j js IH]; simpl; [constructor|].
  destruct (every row j) as [o|] eqn:Hj; simpl; [|constructor].
  destruct (collect (every row) js) as [ps fin]; simpl in *.
  unfold every in Hj. destruct (row j) as [p|] eqn:Hp; simpl in Hj; [|done].
  injection Hj as <-. by constructor.
Qed.

Lemma processed_entries (entries : value -> result (list value))
    (entry : value -> result (option posting)) (resp : result value) :
  (processed entries entry resp).1 = (collect entry (entries_of entries resp)).1.
Proof. unfold processed, entries_of. by destruct (resp ≫= entries). Qed.

Lemma Forall2_Forall_right {A B} (R : A -> B -> Prop) (P : B -> Prop)
    (xs : list A) (ys : list B) :
  (forall x y, R x y -> P y) -> Forall2 R xs ys -> Forall P ys.
Proof. intros HR. induction 1; constructor; eauto. Qed.

Lemma prefix_is_sublist {A} (l k : list A) : l `prefix_of` k -> sublist l k.
Proof.
  intros [m ->]. rewrite <- (app_nil_r l) at 1.
  apply sublist_app; [done|apply sublist_nil_l].
Qed.

Lemma list_filter_sublist {A} (f : A -> bool) (l : list A) : sublist (List.filter f l) l.
Proof.
  induction l as [|x l IH]; simpl; [constructor|].
  destruct (f x); by constructor.
Qed.


Lemma lever_published_state (j : value) (b : bool) :
  lever_published j = Ok b -> b = state_is_published j.
Proof.
  unfold lever_published, get_or. destruct j as [| | | | |l|d]; try done. simpl.
  destruct (assoc "state" d) as [[]|]; simpl; try done; by intros [= <-].
Qed.

Lemma lever_rows_reached (slug name : string) (js : list value) :
  Forall2 (fun j p => lever_row slug name j = Ok p)
          (List.filter state_is_published (reached (lever_entry slug name) js))
          (collect (lever_entry slug name) js).1.
Proof.
  induction js as [|j js IH]; simpl; [constructor|].
  destruct (lever_entry slug name j) as [o|] eqn:Hj; simpl; [|constructor].
  destruct (collect (lever_entry slug name) js) as [ps fin]; simpl in *.
  unfold lever_entry in Hj.
  destruct (lever_published j) as [keep|] eqn:Hkeep; simpl in Hj; [|done].
  apply lever_published_state in Hkeep. rewrite <- Hkeep.
  destruct keep.
  - unfold every in Hj. destruct (lever_row slug name j) as [p|] eqn:Hp; simpl in Hj; [|done].
    injection Hj as <-. by constructor.
  - by injection Hj as <-.
Qed.

(** *** C2 and C4 *)

(** C2, as amended.  No adapter raises to its caller: each call returns a
    list of postings in every state and for every behaviour of the network.
    The list is empty when [get_json] raised (transport error, error status,
    body that is not JSON), when [urlparse] raised or the Workday guard
    applied, and when the list to iterate over cannot be reached in the
    response; an exception met later, inside the loop, leaves the postings
    appended before it. *)
Theorem adapters_fail_soft (slug name career_url : string) (st : state) :
  fails_soft (fetch_greenhouse slug name st) (net (greenhouse_request slug))
    greenhouse_entries (collect (every (greenhouse_row slug name))) /\
  fails_soft (fetch_lever slug name st) (net (lever_request slug))
    iter (collect (lever_entry slug name)) /\
  fails_soft (fetch_workable slug name st) (net (workable_request slug))
    workable_entries (collect (every (workable_row slug name))) /\
  fails_soft (fetch_smartrecruiters slug name st) (net (smartrecruiters_request slug))
    smartrecruiters_entries (collect (every (smartrecruiters_row slug name))) /\
  fails_soft (fetch_ashby slug name st) (net (ashby_request slug))
    ashby_teams (ashby_collect slug name) /\
  (exists rows st',
     fetch_workday career_url name st = (Ok rows, st') /\
     (urlparse career_url = Raise -> rows = []) /\
     forall u, urlparse career_url = Ok u ->
       let host := netloc u in
       let parts := path_parts (path u) in
       if negb (Text.contains ".myworkdayjobs.com" host) || (length parts <? 1)%nat
       then rows = []
       else fails_soft (fetch_workday career_url name st)
              (net (workday_request host (hd "" parts))) workday_entries
              (collect (every (workday_row host (hd "" (Text.split "." host)) name)))).
Proof.
  repeat split.
  - eapply processed_fails_soft, fetch_greenhouse_run.
  - eapply processed_fails_soft, fetch_lever_run.
  - eapply processed_fails_soft, fetch_workable_run.
  - eapply processed_fails_soft, fetch_smartrecruiters_run.
  - rewrite fetch_ashby_run. unfold fails_soft, ashby_processed.
    eexists _, _. split; [done|]. repeat split.
    + by intros ->.
    + intros data -> Hd. simpl. by rewrite Hd.
    + intros data js -> Hd. simpl. by rewrite Hd.
  - rewrite fetch_workday_run.
    destruct (urlparse career_url) as [u|] eqn:Hu.
    + simpl. destruct (negb _ || _) eqn:Hguard.
      * eexists _, _. split; [done|]. split; [done|].
        intros u' [= <-]. simpl. by rewrite Hguard.
      * eexists _, _. split; [done|]. split; [done|].
        intros u' [= <-]. simpl. rewrite Hguard.
        eapply processed_fails_soft. done.
    + eexists _, _. split; [done|]. split; [done|]. by intros u' [=].
Qed.

Lemma rows_snippets (R : value -> posting -> Prop) (row : value -> result posting)
    (entries : value -> result (list value)) (resp : result value) :
  (forall j p, row j = Ok p -> R j p) ->
  (forall j p, R j p -> snippet_within 280 p) ->
  exists js,
    js `prefix_of` entries_of entries resp /\
    Forall2 R js (processed entries (every row) resp).1 /\
    Forall (snippet_within 280) (processed entries (every row) resp).1.
Proof.
  intros Hrow Hlen. rewrite processed_entries.
  exists (reached (every row) (entries_of entries resp)).
  assert (Forall2 R (reached (every row) (entries_of entries resp))
            (collect (every row) (entries_of entries resp)).1) as HR.
  { eapply Forall2_impl; [apply every_reached|]. intros j p. apply Hrow. }
  split; [apply reached_prefix|]. split; [exact HR|].
  eapply Forall2_Forall_right; [|exact HR]. apply Hlen.
Qed.

(** C4, as amended.  The postings that the Greenhouse, Workable,
    SmartRecruiters and Workday adapters return are, one for one and in
    order, those of the first entries of the response, and the snippet of each
    is the first 280 characters of the markup-stripped description field of
    its entry.  The postings of the Lever adapter are, in order, those of
    some of the entries of the response, and the snippet of each is the first
    280 items of the [descriptionPlain] of its entry as they are, neither
    stripped nor trimmed.  Every Ashby posting has the empty snippet.  In
    all six the snippet has length at most 280. *)
Theorem snippet_convention (slug name career_url : string) (st : state) :
  (exists rows st' js,
     fetch_greenhouse slug name st = (Ok rows, st') /\
     js `prefix_of` entries_of greenhouse_entries (net (greenhouse_request slug)) /\
     Forall2 (stripped_of (fun j => get_or j "content" (VStr ""))) js rows /\
     Forall (snippet_within 280) rows) /\
  (exists rows st' js,
     fetch_lever slug name st = (Ok rows, st') /\
     sublist js (entries_of iter (net (lever_request slug))) /\
     Forall2 plain_of js rows /\
     Forall (snippet_within 280) rows) /\
  (exists rows st' js,
     fetch_workable slug name st = (Ok rows, st') /\
     js `prefix_of` entries_of workable_entries (net (workable_request slug)) /\
     Forall2 (stripped_of (fun j => get_or j "shortcode" (VStr ""))) js rows /\
     Forall (snippet_within 280) rows) /\
  (exists rows st' js,
     fetch_smartrecruiters slug name st = (Ok rows, st') /\
     js `prefix_of` entries_of smartrecruiters_entries
                      (net (smartrecruiters_request slug)) /\
     Forall2 (stripped_of company_description) js rows /\
     Forall (snippet_within 280) rows) /\
  (exists rows st',
     fetch_ashby slug name st = (Ok rows, st') /\
     Forall (fun p => snippet p = VStr "" /\ snippet_within 280 p) rows) /\
  (exists rows st' js,
     fetch_workday career_url name st = (Ok rows, st') /\
     (forall u, urlparse career_url = Ok u ->
        js `prefix_of`
          entries_of workday_entries
            (net (workday_request (netloc u) (hd "" (path_parts (path u)))))) /\
     Forall2 (stripped_of (fun j => get_or j "shortDescription" (VStr ""))) js rows /\
     Forall (snippet_within 280) rows) /\
  (forall field j p raw,
     stripped_of field j p -> field j = Ok (VStr raw) ->
     snippet p = VStr (Text.take 280 (Text.strip (Text.sub_tags raw)))) /\
  (forall j p d,
     plain_of j p -> get j "descriptionPlain" = Ok (VStr d) ->
     snippet p = VStr (Text.take 280 d)).
Proof.
  split; [|split; [|split; [|split; [|split; [|split; [|split]]]]]].
  - rewrite fetch_greenhouse_run.
    destruct (rows_snippets _ (greenhouse_row slug name) greenhouse_entries
                (net (greenhouse_request slug)) (greenhouse_row_snippet slug name)
                (stripped_within _)) as (js & Hpre & HR & Hlen).
    by eexists _, _, js.
  - rewrite fetch_lever_run. cbn zeta. rewrite processed_entries.
    set (js := entries_of iter (net (lever_request slug))).
    assert (Forall2 plain_of
              (List.filter state_is_published (reached (lever_entry slug name) js))
              (collect (lever_entry slug name) js).1) as HR.
    { eapply Forall2_impl; [apply lever_rows_reached|].
      intros j p. apply lever_row_snippet. }
    eexists _, _, _. split; [done|]. split; [|split; [exact HR|]].
    + etrans; [apply list_filter_sublist|]. apply prefix_is_sublist, reached_prefix.
    + eapply Forall2_Forall_right; [|exact HR]. apply plain_within.
  - rewrite fetch_workable_run.
    destruct (rows_snippets _ (workable_row slug name) workable_entries
                (net (workable_request slug)) (workable_row_snippet slug name)
                (stripped_within _)) as (js & Hpre & HR & Hlen).
    by eexists _, _, js.
  - rewrite fetch_smartrecruiters_run.
    destruct (rows_snippets _ (smartrecruiters_row slug name) smartrecruiters_entries
                (net (smartrecruiters_request slug))
                (smartrecruiters_row_snippet slug name)
                (stripped_within _)) as (js & Hpre & HR & Hlen).
    by eexists _, _, js.
  - rewrite fetch_ashby_run. eexists _, _. split; [done|].
    assert (Forall (fun p => exists j, ashby_row slug name j = Ok p)
              (ashby_processed slug name (net (ashby_request slug))).1) as Hrows.
    { unfold ashby_processed. destruct (_ ≫= ashby_teams); [|constructor].
      apply ashby_collect_rows. }
    eapply Forall_impl; [exact Hrows|]. intros p [j Hj].
    apply ashby_row_snippet in Hj. split; [done|].
    unfold snippet_within. rewrite Hj. exists 0. simpl. split; [done|lia].
  - rewrite fetch_workday_run. destruct (urlparse career_url) as [u|].
    + simpl. destruct (negb _ || _).
      * exists [], (State (sent st) (warnings st) []), [].
        split; [done|]. split; [intros; apply prefix_nil|]. split; constructor.
      * destruct (rows_snippets _
                    (workday_row (netloc u) (hd "" (Text.split "." (netloc u))) name)
                    workday_entries
                    (net (workday_request (netloc u) (hd "" (path_parts (path u)))))
                    (workday_row_snippet _ _ name)
                    (stripped_within _)) as (js & Hpre & HR & Hlen).
        eexists _, _, js. split; [done|]. split; [|by split].
        by intros u' [= <-].
    + exists [], (State (sent st) (warnings st ++ ["[warn] workday " +:+ career_url]) []), [].
      split; [done|]. split; [by intros u [=]|]. split; constructor.
  - intros field j p raw (raw' & t & Hf & Ht & Hs) Hraw.
    rewrite Hraw in Hf. injection Hf as <-. rewrite Hs. f_equal. f_equal.
    unfold strip_html in Ht. destruct raw as [|c raw]; simpl in Ht; by injection Ht as <-.
  - intros j p d (d' & raw & Hd & Hraw & Hs) Hplain.
    rewrite Hplain in Hd. injection Hd as <-.
    unfold or_else in Hraw. destruct d as [|c d]; simpl in Hraw; injection Hraw as <-;
      simpl in Hs; by injection Hs as <-.
Qed.

(** *** The Lever state test *)

Lemma Forall2_elem_l {A B} (R : A -> B -> Prop) (xs : list A) (ys : list B) (x : A) :
  Forall2 R xs ys -> x ∈ xs -> exists y, y ∈ ys /\ R x y.
Proof.
  induction 1 as [|x' y' xs ys Hxy _ IH]; intros Hin.
  - by apply elem_of_nil in Hin.
  - apply elem_of_cons in Hin as [->|Hin].
    + exists y'. split; [apply elem_of_cons; by left|done].
    + destruct (IH Hin) as (y & Hy & HR). exists y.
      split; [apply elem_of_cons; by right|done].
Qed.

Lemma state_is_published_spec (j : value) :
  state_is_published j = true <->
  exists d, j = VDict d /\
    (assoc "state" d = None \/
     exists s, assoc "state" d = Some (VStr s) /\ Text.lower s = "published").
Proof.
  split.
  - destruct j as [| | | | |l|d]; try done. simpl. intros H. exists d. split; [done|].
    destruct (assoc "state" d) as [[| | | |s| |]|]; try done; [|by left].
    right. exists s. split; [done|]. by apply String.eqb_eq.
  - intros (d & -> & [Hnone|(s & Hs & Hlow)]); simpl.
    + by rewrite Hnone.
    + rewrite Hs. by apply String.eqb_eq.
Qed.

Lemma lever_rows_published (slug name : string) (js : list value) :
  Forall (fun p => exists j, j ∈ js /\ state_is_published j = true /\
                             lever_row slug name j = Ok p)
         (collect (lever_entry slug name) js).1.
Proof.
  eapply Forall_impl; [apply collect_from|].
  intros p (j & Hin & Hp). exists j. split; [done|]. unfold lever_entry in Hp.
  destruct (lever_published j) as [keep|] eqn:Hkeep; simpl in Hp; [|done].
  apply lever_published_state in Hkeep. destruct keep; [|done].
  split; [done|]. unfold every in Hp.
  destruct (lever_row slug name j); simpl in Hp; [by inversion Hp|done].
Qed.

(** An entry that is reached, and whose state passes the test, has its
    posting in the output. *)
Lemma lever_reached_in (slug name : string) (js pre post : list value) (j : value) :
  js = (pre ++ j :: post)%list ->
  Forall (fun j => lever_entry slug name j <> Raise) (pre ++ [j]) ->
  state_is_published j = true ->
  exists p, lever_row slug name j = Ok p /\ p ∈ (collect (lever_entry slug name) js).1.
Proof.
  intros -> Hok Hpub.
  destruct (Forall2_elem_l _ _ _ j (lever_rows_reached slug name (pre ++ j :: post)))
    as (p & Hp & Hrow).
  - rewrite (cons_middle j pre post), app_assoc, reached_app by done.
    apply list_elem_of_In, filter_In. split; [|done].
    apply list_elem_of_In, elem_of_app. left. apply elem_of_app. right.
    apply list_elem_of_here.
  - by exists p.
Qed.

(** C6, as amended.  Every posting the Lever adapter returns is the posting
    of a response entry whose state is absent or, lower-cased, is
    ["published"]: an entry whose state is present and lower-cases to
    something else is left out.  The output is, in order, the postings of
    exactly those entries among the ones the loop gets through, which are the
    entries before the first one that raises an exception; so an entry with
    no [state] field is in the output as soon as it and the entries before it
    are processed without exception. *)
Theorem lever_published_policy (slug name : string) (st : state) (data : value)
    (js : list value) :
  net (lever_request slug) = Ok data ->
  iter data = Ok js ->
  exists rows st',
    fetch_lever slug name st = (Ok rows, st') /\
    Forall (fun p => exists d,
              VDict d ∈ js /\ lever_row slug name (VDict d) = Ok p /\
              (assoc "state" d = None \/
               exists s, assoc "state" d = Some (VStr s) /\ Text.lower s = "published"))
           rows /\
    Forall2 (fun j p => lever_row slug name j = Ok p)
            (List.filter state_is_published (reached (lever_entry slug name) js)) rows /\
    (forall j, state_is_published j = true <->
       exists d, j = VDict d /\
         (assoc "state" d = None \/
          exists s, assoc "state" d = Some (VStr s) /\ Text.lower s = "published")) /\
    (forall pre d post,
       js = (pre ++ VDict d :: post)%list ->
       Forall (fun j => lever_entry slug name j <> Raise) (pre ++ [VDict d]) ->
       assoc "state" d = None ->
       exists p, lever_row slug name (VDict d) = Ok p /\ p ∈ rows) /\
    (Forall (fun j => lever_entry slug name j <> Raise) js ->
       Forall2 (fun j p => lever_row slug name j = Ok p)
               (List.filter state_is_published js) rows).
Proof.
  intros Hnet Hiter. rewrite fetch_lever_run. unfold processed.
  rewrite Hnet. simpl. rewrite Hiter.
  eexists _, _. split; [done|]. split; [|split; [|split; [|split]]].
  - eapply Forall_impl; [apply lever_rows_published|].
    intros p (j & Hin & Hpub & Hrow).
    apply state_is_published_spec in Hpub as (d & -> & Hstate). by exists d.
  - apply lever_rows_reached.
  - apply state_is_published_spec.
  - intros pre d post Hjs Hok Hstate.
    apply (lever_reached_in slug name js pre post (VDict d) Hjs Hok).
    simpl. by rewrite Hstate.
  - intros Hwf. pose proof (lever_rows_reached slug name js) as Hrows.
    by rewrite reached_all in Hrows.
Qed.

(** C10, as amended.  The published test of the Lever adapter ignores
    letter case: an entry whose state lower-cases to ["published"] (as
    ["Published"] and ["PUBLISHED"] do) has its posting in the output,
    provided that it and the entries before it are processed without
    exception; what comes after it does not matter. *)
Theorem lever_state_case_insensitive (slug name : string) (st : state) (data : value)
    (js pre post : list value) (d : list (string * value)) (s : string) :
  net (lever_request slug) = Ok data ->
  iter data = Ok js ->
  js = (pre ++ VDict d :: post)%list ->
  Forall (fun j => lever_entry slug name j <> Raise) (pre ++ [VDict d]) ->
  assoc "state" d = Some (VStr s) ->
  Text.lower s = "published" ->
  exists rows st' p,
    fetch_lever slug name st = (Ok rows, st') /\
    lever_row slug name (VDict d) = Ok p /\ p ∈ rows.
Proof.
  intros Hnet Hiter Hjs Hok Hstate Hs.
  rewrite fetch_lever_run. unfold processed. rewrite Hnet. simpl. rewrite Hiter.
  destruct (lever_reached_in slug name js pre post (VDict d) Hjs Hok) as (p & Hrow & Hp).
  - simpl. by rewrite Hstate, Hs.
  - by eexists _, _, p.
Qed.

(** *** Splitting and stripping *)








(** *** Lower-casing, trimming and substrings *)

Lemma is_space_lower (c : ascii) : Text.is_space (Text.lower_char c) = Text.is_space c.
Proof. destruct c as [[] [] [] [] [] [] [] []]; reflexivity. Qed.

Lemma is_empty_lower (s : string) : Text.is_empty (Text.lower s) = Text.is_empty s.
Proof. by destruct s. Qed.

Lemma lower_lstrip (s : string) :
  Text.lower (Text.lstrip_by Text.is_space s) = Text.lstrip_by Text.is_space (Text.lower s).
Proof.
  induction s as [|c s IH]; [done|]. cbn [Text.lower Text.lstrip_by].
  rewrite is_space_lower. by destruct (Text.is_space c).
Qed.

Lemma lower_rstrip (s : string) :
  Text.lower (Text.rstrip_by Text.is_space s) = Text.rstrip_by Text.is_space (Text.lower s).
Proof.
  induction s as [|c s IH]; [done|]. cbn [Text.lower Text.rstrip_by].
  rewrite is_space_lower, <- IH, is_empty_lower.
  by destruct (Text.is_space c && Text.is_empty _).
Qed.

Lemma lower_strip (s : string) : Text.lower (Text.strip s) = Text.strip (Text.lower s).
Proof. unfold Text.strip, Text.strip_by. by rewrite lower_rstrip, lower_lstrip. Qed.

Lemma prefix_app_contains (a b h : string) :
  String.prefix (a +:+ b) h = true -> Text.contains b h = true.
Proof.
  revert h. induction a as [|c a IH]; intros h H.
  - change ("" +:+ b) with b in H.
    destruct h; cbn [Text.contains]; by rewrite H.
  - destruct h as [|c' h]; [by destruct b|].
    change (String c a +:+ b) with (String c (a +:+ b)) in H.
    cbn [String.prefix] in H.
    destruct (ascii_dec c c'); [|done].
    cbn [Text.contains]. rewrite (IH h H). by rewrite orb_true_r.
Qed.

Lemma contains_app (a b h : string) :
  Text.contains (a +:+ b) h = true -> Text.contains b h = true.
Proof.
  induction h as [|c h IH]; intros H.
  - cbn [Text.contains] in H. rewrite orb_false_r in H.
    by apply prefix_app_contains in H.
  - cbn [Text.contains] in H. apply orb_true_iff in H as [H|H].
    + by apply prefix_app_contains in H.
    + cbn [Text.contains]. rewrite (IH H). by rewrite orb_true_r.
Qed.

Lemma host_provider_table (host : string) : host_provider host = first_match host.
Proof.
  unfold host_provider, first_match, provider_table. simpl.
  destruct (Text.contains "greenhouse.io" host); [done|].
  destruct (Text.contains "lever.co" host); [done|].
  destruct (Text.contains "workable.com" host); [done|].
  destruct (Text.contains "ashbyhq.com" host) eqn:Hashby; [done|].
  destruct (Text.contains "jobs.ashbyhq.com" host) eqn:Hjobs.
  - apply (contains_app "jobs." "ashbyhq.com") in Hjobs. congruence.
  - simpl. destruct (Text.contains "smartrecruiters.com" host); [done|].
    by destruct (Text.contains "myworkdayjobs.com" host).
Qed.

Lemma known_provider_trimmed (tag : string) :
  tag ∈ known_providers -> Text.strip tag = tag.
Proof.
  unfold known_providers. rewrite !elem_of_union, !elem_of_singleton.
  intros [[[[[->| ->]| ->]| ->]| ->]| ->]; reflexivity.
Qed.

Lemma known_providers_tags (x : string) :
  x ∈ known_providers <->
  x ∈ ["greenhouse"; "lever"; "workable"; "ashby"; "smartrecruiters"; "workday"].
Proof.
  unfold known_providers.
  rewrite !elem_of_union, !elem_of_singleton, !elem_of_cons, elem_of_nil. tauto.
Qed.

(** C5, as amended.  A provider hint that, trimmed and lower-cased, is one
    of the six tags is returned whatever the career URL is, whether or not
    [urlparse] accepts it.  Otherwise, for a career URL that [urlparse]
    accepts, the lower-cased network location (the host together with any
    user information and port) is looked up in the substring table, first
    entry first, and the unknown provider (the empty string) is returned when
    no entry occurs in it.  Detection changes no state. *)
Theorem detect_provider_priority (provider slug career_url : string) :
  let hint := Text.lower (Text.strip provider) in
  let tags := ["greenhouse"; "lever"; "workable"; "ashby"; "smartrecruiters"; "workday"] in
  let table :=
    [("greenhouse.io", "greenhouse"); ("lever.co", "lever"); ("workable.com", "workable");
     ("ashbyhq.com", "ashby"); ("smartrecruiters.com", "smartrecruiters");
     ("myworkdayjobs.com", "workday")] in
  (hint ∈ tags -> detect_provider provider slug career_url = Ok hint) /\
  (Text.lower provider ∈ tags ->
     detect_provider provider slug career_url = Ok (Text.lower provider)) /\
  (hint ∉ tags ->
     forall u, urlparse career_url = Ok u ->
       detect_provider provider slug career_url =
         Ok (match find (fun e => Text.contains e.1 (Text.lower (netloc u))) table with
             | Some e => e.2
             | None => ""
             end)) /\
  (forall st, (lift (detect_provider provider slug career_url) st).2 = st).
Proof.
  cbv zeta.
  assert (forall tag, tag ∈ known_providers -> Text.lower (Text.strip provider) = tag ->
            detect_provider provider slug career_url = Ok tag) as Hhint.
  { intros tag Htag Heq. unfold detect_provider. rewrite Heq.
    by destruct (decide (tag ∈ known_providers)). }
  split; [|split; [|split]].
  - intros Htag. apply Hhint; [by apply known_providers_tags|done].
  - intros Htag. apply known_providers_tags in Htag. apply Hhint; [done|].
    rewrite lower_strip. by apply known_provider_trimmed.
  - intros Hnot u Hu. unfold detect_provider.
    destruct (decide (_ ∈ known_providers)) as [Hin|_];
      [by apply known_providers_tags in Hin|].
    rewrite Hu. simpl. by rewrite host_provider_table.
  - done.
Qed.

(** *** The keyword filter *)

Lemma keywords_tokens (kw_str : string) : keywords kw_str = tokens kw_str.
Proof.
  unfold keywords, tokens.
  induction (Text.split ";" kw_str) as [|k ks IH]; [done|]. simpl.
  rewrite is_empty_lower. destruct (Text.is_empty (Text.strip k)); simpl; by rewrite IH.
Qed.

Lemma keyword_loop_filter (kws : list string) (rows acc : list posting) :
  keyword_loop kws rows acc = (acc ++ List.filter (fun r => any_in kws (hay r)) rows)%list.
Proof.
  revert acc. induction rows as [|r rows IH]; intros acc; simpl.
  - by rewrite app_nil_r.
  - rewrite IH. destruct (any_in kws (hay r)); [|done].
    by rewrite <- app_assoc.
Qed.

(** X23.  What the keyword filter does.  With the keyword string split on
    [;] and each token trimmed and lower-cased, empty tokens dropped: when no
    token remains the filter returns its input, and otherwise it returns, in
    the original order, exactly the postings for which some token occurs in
    the lower-cased text made of the title, the snippet and the location,
    joined by single spaces.  For a posting whose three fields are strings
    that text is made of the strings themselves; a field that is not a string
    is taken as [str] renders it, [None] as the four letters [None]. *)
Theorem keyword_filter_spec (rows : list posting) (kw_str : string) :
  let toks :=
    List.filter (fun k => negb (Text.is_empty k))
      (map (fun k => Text.lower (Text.strip k)) (Text.split ";" kw_str)) in
  let shown v :=
    match v with
    | VStr s => s
    | VNone => "None"
    | VBool true => "True"
    | VBool false => "False"
    | VInt n => Text.of_Z n
    | _ => repr_other v
    end in
  let text r :=
    Text.lower (shown (title r) +:+ " " +:+ shown (snippet r) +:+ " "
                  +:+ shown (location r)) in
  (toks = [] -> keyword_filter rows kw_str = rows) /\
  (toks <> [] ->
     keyword_filter rows kw_str =
       List.filter (fun r => existsb (fun k => Text.contains k (text r)) toks) rows) /\
  sublist (keyword_filter rows kw_str) rows /\
  (forall r t s l,
     title r = VStr t -> snippet r = VStr s -> location r = VStr l ->
     text r = Text.lower (t +:+ " " +:+ s +:+ " " +:+ l)).
Proof.
  cbv zeta. unfold keyword_filter. rewrite keywords_tokens. unfold tokens.
  generalize (List.filter (fun k => negb (Text.is_empty k))
                (map (fun k => Text.lower (Text.strip k)) (Text.split ";" kw_str))).
  intros toks.
  assert (forall r, hay r =
            Text.lower
              (match title r with
               | VStr s => s | VNone => "None" | VBool true => "True"
               | VBool false => "False" | VInt n => Text.of_Z n
               | _ => repr_other (title r)
               end +:+ " " +:+
               match snippet r with
               | VStr s => s | VNone => "None" | VBool true => "True"
               | VBool false => "False" | VInt n => Text.of_Z n
               | _ => repr_other (snippet r)
               end +:+ " " +:+
               match location r with
               | VStr s => s | VNone => "None" | VBool true => "True"
               | VBool false => "False" | VInt n => Text.of_Z n
               | _ => repr_other (location r)
               end)) as Hhay.
  { intros r. unfold hay, format.
    destruct (title r) as [|[]| | | | |], (snippet r) as [|[]| | | | |],
             (location r) as [|[]| | | | |]; reflexivity. }
  split; [|split; [|split]].
  - by intros ->.
  - intros Htoks. destruct toks as [|k ks]; [done|].
    rewrite keyword_loop_filter. simpl app.
    apply filter_ext. intros r. unfold any_in. by rewrite Hhay.
  - destruct toks as [|k ks]; [reflexivity|].
    rewrite keyword_loop_filter. simpl app. apply list_filter_sublist.
  - intros r t s l -> -> ->. reflexivity.
Qed.

End Agent.

(** ** The dedup loop *)

Lemma dedup_loop_run (rows : list posting) (v : dedup_vars) :
  Forall hashable rows ->
  dedup_loop rows v =
    Ok (DedupVars (seen v) (all_rows v)
          (fresh v ++ List.filter (is_fresh (seen v)) rows)
          (newkeys v ∪ keys_of (List.filter (is_fresh (seen v)) rows))).
Proof.
  intros Hrows. revert v.
  induction Hrows as [|r rows [k Hk] _ IH]; intros v; simpl.
  - unfold keys_of. simpl. rewrite app_nil_r, (right_id_L ∅ (∪)). by destruct v.
  - unfold dedup_step, is_fresh. fold (fingerprint r). rewrite Hk.
    unfold mbind at 1 2, result_bind at 1 2.
    destruct (decide (k ∈ seen v)) as [Hin|Hout].
    + rewrite bool_decide_eq_false_2 by (by intros ?). apply IH.
    + rewrite bool_decide_eq_true_2 by done. rewrite IH. simpl.
      unfold keys_of. simpl. rewrite Hk. simpl.
      rewrite <- app_assoc. by rewrite (assoc_L (∪)).
Qed.

Lemma dedup_run (v : dedup_vars) :
  Forall hashable (all_rows v) ->
  dedup v =
    Ok (DedupVars (seen v) (all_rows v) (List.filter (is_fresh (seen v)) (all_rows v))
          (keys_of (List.filter (is_fresh (seen v)) (all_rows v)))).
Proof.
  intros Hrows. unfold dedup. rewrite dedup_loop_run by done. simpl.
  by rewrite (left_id_L ∅ (∪)).
Qed.

Lemma elem_of_keys_of (rows : list posting) (k : string) :
  k ∈ keys_of rows <-> exists r, r ∈ rows /\ fingerprint r = Ok k.
Proof.
  unfold keys_of. rewrite elem_of_list_to_set, list_elem_of_omap. split.
  - intros (r & Hr & Hk). exists r. split; [done|].
    destruct (fingerprint r); by simplify_eq.
  - intros (r & Hr & Hk). exists r. split; [done|]. by rewrite Hk.
Qed.

Lemma fresh_keeps_key (seen : gset string) (rows : list posting) (k : string) :
  k ∉ seen ->
  List.filter (has_key k) (List.filter (is_fresh seen) rows) = List.filter (has_key k) rows.
Proof.
  intros Hk. induction rows as [|r rows IH]; [done|]. simpl.
  unfold is_fresh at 1, has_key at 2.
  destruct (fingerprint r) as [k'|] eqn:Hr; [|done].
  destruct (decide (k' ∈ seen)) as [Hin|Hout].
  - rewrite bool_decide_eq_false_2 by (by intros ?).
    destruct (String.eqb_spec k k') as [->|_]; done.
  - rewrite bool_decide_eq_true_2 by done. simpl. unfold has_key at 1.
    rewrite Hr, IH. done.
Qed.

(** C1.  Over postings whose url is a str or empty, the dedup loop returns,
    in the original order, exactly the postings whose fingerprint is not in
    the loaded seen set, and [newkeys] is the set of their fingerprints.
    Membership is tested against the loaded set alone: for a fingerprint that
    is not in it, every posting of the batch that has it is in [fresh], as
    many times as it occurs. *)
Theorem dedup_partition (v : dedup_vars) :
  Forall hashable (all_rows v) ->
  exists v',
    dedup v = Ok v' /\
    fresh v' = List.filter (is_fresh (seen v)) (all_rows v) /\
    (forall k, k ∈ newkeys v' <-> exists r, r ∈ fresh v' /\ fingerprint r = Ok k) /\
    (forall k, k ∉ seen v ->
       List.filter (has_key k) (fresh v') = List.filter (has_key k) (all_rows v)) /\
    (forall r1 r2 k, r1 ∈ all_rows v -> r2 ∈ all_rows v ->
       fingerprint r1 = Ok k -> fingerprint r2 = Ok k -> k ∉ seen v ->
       r1 ∈ fresh v' /\ r2 ∈ fresh v').
Proof.
  intros Hrows. eexists. split; [by apply dedup_run|]. simpl.
  split; [done|]. split; [apply elem_of_keys_of|]. split.
  - intros k Hk. by apply fresh_keeps_key.
  - assert (forall r k, r ∈ all_rows v -> fingerprint r = Ok k -> k ∉ seen v ->
              r ∈ List.filter (is_fresh (seen v)) (all_rows v)) as Hin.
    { intros r k Hr Hk Hout. apply list_elem_of_In, filter_In.
      split; [by apply list_elem_of_In|]. unfold is_fresh. rewrite Hk.
      by apply bool_decide_eq_true_2. }
    intros r1 r2 k H1 H2 Hk1 Hk2 Hout. split; eauto.
Qed.

(** C8.  The dedup loop leaves the seen set and the input postings as they
    were, so that a second run from the variables the first one left gives
    the same result, [fresh] included; and the fingerprint of a posting is a
    function of its url alone. *)
Theorem dedup_pure (v : dedup_vars) :
  Forall hashable (all_rows v) ->
  exists v',
    dedup v = Ok v' /\
    seen v' = seen v /\
    all_rows v' = all_rows v /\
    dedup v' = Ok v' /\
    (forall r1 r2, url r1 = url r2 -> fingerprint r1 = fingerprint r2).
Proof.
  intros Hrows. eexists. split; [by apply dedup_run|]. simpl.
  split; [done|]. split; [done|]. split.
  - by rewrite dedup_run.
  - intros r1 r2 Hurl. unfold fingerprint. by rewrite Hurl.
Qed.

(** ** The theorems at concrete inputs *)

Lemma take_short (n : nat) (s : string) :
  String.length (Text.take n s) < n -> Text.take n s = s.
Proof.
  revert s. induction n as [|n IH]; intros [|c s]; simpl; try lia; [done|].
  intros H. f_equal. apply IH. lia.
Qed.

Lemma rstrip_last (p : ascii -> bool) (s : string) (c : ascii) :
  last_char (Text.rstrip_by p s) = Some c -> p c = false.
Proof.
  induction s as [|c' s IH]; [done|]. cbn [Text.rstrip_by].
  destruct (Text.rstrip_by p s) as [|c'' r] eqn:Hr.
  - destruct (p c') eqn:Hc'; simpl; [done|]. by intros [= <-].
  - rewrite andb_false_r. exact IH.
Qed.

(** C2 as the specification states it fails: the second entry of the
    response is not an object, the adapter catches the exception and warns,
    and it returns the posting of the first entry, not the empty list. *)
Lemma greenhouse_partial_rows :
  greenhouse_row "acme" "Acme" (VInt 5) = Raise /\
  fetch_greenhouse (Fixture.answer (Ok Fixture.greenhouse_doc)) "acme" "Acme" Fixture.start =
    (Ok [Fixture.greenhouse_first],
     State [greenhouse_request "acme"] ["[warn] greenhouse acme"]
           [Fixture.greenhouse_first]).
Proof. split; reflexivity. Qed.

(** C4 as the specification states it fails: the Lever adapter returns a
    snippet that starts with a tag and ends with a space, which no text is
    once its tags are replaced and it is trimmed. *)
Lemma lever_snippet_not_stripped :
  fetch_lever (Fixture.answer (Ok Fixture.lever_doc)) Fixture.iso_epoch "acme" "Acme"
      Fixture.start =
    (Ok [Fixture.lever_designer; Fixture.lever_engineer],
     State [lever_request "acme"] [] [Fixture.lever_designer; Fixture.lever_engineer]) /\
  Text.match_tag "<b>Hi</b> there " = Some "Hi</b> there " /\
  ~ (exists t, snippet Fixture.lever_engineer
               = VStr (Text.take 280 (Text.strip (Text.sub_tags t)))).
Proof.
  split; [reflexivity|]. split; [reflexivity|].
  intros [t Ht].
  change (snippet Fixture.lever_engineer) with (VStr "<b>Hi</b> there ") in Ht.
  remember (Text.strip (Text.sub_tags t)) as x eqn:Hx.
  remember (Text.take 280 x) as y eqn:Hy.
  injection Ht as Ht. subst y.
  assert (Text.take 280 x = x) as Hall.
  { apply take_short. rewrite <- Ht. vm_compute. lia. }
  rewrite Hall in Ht.
  assert (last_char x = Some " "%char) as Hlast by (by rewrite <- Ht).
  rewrite Hx in Hlast. apply rstrip_last in Hlast. discriminate Hlast.
Qed.

(** C3.  The filter on a posting without a title: the Lever adapter makes
    of an entry without any field a posting whose title is [None] and whose
    snippet and location are empty; there is no text in which [on] occurs,
    and the filter keeps the posting for the keyword [on], which it finds in
    the word [None] that the f-string of line 222 makes of the title. *)
Lemma keyword_matches_missing_title :
  lever_row Fixture.iso_epoch "acme" "Acme" (VDict []) = Ok Fixture.untitled /\
  title Fixture.untitled = VNone /\
  snippet Fixture.untitled = VStr "" /\
  location Fixture.untitled = VStr "" /\
  Text.contains "on" (Text.lower ("" +:+ " " +:+ "" +:+ " " +:+ "")) = false /\
  keyword_filter Fixture.repr_blank [Fixture.untitled] "on" = [Fixture.untitled].
Proof. repeat split; vm_compute; reflexivity. Qed.

(** C5 as the specification states it fails.  The detector reads the
    network location, not the hostname: a URL whose user information holds
    [greenhouse.io] is taken for Greenhouse though no table entry occurs in
    its hostname.  And it does not return the unknown provider for a URL that
    [urlparse] refuses: it raises. *)
Lemma detect_provider_reads_netloc :
  Fixture.urlparse "https://greenhouse.io@evil.example/x"
    = Ok (UrlParts "greenhouse.io@evil.example" "/x") /\
  hostname "greenhouse.io@evil.example" = "evil.example" /\
  first_match "evil.example" = "" /\
  detect_provider Fixture.urlparse "" "" "https://greenhouse.io@evil.example/x"
    = Ok "greenhouse" /\
  Fixture.urlparse_strict "https://[boards.example.com/acme" = Raise /\
  detect_provider Fixture.urlparse_strict "" "" "https://[boards.example.com/acme" = Raise.
Proof. repeat split; vm_compute; reflexivity. Qed.

(** C6 as the specification states it fails.  The state of the third entry
    of the first response is present and is not ["published"], and its
    posting is in the output.  The second entry of the second response has no
    state, and its posting is not in the output, the entry before it being a
    number, on which the loop ends. *)
Lemma lever_policy_exceptions :
  assoc "state" Fixture.lever_capital = Some (VStr "Published") /\
  "Published" <> "published" /\
  lever_row Fixture.iso_epoch "acme" "Acme" (VDict Fixture.lever_capital)
    = Ok Fixture.lever_engineer /\
  fetch_lever (Fixture.answer (Ok Fixture.lever_doc)) Fixture.iso_epoch "acme" "Acme"
      Fixture.start =
    (Ok [Fixture.lever_designer; Fixture.lever_engineer],
     State [lever_request "acme"] [] [Fixture.lever_designer; Fixture.lever_engineer]) /\
  assoc "state" Fixture.lever_stateless = None /\
  lever_row Fixture.iso_epoch "acme" "Acme" (VDict Fixture.lever_stateless)
    = Ok Fixture.lever_designer /\
  fetch_lever (Fixture.answer (Ok Fixture.lever_number_first)) Fixture.iso_epoch
      "acme" "Acme" Fixture.start =
    (Ok [], State [lever_request "acme"] ["[warn] lever acme"] []).
Proof. repeat split; try reflexivity. discriminate. Qed.

(** C10 as the specification states it fails: the state of the second entry
    is ["Published"], and its posting is not in the output, the entry before
    it being a number, on which the loop ends. *)
Lemma lever_published_after_number :
  assoc "state" Fixture.lever_capital = Some (VStr "Published") /\
  Text.lower "Published" = "published" /\
  lever_row Fixture.iso_epoch "acme" "Acme" (VDict Fixture.lever_capital)
    = Ok Fixture.lever_engineer /\
  lever_entry Fixture.iso_epoch "acme" "Acme" (VInt 5) = Raise /\
  fetch_lever (Fixture.answer (Ok Fixture.lever_number_then_capital)) Fixture.iso_epoch
      "acme" "Acme" Fixture.start =
    (Ok [], State [lever_request "acme"] ["[warn] lever acme"] []).
Proof. repeat split; reflexivity. Qed.



Lemma lever_doc_well_formed :
  Forall (fun j => lever_entry Fixture.iso_epoch "acme" "Acme" j <> Raise)
         [VDict Fixture.lever_closed; VDict Fixture.lever_stateless;
          VDict Fixture.lever_capital].
Proof. repeat constructor; discriminate. Defined.

(** C6 at the fixture: the closed entry is left out, the entry without a
    state and the entry with a capitalised state are in. *)
Lemma lever_published_policy_witness :
  Fixture.answer (Ok Fixture.lever_doc) (lever_request "acme") = Ok Fixture.lever_doc /\
  iter Fixture.lever_doc =
    Ok [VDict Fixture.lever_closed; VDict Fixture.lever_stateless;
        VDict Fixture.lever_capital] /\
  exists rows st',
    fetch_lever (Fixture.answer (Ok Fixture.lever_doc)) Fixture.iso_epoch "acme" "Acme"
        Fixture.start = (Ok rows, st') /\
    Forall2 (fun j p => lever_row Fixture.iso_epoch "acme" "Acme" j = Ok p)
            [VDict Fixture.lever_stateless; VDict Fixture.lever_capital] rows.
Proof.
  split; [reflexivity|]. split; [reflexivity|].
  destruct (lever_published_policy (Fixture.answer (Ok Fixture.lever_doc))
              Fixture.iso_epoch "acme" "Acme" Fixture.start Fixture.lever_doc _
              eq_refl eq_refl) as (rows & st' & Hrun & _ & _ & _ & _ & Hwf).
  exists rows, st'. split; [exact Hrun|].
  exact (Hwf lever_doc_well_formed).
Defined.

(** C10 at a response whose first entry has the state ["Published"] and
    whose second entry is a number: the first is in, whatever comes after. *)
Lemma lever_state_case_insensitive_witness :
  iter Fixture.lever_number_last = Ok [VDict Fixture.lever_capital; VInt 5] /\
  lever_entry Fixture.iso_epoch "acme" "Acme" (VInt 5) = Raise /\
  Text.lower "Published" = "published" /\
  exists rows st' p,
    fetch_lever (Fixture.answer (Ok Fixture.lever_number_last)) Fixture.iso_epoch
        "acme" "Acme" Fixture.start = (Ok rows, st') /\
    lever_row Fixture.iso_epoch "acme" "Acme" (VDict Fixture.lever_capital) = Ok p /\
    p ∈ rows.
Proof.
  split; [reflexivity|]. split; [reflexivity|]. split; [reflexivity|].
  apply (lever_state_case_insensitive (Fixture.answer (Ok Fixture.lever_number_last))
           Fixture.iso_epoch "acme" "Acme" Fixture.start Fixture.lever_number_last
           [VDict Fixture.lever_capital; VInt 5] [] [VInt 5]
           Fixture.lever_capital "Published" eq_refl eq_refl eq_refl).
  - repeat constructor. discriminate.
  - reflexivity.
  - reflexivity.
Defined.



Lemma batch_hashable : Forall hashable (all_rows Fixture.batch).
Proof. repeat constructor; eexists; vm_compute; reflexivity. Defined.

(** C1 at a batch of three: the two postings that share a new URL are both
    fresh, the one seen before is not. *)
Lemma dedup_partition_witness :
  Forall hashable (all_rows Fixture.batch) /\
  exists v',
    dedup Fixture.batch = Ok v' /\
    fresh v' = [Fixture.twin "Acme"; Fixture.twin "Initech"].
Proof.
  split; [exact batch_hashable|].
  destruct (dedup_partition Fixture.batch batch_hashable) as (v' & Hrun & Hfresh & _).
  exists v'. split; [exact Hrun|]. rewrite Hfresh. vm_compute. reflexivity.
Defined.

(** C8 at the same batch. *)
Lemma dedup_pure_witness :
  Forall hashable (all_rows Fixture.batch) /\
  exists v',
    dedup Fixture.batch = Ok v' /\ seen v' = seen Fixture.batch /\
    all_rows v' = all_rows Fixture.batch /\ dedup v' = Ok v'.
Proof.
  split; [exact batch_hashable|].
  destruct (dedup_pure Fixture.batch batch_hashable)
    as (v' & Hrun & Hseen & Hrows & Hagain & _).
  exists v'. split; [exact Hrun|]. split; [exact Hseen|].
  split; [exact Hrows|exact Hagain].
Defined.

(** ** Checks against Python and the examples of the specification *)

Example sha1_empty :
  Sha1.hexdigest (Sha1.utf8 "") = "da39a3ee5e6b4b0d3255bfef95601890afd80709".
Proof. vm_compute. reflexivity. Qed.

Example sha1_abc :
  Sha1.hexdigest (Sha1.utf8 "abc") = "a9993e364706816aba3e25717850c26c9cd0d89d".
Proof. vm_compute. reflexivity. Qed.

Example sha1_two_blocks :
  Sha1.hexdigest (Sha1.utf8 "abcdbcdecdefdefgefghfghighijhijkijkljklmklmnlmnomnopnopq")
  = "84983e441c3bd26ebaae4aa1f95129e5e54670f1".
Proof. vm_compute. reflexivity. Qed.

Example sha1_fox :
  Sha1.hexdigest (Sha1.utf8 "The quick brown fox jumps over the lazy dog")
  = "2fd4e1c67a2d28fced849ee1bb76e7391b93eb12".
Proof. vm_compute. reflexivity. Qed.

Example sub_tags_ex :
  Text.sub_tags "<p>Hello <b>world</b></p> a<>b <x" = " Hello  world   a<>b <x".
Proof. vm_compute. reflexivity. Qed.

Example split_ex : Text.split "/" "/acme//jobs/" = [""; "acme"; ""; "jobs"; ""].
Proof. vm_compute. reflexivity. Qed.

Example strip_ex : Text.strip "  Remote ;" = "Remote ;" /\ Text.strip_char "/" "//a/b//" = "a/b".
Proof. vm_compute. split; reflexivity. Qed.

Example sha1_latin1 :
  Sha1.hexdigest (Sha1.utf8 ("caf" +:+ String (ascii_of_N 233) ""))
  = "f424452a9673918c6f09b0cdd35b20be8e6ae7d7".
Proof. vm_compute. reflexivity. Qed.

Example sub_tags_nested :
  Text.sub_tags "a<>b <x <<a>> <y" = "a<>b  > <y".
Proof. vm_compute. reflexivity. Qed.

Example lower_latin1 :
  Text.lower (String (ascii_of_N 192) (String (ascii_of_N 215) (String (ascii_of_N 222) "Az")))
  = String (ascii_of_N 224) (String (ascii_of_N 215) (String (ascii_of_N 254) "az")).
Proof. vm_compute. reflexivity. Qed.

Example strip_html_ex :
  strip_html (VStr "<p>Build <b>things</b></p>") = Ok "Build  things" /\
  strip_html VNone = Ok "" /\ strip_html (VInt 5) = Raise.
Proof. repeat split; reflexivity. Qed.

(** The fingerprint of the specification's URL, and of a missing one. *)
Example fingerprint_ex :
  sha1 (VStr "https://jobs.example.com/42") = Ok "889624714dd567591bd15e16942000a86f8f1453" /\
  sha1 VNone = Ok "da39a3ee5e6b4b0d3255bfef95601890afd80709" /\
  sha1 (VStr "") = Ok "da39a3ee5e6b4b0d3255bfef95601890afd80709".
Proof. repeat split; vm_compute; reflexivity. Qed.

(** A url that is neither a str nor falsy has no fingerprint: the loop
    raises, and nothing in [main] catches it. *)
Example dedup_raises :
  dedup (DedupVars ∅ [Posting (VStr "Acme") VNone (VStr "") (VInt 5) (VStr "Lever")
                              VNone (VStr "")] [] ∅) = Raise.
Proof. reflexivity. Qed.

(** An explicit hint wins over the hostname. *)
Example detect_hint_wins :
  detect_provider Fixture.urlparse "lever" "" "https://boards.greenhouse.io/acme" = Ok "lever" /\
  detect_provider Fixture.urlparse " Lever " "" "https://boards.greenhouse.io/acme" = Ok "lever" /\
  detect_provider Fixture.urlparse "" "" "https://boards.greenhouse.io/acme" = Ok "greenhouse" /\
  detect_provider Fixture.urlparse "" "" "https://acme.wd5.myworkdayjobs.com/External"
    = Ok "workday" /\
  detect_provider Fixture.urlparse "taleo" "" "https://careers.example.com/jobs" = Ok "".
Proof. repeat split; vm_compute; reflexivity. Qed.

Example slug_ex :
  slug_from_url Fixture.urlparse "lever" "https://jobs.lever.co//acme//x/" = Ok "acme" /\
  slug_from_url Fixture.urlparse "ashby" "https://jobs.ashbyhq.com" = Ok "" /\
  slug_from_url Fixture.urlparse "workday" "https://acme.myworkdayjobs.com/External" = Ok "".
Proof. repeat split; vm_compute; reflexivity. Qed.

Example keyword_filter_ex :
  keyword_filter Fixture.repr_blank [Fixture.senior] "remote; engineer" = [Fixture.senior] /\
  keyword_filter Fixture.repr_blank [Fixture.senior] "design" = [] /\
  keyword_filter Fixture.repr_blank [Fixture.senior] "" = [Fixture.senior] /\
  keyword_filter Fixture.repr_blank [Fixture.senior] " ; ;" = [Fixture.senior].
Proof. repeat split; vm_compute; reflexivity. Qed.

(** A missing title is formatted as [None], which a keyword can match. *)
Example keyword_none :
  keyword_filter Fixture.repr_blank
    [Posting (VStr "Acme") VNone (VStr "") VNone (VStr "Lever") VNone (VStr "")] "none"
  = [Posting (VStr "Acme") VNone (VStr "") VNone (VStr "Lever") VNone (VStr "")].
Proof. vm_compute. reflexivity. Qed.

(** Without the Workday marker: no posting, no request, no warning. *)
Example workday_no_marker :
  fetch_workday (Fixture.answer (Ok (VDict []))) Fixture.urlparse Fixture.repr_blank
    "https://careers.example.com/External" "Acme" Fixture.start = (Ok [], Fixture.start).
Proof. reflexivity. Qed.

(** A failed call: no posting, one warning. *)
Example ashby_call_fails :
  fetch_ashby (Fixture.answer Raise) "acme" "Acme" Fixture.start =
    (Ok [], State [ashby_request "acme"] ["[warn] ashby acme"] []).
Proof. reflexivity. Qed.

(** A null job board is no error. *)
Example ashby_null_board :
  fetch_ashby (Fixture.answer (Ok (VDict [("data", VDict [("jobBoard", VNone)])])))
    "acme" "Acme" Fixture.start = (Ok [], State [ashby_request "acme"] [] []).
Proof. reflexivity. Qed.

(** Two runs over one posting, the keys of the first added to the store. *)
Example two_runs :
  dedup (DedupVars ∅ [Fixture.old] [] ∅) =
    Ok (DedupVars ∅ [Fixture.old] [Fixture.old]
                  {[ "bf92217410b8b9e933dd9ddb055ac2a5ca641a7d" ]}) /\
  dedup (DedupVars {[ "bf92217410b8b9e933dd9ddb055ac2a5ca641a7d" ]} [Fixture.old] [] ∅) =
    Ok (DedupVars {[ "bf92217410b8b9e933dd9ddb055ac2a5ca641a7d" ]} [Fixture.old] [] ∅).
Proof. split; vm_compute; reflexivity. Qed.

(** The code points below 256 that [str.strip] removes and that [str.lower]
    changes, as Python has them. *)
Example is_space_table :
  List.filter (fun n => Text.is_space (ascii_of_nat n)) (seq 0 256)
  = [9; 10; 11; 12; 13; 28; 29; 30; 31; 32; 133; 160]%nat.
Proof. vm_compute. reflexivity. Qed.

Example is_upper_table :
  List.filter (fun n => Text.is_upper (ascii_of_nat n)) (seq 0 256)
  = (seq 65 26 ++ seq 192 23 ++ seq 216 7)%list.
Proof. vm_compute. reflexivity. Qed.

Example of_Z_ex : Text.of_Z 0 = "0" /\ Text.of_Z 50 = "50" /\ Text.of_Z (-12) = "-12".
Proof. repeat split; reflexivity. Qed.

(** [csv.reader] on blank lines, the three line ends, quoted fields and an
    input that ends inside a field, as Python reads them. *)
Example csv_reader_ex :
  Csv.reader "" = Ok [] /\
  Csv.reader ("k1" +:+ Csv.CRLF +:+ "k2") = Ok [["k1"]; ["k2"]] /\
  Csv.reader ("a" +:+ Fixture.cr ("b" +:+ Fixture.nl ("c" +:+ Csv.CRLF +:+ "d")))
    = Ok [["a"]; ["b"]; ["c"]; ["d"]] /\
  Csv.reader ("a,b" +:+ Fixture.nl (Fixture.nl (Csv.CRLF +:+ "," +:+ Fixture.nl "")))
    = Ok [["a"; "b"]; []; []; [""; ""]] /\
  Csv.reader ("a" +:+ Fixture.cr (Csv.CRLF +:+ "b")) = Ok [["a"]; []; ["b"]] /\
  Csv.reader (" a , b " +:+ Fixture.nl "") = Ok [[" a "; " b "]] /\
  Csv.reader "a," = Ok [["a"; ""]] /\
  Csv.reader (Fixture.q ("a" +:+ Fixture.nl ("b" +:+ Fixture.q (",c" +:+ Fixture.nl ""))))
    = Ok [["a" +:+ Fixture.nl "b"; "c"]] /\
  Csv.reader (Fixture.q "a") = Ok [["a"]] /\
  Csv.reader (Fixture.q ("a" +:+ Fixture.q ("b,c" +:+ Fixture.nl ""))) = Ok [["ab"; "c"]] /\
  Csv.reader ("a" +:+ Fixture.q ("b" +:+ Fixture.nl "")) = Ok [["a" +:+ Fixture.q "b"]] /\
  Csv.reader (Fixture.q ("a" +:+ Fixture.q (Fixture.q ("b" +:+ Fixture.q (Fixture.nl "")))))
    = Ok [["a" +:+ Fixture.q "b"]] /\
  Csv.reader (Fixture.q ("a" +:+ Fixture.q (" x" +:+ Fixture.nl ""))) = Ok [["a x"]] /\
  Csv.reader (Fixture.q ("a" +:+ Fixture.q ("," +:+ Fixture.nl ""))) = Ok [["a"; ""]] /\
  Csv.reader (Fixture.q (Fixture.q "")) = Ok [[""]] /\
  Csv.reader (Fixture.q ("a" +:+ Fixture.nl "")) = Ok [["a" +:+ Fixture.nl ""]] /\
  Csv.reader (Fixture.q "") = Ok [[""]] /\
  Csv.reader ("x," +:+ Fixture.q "") = Ok [["x"; ""]].
Proof. repeat split; vm_compute; reflexivity. Qed.

(** [csv.writer] quotes an empty field and a field with a comma, a quote
    or a line end, and no other. *)
Example csv_writer_ex :
  Csv.write_row "abc" = "abc" +:+ Csv.CRLF /\
  Csv.write_row "" = Fixture.q (Fixture.q Csv.CRLF) /\
  Csv.write_row "a,b" = Fixture.q ("a,b" +:+ Fixture.q Csv.CRLF) /\
  Csv.write_row ("a" +:+ Fixture.q "b")
    = Fixture.q ("a" +:+ Fixture.q (Fixture.q ("b" +:+ Fixture.q Csv.CRLF))) /\
  Csv.write_row ("a" +:+ Fixture.nl "b")
    = Fixture.q ("a" +:+ Fixture.nl ("b" +:+ Fixture.q Csv.CRLF)) /\
  Csv.write_row " a b" = " a b" +:+ Csv.CRLF.
Proof. repeat split; vm_compute; reflexivity. Qed.

(** A seen file whose last line has no end: the first key written goes on
    that line, and the key it held is read back longer than it was. *)
Example seen_file_unterminated :
  load_seen (Some ("k1" +:+ Csv.CRLF +:+ "k2")) = Ok {[ "k1"; "k2" ]} /\
  save_seen (Some ("k1" +:+ Csv.CRLF +:+ "k2")) {[ "new" ]}
    = Some ("k1" +:+ Csv.CRLF +:+ "k2new" +:+ Csv.CRLF) /\
  load_seen (save_seen (Some ("k1" +:+ Csv.CRLF +:+ "k2")) {[ "new" ]})
    = Ok {[ "k1"; "k2new" ]}.
Proof. repeat split; vm_compute; reflexivity. Qed.

(** The hostname of a network location, as Python gives it. *)
Example hostname_ex :
  hostname "boards.greenhouse.io" = "boards.greenhouse.io" /\
  hostname "User:pw@Jobs.Lever.co:8443" = "jobs.lever.co" /\
  hostname "[FE80::1%Eth0]:80" = "fe80::1%Eth0" /\
  hostname "" = "".
Proof. repeat split; vm_compute; reflexivity. Qed.

(** ** Further properties of the code *)

(** *** The digest *)

Lemma append_length (a b : string) :
  String.length (a +:+ b) = String.length a + String.length b.
Proof. induction a as [|c a IH]; simpl; [done|]. by rewrite IH. Qed.

Lemma all_of_append (p : ascii -> bool) (a b : string) :
  all_of p (a +:+ b) = all_of p a && all_of p b.
Proof. induction a as [|c a IH]; simpl; [done|]. rewrite IH. by destruct (p c). Qed.

Lemma hex_length (n : nat) (x : Z) : String.length (Sha1.hex n x) = n.
Proof. induction n as [|n IH]; simpl; [done|]. by rewrite IH. Qed.

Lemma hex_digit_is_hex (x : Z) : is_hex (Sha1.hex_digit (x mod 16)) = true.
Proof.
  pose proof (Z.mod_pos_bound x 16 ltac:(lia)) as Hm.
  generalize dependent (x mod 16)%Z. intros m Hm.
  assert (m = 0 \/ m = 1 \/ m = 2 \/ m = 3 \/ m = 4 \/ m = 5 \/ m = 6 \/ m = 7 \/
          m = 8 \/ m = 9 \/ m = 10 \/ m = 11 \/ m = 12 \/ m = 13 \/ m = 14 \/ m = 15)%Z
    as Hcases by lia.
  repeat (destruct Hcases as [->|Hcases]; [reflexivity|]). by subst m.
Qed.

Lemma hex_all (n : nat) (x : Z) : all_of is_hex (Sha1.hex n x) = true.
Proof.
  induction n as [|n IH]; [done|]. cbn [Sha1.hex all_of].
  by rewrite hex_digit_is_hex, IH.
Qed.

Lemma hexdigest_format (msg : list Z) :
  String.length (Sha1.hexdigest msg) = 40 /\ all_of is_hex (Sha1.hexdigest msg) = true.
Proof.
  unfold Sha1.hexdigest.
  destruct (Sha1.blocks _ Sha1.init (Sha1.pad msg)) as [[[[h0 h1] h2] h3] h4].
  split.
  - by rewrite !append_length, !hex_length.
  - by rewrite !all_of_append, !hex_all.
Qed.

(** X1.  Whatever the url, a fingerprint that [sha1] returns is a string of
    40 characters, each one of [0-9a-f]. *)
Theorem sha1_digest_format (v : value) (k : string) :
  sha1 v = Ok k -> String.length k = 40 /\ all_of is_hex k = true.
Proof.
  unfold sha1. destruct (if truthy v then v else VStr ""); try done.
  intros [= <-]. apply hexdigest_format.
Qed.

(** X2.  [sha1] never raises on a falsy url ([None], [False], [0], [0.0],
    the empty str, list or dict), and gives all of them the digest of the
    empty string: postings without a url share one fingerprint. *)
Theorem sha1_falsy_collide (v : value) :
  truthy v = false ->
  sha1 v = Ok "da39a3ee5e6b4b0d3255bfef95601890afd80709" /\
  (forall (seen : gset string) (r1 r2 : posting),
     truthy (url r1) = false -> truthy (url r2) = false ->
     is_fresh seen r1 = is_fresh seen r2).
Proof.
  assert (forall w, truthy w = false ->
            sha1 w = Ok "da39a3ee5e6b4b0d3255bfef95601890afd80709") as Hempty.
  { intros w Hw. unfold sha1. rewrite Hw. vm_compute. reflexivity. }
  intros Hv. split; [by apply Hempty|].
  intros seen r1 r2 H1 H2. unfold is_fresh, fingerprint.
  by rewrite (Hempty _ H1), (Hempty _ H2).
Qed.

(** *** [strip_html] *)

Lemma tag_rest_length (s r : string) :
  Text.tag_rest s = Some r -> String.length r < String.length s.
Proof.
  revert r. induction s as [|c s IH]; intros r; simpl; [done|].
  destruct (Ascii.eqb c ">").
  - intros [= <-]. lia.
  - intros H. specialize (IH r H). lia.
Qed.

Lemma match_tag_length (s r : string) :
  Text.match_tag s = Some r -> String.length r + 3 <= String.length s.
Proof.
  destruct s as [|c s]; [done|]. destruct s as [|d s].
  - by destruct c as [[] [] [] [] [] [] [] []].
  - destruct c as [[] [] [] [] [] [] [] []]; try done. simpl.
    destruct (Ascii.eqb d ">"); [done|].
    intros H. apply tag_rest_length in H. lia.
Qed.

Lemma match_tag_head (c : ascii) (s : string) :
  Ascii.eqb c "<" = false -> Text.match_tag (String c s) = None.
Proof.
  intros Hc. destruct c as [[] [] [] [] [] [] [] []]; try done.
Qed.

Lemma sub_tags_fuels (n1 n2 : nat) (s : string) :
  String.length s <= n1 -> String.length s <= n2 ->
  Text.sub_tags_from n1 s = Text.sub_tags_from n2 s.
Proof.
  revert n2 s. induction n1 as [|n1 IH]; intros n2 s H1 H2.
  - destruct s; [by destruct n2|simpl in H1; lia].
  - destruct s as [|c s]; [by destruct n2|].
    destruct n2 as [|n2]; [simpl in H2; lia|].
    cbn [Text.sub_tags_from]. simpl in H1, H2.
    destruct (Text.match_tag (String c s)) as [rest|] eqn:Hmatch.
    + apply match_tag_length in Hmatch. simpl in Hmatch.
      f_equal. apply IH; lia.
    + f_equal. apply IH; lia.
Qed.

(** More fuel than the length of the text changes nothing. *)
Lemma sub_tags_fuel (n : nat) (s : string) :
  String.length s <= n -> Text.sub_tags_from n s = Text.sub_tags s.
Proof. intros H. unfold Text.sub_tags. apply sub_tags_fuels; lia. Qed.

Lemma match_tag_rest (s r : string) :
  Text.match_tag s = Some r -> Text.tag_rest s = Some r.
Proof.
  destruct s as [|c s]; [done|]. destruct s as [|d s].
  - by destruct c as [[] [] [] [] [] [] [] []].
  - destruct c as [[] [] [] [] [] [] [] []]; try done. simpl.
    by destruct (Ascii.eqb d ">").
Qed.

(** Without a ['>'] in the text there is none in the result. *)
Lemma sub_tags_no_gt (n : nat) (s : string) :
  Text.tag_rest s = None -> Text.tag_rest (Text.sub_tags_from n s) = None.
Proof.
  revert s. induction n as [|n IH]; intros s Hs; [done|].
  destruct s as [|c s]; [done|]. cbn [Text.sub_tags_from].
  destruct (Text.match_tag (String c s)) as [rest|] eqn:Hmatch.
  - apply match_tag_rest in Hmatch. congruence.
  - simpl in *. destruct (Ascii.eqb c ">"); [done|]. by apply IH.
Qed.

Lemma match_tag_no_gt (s : string) :
  Text.tag_rest s = None -> Text.match_tag (String "<" s) = None.
Proof.
  destruct s as [|d s]; [done|]. simpl.
  destruct (Ascii.eqb d ">"); done.
Qed.

(** What [re.sub] returns holds no tag any more. *)
Lemma sub_tags_from_clean (n : nat) (s : string) :
  has_tag (Text.sub_tags_from n s) = false.
Proof.
  revert s. induction n as [|n IH]; intros s; [done|].
  destruct s as [|c s]; [done|]. cbn [Text.sub_tags_from].
  destruct (Text.match_tag (String c s)) as [rest|] eqn:Hmatch.
  - cbn [has_tag]. rewrite match_tag_head by done. apply IH.
  - cbn [has_tag]. rewrite IH.
    destruct (Ascii.eqb c "<") eqn:Hc; [|by rewrite match_tag_head].
    apply Ascii.eqb_eq in Hc as ->.
    destruct s as [|d s]; [by destruct n|].
    simpl in Hmatch. destruct (Ascii.eqb d ">") eqn:Hd.
    + apply Ascii.eqb_eq in Hd as ->. destruct n as [|n]; [done|].
      cbn [Text.sub_tags_from]. rewrite (match_tag_head ">" s) by done.
      reflexivity.
    + rewrite match_tag_no_gt; [done|]. apply sub_tags_no_gt.
      simpl. by rewrite Hd.
Qed.

Lemma tag_rest_append (p q r : string) :
  Text.tag_rest p = Some r -> Text.tag_rest (p +:+ q) = Some (r +:+ q).
Proof.
  induction p as [|c p IH]; simpl; [done|].
  destruct (Ascii.eqb c ">"); [by intros [= <-]|done].
Qed.

Lemma match_tag_append (p q r : string) :
  Text.match_tag p = Some r -> Text.match_tag (p +:+ q) = Some (r +:+ q).
Proof.
  destruct p as [|c p]; [done|]. destruct p as [|d p].
  - by destruct c as [[] [] [] [] [] [] [] []].
  - destruct c as [[] [] [] [] [] [] [] []]; try done. simpl.
    destruct (Ascii.eqb d ">"); [done|]. apply tag_rest_append.
Qed.

Lemma has_tag_append_l (p q : string) :
  has_tag (p +:+ q) = false -> has_tag p = false.
Proof.
  induction p as [|c p IH]; [done|].
  change (String c p +:+ q) with (String c (p +:+ q)). cbn [has_tag].
  destruct (Text.match_tag (String c p)) as [r|] eqn:Hmatch.
  - apply (match_tag_append _ q) in Hmatch.
    change (String c p +:+ q) with (String c (p +:+ q)) in Hmatch.
    by rewrite Hmatch.
  - destruct (Text.match_tag (String c (p +:+ q))); [done|exact IH].
Qed.

Lemma has_tag_append_r (p q : string) :
  has_tag (p +:+ q) = false -> has_tag q = false.
Proof.
  induction p as [|c p IH]; [done|].
  change (String c p +:+ q) with (String c (p +:+ q)). cbn [has_tag].
  destruct (Text.match_tag (String c (p +:+ q))); [done|exact IH].
Qed.

Lemma append_cons (c : ascii) (a b : string) : String c a +:+ b = String c (a +:+ b).
Proof. reflexivity. Qed.

Lemma lstrip_suffix (p : ascii -> bool) (s : string) :
  exists q, s = q +:+ Text.lstrip_by p s.
Proof.
  induction s as [|c s [q IH]]; [by exists ""|]. cbn [Text.lstrip_by].
  destruct (p c).
  - exists (String c q). rewrite append_cons. f_equal. exact IH.
  - by exists "".
Qed.

Lemma append_empty_r (s : string) : s +:+ "" = s.
Proof. induction s as [|c s IH]; [done|]. rewrite append_cons. by f_equal. Qed.

Lemma rstrip_prefix (p : ascii -> bool) (s : string) :
  exists q, s = Text.rstrip_by p s +:+ q.
Proof.
  induction s as [|c s [q IH]]; [by exists ""|]. cbn [Text.rstrip_by].
  destruct (p c && Text.is_empty (Text.rstrip_by p s)).
  - by exists (String c s).
  - exists q. rewrite append_cons. f_equal. exact IH.
Qed.

Lemma take_prefix (n : nat) (s : string) : exists q, s = Text.take n s +:+ q.
Proof.
  revert s. induction n as [|n IH]; intros s; [by exists s|].
  destruct s as [|c s]; [by exists ""|].
  destruct (IH s) as [q Hq]. exists q. cbn [Text.take]. rewrite append_cons.
  f_equal. exact Hq.
Qed.

Lemma strip_clean (s : string) : has_tag s = false -> has_tag (Text.strip s) = false.
Proof.
  intros Hs. unfold Text.strip, Text.strip_by.
  destruct (lstrip_suffix Text.is_space s) as [q Hq].
  rewrite Hq in Hs. apply has_tag_append_r in Hs.
  destruct (rstrip_prefix Text.is_space (Text.lstrip_by Text.is_space s)) as [q' Hq'].
  rewrite Hq' in Hs. by apply has_tag_append_l in Hs.
Qed.

Lemma take_clean (n : nat) (s : string) :
  has_tag s = false -> has_tag (Text.take n s) = false.
Proof.
  intros Hs. destruct (take_prefix n s) as [q Hq].
  rewrite Hq in Hs. by apply has_tag_append_l in Hs.
Qed.

Lemma sub_tags_from_length (n : nat) (s : string) :
  String.length (Text.sub_tags_from n s) <= String.length s.
Proof.
  revert s. induction n as [|n IH]; intros s; [simpl; lia|].
  destruct s as [|c s]; [done|]. cbn [Text.sub_tags_from].
  destruct (Text.match_tag (String c s)) as [rest|] eqn:Hmatch.
  - apply match_tag_length in Hmatch. specialize (IH rest). simpl in *. lia.
  - specialize (IH s). simpl. lia.
Qed.

Lemma strip_length (s : string) : String.length (Text.strip s) <= String.length s.
Proof.
  unfold Text.strip, Text.strip_by.
  destruct (lstrip_suffix Text.is_space s) as [q Hq].
  destruct (rstrip_prefix Text.is_space (Text.lstrip_by Text.is_space s)) as [q' Hq'].
  apply (f_equal String.length) in Hq, Hq'. rewrite append_length in Hq, Hq'. lia.
Qed.

Lemma lstrip_first (p : ascii -> bool) (s : string) (c : ascii) :
  first_char (Text.lstrip_by p s) = Some c -> p c = false.
Proof.
  induction s as [|c' s IH]; [done|]. cbn [Text.lstrip_by].
  destruct (p c') eqn:Hc'; [exact IH|]. by intros [= <-].
Qed.

Lemma rstrip_first (p : ascii -> bool) (s : string) (c : ascii) :
  first_char (Text.rstrip_by p s) = Some c -> first_char s = Some c.
Proof.
  destruct s as [|c' s]; [done|]. cbn [Text.rstrip_by].
  by destruct (p c' && Text.is_empty (Text.rstrip_by p s)).
Qed.

Lemma strip_ends (s : string) (c : ascii) :
  first_char (Text.strip s) = Some c \/ last_char (Text.strip s) = Some c ->
  Text.is_space c = false.
Proof.
  unfold Text.strip, Text.strip_by. intros [H|H].
  - apply rstrip_first in H. by apply lstrip_first in H.
  - by apply rstrip_last in H.
Qed.

Lemma strip_html_cases (t : value) (s : string) :
  strip_html t = Ok s ->
  (exists raw, t = VStr raw /\ s = Text.strip (Text.sub_tags raw)) \/
  (s = "" /\ forall raw, t <> VStr raw).
Proof.
  unfold strip_html.
  destruct t as [|b|n|x|raw|l|d]; simpl.
  - intros [= <-]. by right.
  - destruct b; [done|]. intros [= <-]. by right.
  - destruct (negb (n =? 0)%Z); [done|]. intros [= <-]. by right.
  - destruct (negb (PrimFloat.eqb x 0)); [done|]. intros [= <-]. by right.
  - destruct raw as [|c raw]; simpl; intros [= <-]; left; by eexists.
  - destruct l; [|done]. intros [= <-]. by right.
  - destruct d; [|done]. intros [= <-]. by right.
Qed.

Lemma strip_html_facts (t : value) (s : string) :
  strip_html t = Ok s ->
  has_tag s = false /\
  (forall c, first_char s = Some c \/ last_char s = Some c -> Text.is_space c = false) /\
  (forall raw, t = VStr raw -> String.length s <= String.length raw).
Proof.
  intros H. apply strip_html_cases in H as [(raw & -> & ->)|[-> Hother]].
  - split; [|split].
    + apply strip_clean, sub_tags_from_clean.
    + apply strip_ends.
    + intros raw' [= <-].
      pose proof (strip_length (Text.sub_tags raw)) as H1.
      pose proof (sub_tags_from_length (String.length raw) raw) as H2.
      unfold Text.sub_tags in *. lia.
  - split; [done|]. split.
    + by intros c [|].
    + intros raw Ht. by destruct (Hother raw).
Qed.

(** X3.  What [strip_html] returns holds no [<...>] tag, neither starts nor
    ends with a white-space character, and is never longer than the text it
    was given. *)
Theorem strip_html_clean (t : value) (s : string) :
  strip_html t = Ok s ->
  has_tag s = false /\
  (forall c, first_char s = Some c \/ last_char s = Some c -> Text.is_space c = false) /\
  (forall raw, t = VStr raw -> String.length s <= String.length raw).
Proof. apply strip_html_facts. Qed.

Lemma no_lt_no_tag (s : string) : has_char "<" s = false -> has_tag s = false.
Proof.
  induction s as [|c s IH]; [done|]. cbn [has_char has_tag].
  destruct (Ascii.eqb c "<") eqn:Hc; [done|]. cbn [orb].
  intros Hs. rewrite match_tag_head by done. by apply IH.
Qed.

Lemma sub_tags_from_no_tag (n : nat) (s : string) :
  String.length s <= n -> has_tag s = false -> Text.sub_tags_from n s = s.
Proof.
  revert s. induction n as [|n IH]; intros s Hn Hs.
  - destruct s; [done|simpl in Hn; lia].
  - destruct s as [|c s]; [done|]. cbn [Text.sub_tags_from]. cbn [has_tag] in Hs.
    destruct (Text.match_tag (String c s)); [done|].
    f_equal. apply IH; [simpl in Hn; lia|done].
Qed.

Lemma lstrip_same (p : ascii -> bool) (s : string) :
  (forall c, first_char s = Some c -> p c = false) -> Text.lstrip_by p s = s.
Proof.
  destruct s as [|c s]; [done|]. intros H. cbn [Text.lstrip_by].
  by rewrite (H c eq_refl).
Qed.

Lemma rstrip_same (p : ascii -> bool) (s : string) :
  (forall c, last_char s = Some c -> p c = false) -> Text.rstrip_by p s = s.
Proof.
  induction s as [|c s IH]; [done|]. intros H. cbn [Text.rstrip_by].
  destruct s as [|d s].
  - simpl. by rewrite (H c eq_refl).
  - rewrite IH by (intros x Hx; apply H; exact Hx).
    by rewrite andb_false_r.
Qed.

Lemma strip_same (s : string) :
  (forall c, first_char s = Some c \/ last_char s = Some c -> Text.is_space c = false) ->
  Text.strip s = s.
Proof.
  intros H. unfold Text.strip, Text.strip_by.
  rewrite lstrip_same by (intros c Hc; apply H; by left).
  apply rstrip_same. intros c Hc. apply H. by right.
Qed.

Lemma strip_html_no_tag (raw : string) :
  has_tag raw = false -> strip_html (VStr raw) = Ok (Text.strip raw).
Proof.
  intros Hraw. unfold strip_html.
  destruct raw as [|c raw]; [done|]. cbn [truthy Text.is_empty negb].
  f_equal. f_equal. unfold Text.sub_tags. by apply sub_tags_from_no_tag.
Qed.

(** X4.  A text in which no [<...>] tag occurs, and so every text without
    [<], goes through [strip_html] unchanged but for the white space trimmed
    at its two ends. *)
Theorem strip_html_plain (raw : string) :
  (has_char "<" raw = false -> has_tag raw = false) /\
  (has_tag raw = false -> strip_html (VStr raw) = Ok (Text.strip raw)).
Proof. split; [apply no_lt_no_tag|apply strip_html_no_tag]. Qed.

(** X5.  [strip_html] is idempotent: applied to a text it has returned, it
    returns that text. *)
Theorem strip_html_idempotent (t : value) (s : string) :
  strip_html t = Ok s -> strip_html (VStr s) = Ok s.
Proof.
  intros H. apply strip_html_facts in H as (Htag & Hends & _).
  rewrite (strip_html_no_tag s Htag). f_equal. by apply strip_same.
Qed.

(** *** The seen file *)

Lemma append_nil_l (s : string) : "" +:+ s = s.
Proof. reflexivity. Qed.

Lemma append_assoc (a b c : string) : (a +:+ b) +:+ c = a +:+ (b +:+ c).
Proof. induction a as [|x a IH]; [done|]. rewrite !append_cons. by rewrite IH. Qed.

Lemma lines_step (c : ascii) (s : string) :
  Csv.lines (String c s) =
    if Ascii.eqb c Csv.LF || Ascii.eqb c Csv.CR && negb (Csv.starts_with Csv.LF s)
    then String c "" :: Csv.lines s
    else match Csv.lines s with
         | l :: ls => String c l :: ls
         | [] => [String c ""]
         end.
Proof. reflexivity. Qed.

Lemma lines_cons (c : ascii) (s : string) : exists l ls, Csv.lines (String c s) = l :: ls.
Proof.
  rewrite lines_step. destruct (_ || _); [by eexists _, _|].
  destruct (Csv.lines s); by eexists _, _.
Qed.

(** The lines of a text that ends where a line ends are not changed by
    what is written after it. *)
Lemma lines_app (a b : string) :
  terminated a = true -> Csv.lines (a +:+ b) = (Csv.lines a ++ Csv.lines b)%list.
Proof.
  induction a as [|c a IH]; intros Ht; [done|].
  rewrite append_cons. destruct a as [|c' a].
  - unfold terminated in Ht. simpl in Ht. apply Ascii.eqb_eq in Ht as ->.
    rewrite append_nil_l. reflexivity.
  - change (terminated (String c' a) = true) in Ht. specialize (IH Ht).
    rewrite (lines_step c (String c' a +:+ b)), (lines_step c (String c' a)), IH.
    rewrite append_cons. cbn [Csv.starts_with].
    destruct (_ || _); [done|].
    by destruct (lines_cons c' a) as (l & ls & ->).
Qed.

Lemma read_app (r : Csv.parser) (la lb : list string) :
  Csv.read r (la ++ lb) =
    match Csv.read r la with
    | Ok (ra, r') =>
        match Csv.read r' lb with
        | Ok (rb, r'') => Ok ((ra ++ rb)%list, r'')
        | Raise => Raise
        end
    | Raise => Raise
    end.
Proof.
  revert r. induction la as [|l la IH]; intros r.
  - cbn [app Csv.read]. by destruct (Csv.read r lb) as [[rb r'']|].
  - cbn [app Csv.read]. destruct (Csv.parse_line r l) as [r'|]; [|done].
    destruct (Csv.at_ r'); try apply IH.
    rewrite IH. destruct (Csv.read Csv.reset la) as [[ra r1]|]; [|done].
    by destruct (Csv.read r1 lb) as [[rb r2]|].
Qed.

Lemma special_false (c : ascii) :
  Csv.special c = false ->
  Ascii.eqb c Csv.LF = false /\ Ascii.eqb c Csv.CR = false /\
  Ascii.eqb c Csv.QUOTE = false /\ Ascii.eqb c Csv.COMMA = false.
Proof.
  unfold Csv.special.
  destruct (Ascii.eqb c Csv.COMMA), (Ascii.eqb c Csv.QUOTE), (Ascii.eqb c Csv.CR),
           (Ascii.eqb c Csv.LF); simpl; by intros.
Qed.

(** The rest of an unquoted field without special characters, and the end
    of its line. *)
Lemma parse_field_rest (r : Csv.parser) (k : string) :
  Csv.at_ r = Csv.IN_FIELD ->
  Csv.any_special k = false ->
  (N.of_nat (String.length (Csv.field r) + String.length k) <= Csv.field_limit)%N ->
  Csv.parse_line r (k +:+ Csv.CRLF) =
    Ok (Csv.Parser Csv.START_RECORD (Csv.fields r ++ [Csv.field r +:+ k]) "").
Proof.
  revert r. induction k as [|c k IH]; intros [ph fs f] Hat Hk Hlen;
    cbn [Csv.at_ Csv.fields Csv.field] in *; subst ph.
  - rewrite append_nil_l, append_empty_r. reflexivity.
  - cbn [Csv.any_special] in Hk. apply orb_false_iff in Hk as [Hc Hk].
    destruct (special_false c Hc) as (Hlf & Hcr & _ & Hcomma).
    rewrite append_cons. cbn [Csv.parse_line].
    unfold Csv.process_char. cbn [Csv.at_]. unfold Csv.is_newline.
    rewrite Hlf, Hcr, Hcomma. cbn [orb]. unfold Csv.add_char. cbn [Csv.field Csv.fields].
    cbn [String.length] in Hlen.
    assert ((N.of_nat (String.length f) <? Csv.field_limit)%N = true) as ->
      by (apply N.ltb_lt; lia).
    unfold mbind, result_bind. rewrite IH; cbn [Csv.at_ Csv.fields Csv.field].
    + by rewrite append_assoc, append_cons, append_nil_l.
    + done.
    + done.
    + rewrite append_length. cbn [String.length]. lia.
Qed.

Lemma plain_parts (k : string) :
  plain k = true ->
  Text.is_empty k = false /\ Csv.any_special k = false /\
  (N.of_nat (String.length k) <= Csv.field_limit)%N.
Proof.
  unfold plain. rewrite !andb_true_iff, !negb_true_iff. intros [[He Hs] Hl].
  split; [done|]. split; [done|]. by apply N.leb_le.
Qed.

(** A line that holds a plain key and the line terminator is read as the
    record of that key. *)
Lemma parse_plain_line (k : string) :
  plain k = true ->
  Csv.parse_line Csv.reset (k +:+ Csv.CRLF) = Ok (Csv.Parser Csv.START_RECORD [k] "").
Proof.
  intros Hk. destruct (plain_parts k Hk) as (He & Hs & Hl).
  destruct k as [|c k]; [done|].
  cbn [Csv.any_special] in Hs. apply orb_false_iff in Hs as [Hc Hs].
  destruct (special_false c Hc) as (Hlf & Hcr & Hq & Hcomma).
  rewrite append_cons. cbn [Csv.parse_line].
  unfold Csv.process_char, Csv.reset. cbn [Csv.at_]. unfold Csv.is_newline.
  rewrite Hlf, Hcr. cbn [orb]. unfold Csv.start_field, Csv.is_newline.
  rewrite Hlf, Hcr, Hq, Hcomma. cbn [orb].
  unfold Csv.add_char. cbn [Csv.field Csv.fields String.length].
  change (N.of_nat 0 <? Csv.field_limit)%N with true. cbv iota.
  unfold mbind, result_bind. rewrite parse_field_rest; cbn [Csv.at_ Csv.fields Csv.field].
  - reflexivity.
  - done.
  - done.
  - rewrite append_nil_l. cbn [String.length] in *. lia.
Qed.

Lemma write_row_plain (k : string) : plain k = true -> Csv.write_row k = k +:+ Csv.CRLF.
Proof.
  intros Hk. destruct (plain_parts k Hk) as (He & Hs & _).
  unfold Csv.write_row. by rewrite He, Hs.
Qed.

Lemma lines_row (k rest : string) :
  Csv.any_special k = false ->
  Csv.lines (k +:+ Csv.CRLF +:+ rest) = (k +:+ Csv.CRLF) :: Csv.lines rest.
Proof.
  induction k as [|c k IH]; intros Hk.
  - reflexivity.
  - cbn [Csv.any_special] in Hk. apply orb_false_iff in Hk as [Hc Hk].
    destruct (special_false c Hc) as (Hlf & Hcr & _ & _).
    rewrite !append_cons, lines_step, Hlf, Hcr. cbn [orb andb]. by rewrite IH.
Qed.

Lemma lines_rows (keys : list string) :
  Forall (fun k => plain k = true) keys ->
  Csv.lines (rows_text keys) = map (fun k => k +:+ Csv.CRLF) keys.
Proof.
  induction 1 as [|k keys Hk _ IH]; [done|]. cbn [rows_text map].
  rewrite (write_row_plain k Hk), append_assoc.
  destruct (plain_parts k Hk) as (_ & Hs & _). by rewrite lines_row, IH.
Qed.

Lemma read_rows (keys : list string) :
  Forall (fun k => plain k = true) keys ->
  Csv.read Csv.reset (map (fun k => k +:+ Csv.CRLF) keys)
  = Ok (map (fun k => [k]) keys, Csv.reset).
Proof.
  induction 1 as [|k keys Hk _ IH]; [done|]. cbn [map Csv.read].
  rewrite (parse_plain_line k Hk). cbn [Csv.at_ Csv.fields]. by rewrite IH.
Qed.

Lemma last_char_cons (c : ascii) (s : string) : exists x, last_char (String c s) = Some x.
Proof.
  revert c. induction s as [|c' s IH]; intros c; [by eexists|].
  change (last_char (String c (String c' s))) with (last_char (String c' s)). apply IH.
Qed.

Lemma last_char_append (a b : string) :
  last_char (a +:+ b) =
    match last_char b with
    | Some c => Some c
    | None => last_char a
    end.
Proof.
  induction a as [|c a IH]; [rewrite append_nil_l; by destruct (last_char b)|].
  rewrite append_cons. destruct a as [|c' a].
  - rewrite append_nil_l. destruct b as [|c' b]; [done|].
    change (last_char (String c (String c' b))) with (last_char (String c' b)).
    by destruct (last_char_cons c' b) as [x ->].
  - rewrite append_cons in *.
    change (last_char (String c (String c' (a +:+ b))))
      with (last_char (String c' (a +:+ b))).
    rewrite IH. reflexivity.
Qed.

Lemma last_char_rows (keys : list string) :
  last_char (rows_text keys) =
    match keys with
    | [] => None
    | _ :: _ => Some Csv.LF
    end.
Proof.
  induction keys as [|k keys IH]; [done|]. cbn [rows_text].
  rewrite last_char_append, IH. destruct keys; [|done].
  unfold Csv.write_row. by rewrite last_char_append.
Qed.

Lemma terminated_save (text : string) (keys : list string) :
  terminated text = true -> terminated (text +:+ rows_text keys) = true.
Proof.
  unfold terminated. rewrite last_char_append, last_char_rows.
  by destruct keys.
Qed.

(** Reading a seen file that ends where a record ends, after plain keys
    have been written to it. *)
Lemma read_save (text : string) (keys : list string) (records : list (list string)) :
  terminated text = true ->
  Csv.read Csv.reset (Csv.lines text) = Ok (records, Csv.reset) ->
  Forall (fun k => plain k = true) keys ->
  Csv.read Csv.reset (Csv.lines (text +:+ rows_text keys))
  = Ok ((records ++ map (fun k => [k]) keys)%list, Csv.reset).
Proof.
  intros Ht Hread Hkeys.
  by rewrite lines_app, read_app, Hread, lines_rows, read_rows.
Qed.

Lemma reader_complete (text : string) (records : list (list string)) :
  Csv.read Csv.reset (Csv.lines text) = Ok (records, Csv.reset) ->
  Csv.reader text = Ok records.
Proof. intros H. unfold Csv.reader. rewrite H. cbn. by rewrite app_nil_r. Qed.

Lemma plain_elements (keys : gset string) :
  (forall k, k ∈ keys -> plain k = true) ->
  Forall (fun k => plain k = true) (elements keys).
Proof. intros H. apply Forall_forall. intros k Hk. apply H. by apply elem_of_elements. Qed.

Lemma complete_save (f : option string) (keys : gset string) :
  complete f -> (forall k, k ∈ keys -> plain k = true) -> complete (save_seen f keys).
Proof.
  intros Hf Hkeys. apply plain_elements in Hkeys. unfold save_seen. cbn [complete].
  destruct f as [text|].
  - destruct Hf as (Ht & records & Hread).
    split; [by apply terminated_save|]. eexists. by apply read_save.
  - split; [by apply terminated_save|]. eexists. by apply (read_save "" _ []).
Qed.

Lemma file_keys_complete (f : option string) :
  complete f -> exists old, file_keys f = Ok old.
Proof.
  destruct f as [text|]; [|by eexists].
  intros (_ & records & Hread). cbn [file_keys].
  rewrite (reader_complete _ _ Hread). by eexists.
Qed.

Lemma file_keys_save (f : option string) (keys : gset string) (old : list string) :
  complete f -> (forall k, k ∈ keys -> plain k = true) ->
  file_keys f = Ok old ->
  file_keys (save_seen f keys) = Ok (old ++ elements keys)%list.
Proof.
  intros Hf Hkeys Hold. apply plain_elements in Hkeys. unfold save_seen. cbn [file_keys].
  assert (forall ks : list string,
            omap (fun row : list string => match row with k :: _ => Some k | [] => None end)
                 (map (fun k => [k]) ks) = ks) as Hmap.
  { induction ks as [|k ks IH]; [done|]. cbn [map omap list_omap]. by f_equal. }
  destruct f as [text|].
  - destruct Hf as (Ht & records & Hread). cbn [file_keys] in Hold.
    rewrite (reader_complete _ _ Hread) in Hold. cbn in Hold. injection Hold as <-.
    rewrite (reader_complete _ _ (read_save _ _ _ Ht Hread Hkeys)). cbn.
    by rewrite omap_app, Hmap.
  - cbn [file_keys] in Hold. injection Hold as <-.
    rewrite (reader_complete _ _ (read_save "" _ [] eq_refl eq_refl Hkeys)). cbn.
    by rewrite Hmap.
Qed.

Lemma load_fold (records : list (list string)) (s : gset string) :
  fold_left (fun s row => match row with k :: _ => s ∪ {[ k ]} | [] => s end) records s
  = s ∪ list_to_set
          (omap (fun row : list string => match row with k :: _ => Some k | [] => None end)
                records).
Proof.
  revert s. induction records as [|row records IH]; intros s; simpl.
  - by rewrite (right_id_L ∅ (∪)).
  - rewrite IH. destruct row as [|k row]; simpl; [done|].
    by rewrite (assoc_L (∪)).
Qed.

(** [load_seen] gives the set of the keys of the file. *)
Lemma load_seen_keys (f : option string) :
  load_seen f =
    match file_keys f with
    | Ok keys => Ok (list_to_set keys)
    | Raise => Raise
    end.
Proof.
  destruct f as [text|]; cbn [load_seen file_keys]; [|done].
  destruct (Csv.reader text) as [records|]; [|done].
  by rewrite load_fold, (left_id_L ∅ (∪)).
Qed.

Lemma load_save (f : option string) (keys : gset string) :
  complete f -> (forall k, k ∈ keys -> plain k = true) ->
  exists s, load_seen f = Ok s /\ load_seen (save_seen f keys) = Ok (s ∪ keys).
Proof.
  intros Hf Hkeys. destruct (file_keys_complete f Hf) as [old Hold].
  exists (list_to_set old). rewrite !load_seen_keys, Hold.
  rewrite (file_keys_save f keys old Hf Hkeys Hold). split; [done|].
  by rewrite list_to_set_app_L, list_to_set_elements_L.
Qed.

(** X6.  What [save_seen] writes, [load_seen] reads back, for a seen file
    that ends where a record ends (one that does not exist, or one whose last
    line is terminated) and keys that need no quoting, as the fingerprints
    are: the file loads without error, after [save_seen(path, keys)] it loads
    as the set it held before together with [keys], and it again ends where a
    record ends.  A file that does not exist loads as the empty set. *)
Theorem save_then_load (f : option string) (keys : gset string) :
  complete f ->
  (forall k, k ∈ keys -> plain k = true) ->
  (exists s, load_seen f = Ok s /\ load_seen (save_seen f keys) = Ok (s ∪ keys)) /\
  complete (save_seen f keys) /\
  load_seen None = Ok ∅.
Proof.
  intros Hf Hkeys. split; [by apply load_save|]. split; [by apply complete_save|done].
Qed.

Lemma hex_not_special (c : ascii) : is_hex c = true -> Csv.special c = false.
Proof. destruct c as [[] [] [] [] [] [] [] []]; vm_compute; by intros. Qed.

Lemma hex_no_special (k : string) : all_of is_hex k = true -> Csv.any_special k = false.
Proof.
  induction k as [|c k IH]; [done|]. cbn [all_of Csv.any_special].
  intros [Hc Hk]%andb_true_iff. by rewrite (hex_not_special c Hc), IH.
Qed.

(** The fingerprints are plain keys. *)
Lemma digest_plain (r : posting) (k : string) : fingerprint r = Ok k -> plain k = true.
Proof.
  unfold fingerprint, sha1. destruct (if truthy (url r) then url r else VStr ""); try done.
  intros [= <-]. destruct (hexdigest_format (Sha1.utf8 s)) as [Hlen Hhex].
  unfold plain. rewrite (hex_no_special _ Hhex), Hlen.
  destruct (Sha1.hexdigest (Sha1.utf8 s)); [done|]. reflexivity.
Qed.

Lemma keys_of_plain (rows : list posting) (k : string) :
  k ∈ keys_of rows -> plain k = true.
Proof. intros (r & _ & Hk)%elem_of_keys_of. by eapply digest_plain. Qed.

(** *** More on the dedup loop *)

Lemma dedup_loop_hashable (rows : list posting) (v v' : dedup_vars) :
  dedup_loop rows v = Ok v' -> Forall hashable rows.
Proof.
  revert v. induction rows as [|r rows IH]; intros v; [constructor|].
  cbn [dedup_loop]. unfold mbind, result_bind.
  destruct (dedup_step v r) as [v1|] eqn:Hstep; [|done].
  intros Hloop. constructor; [|by eapply IH].
  unfold dedup_step, mbind, result_bind in Hstep. unfold hashable, fingerprint.
  destruct (sha1 (url r)) as [k|]; [by exists k|done].
Qed.

Lemma hashable_kinds (r : posting) :
  hashable r <-> truthy (url r) = false \/ exists s, url r = VStr s.
Proof.
  unfold hashable, fingerprint, sha1. split.
  - intros [k Hk]. destruct (truthy (url r)) eqn:Ht; [right|by left].
    destruct (url r); try done. by eexists.
  - intros [Hf|[s Hs]].
    + rewrite Hf. by eexists.
    + rewrite Hs. destruct (truthy (VStr s)); by eexists.
Qed.

(** X7.  The dedup loop needs every url to be falsy or a str: a run that
    returns had only such urls, and one posting whose url is truthy and not a
    str (a number, [True], a list or a dict that is not empty) makes the loop
    raise, wherever the posting stands and whatever the seen set holds, so
    that nothing is written and nothing is added to the seen file. *)
Theorem dedup_needs_str_urls (v : dedup_vars) :
  (forall v', dedup v = Ok v' ->
     Forall (fun r => truthy (url r) = false \/ exists s, url r = VStr s) (all_rows v)) /\
  (forall r, r ∈ all_rows v -> truthy (url r) = true -> (forall s, url r <> VStr s) ->
     dedup v = Raise).
Proof.
  assert (forall v', dedup v = Ok v' ->
            Forall (fun r => truthy (url r) = false \/ exists s, url r = VStr s)
                   (all_rows v)) as Hret.
  { intros v' Hv'. unfold dedup in Hv'. apply dedup_loop_hashable in Hv'.
    eapply Forall_impl; [exact Hv'|]. intros r. apply hashable_kinds. }
  split; [exact Hret|].
  intros r Hin Ht Hns. destruct (dedup v) as [v'|] eqn:Hv; [|done]. exfalso.
  pose proof (Hret v' eq_refl) as Hex. rewrite Forall_forall in Hex.
  destruct (Hex r Hin) as [Hf|[s Hs]]; [congruence|by apply (Hns s)].
Qed.

Lemma fresh_not_seen (seen : gset string) (rows : list posting) (k : string) :
  k ∈ keys_of (List.filter (is_fresh seen) rows) -> k ∉ seen.
Proof.
  rewrite elem_of_keys_of. intros (r & Hr & Hk).
  apply list_elem_of_In, filter_In in Hr as [_ Hfresh].
  unfold is_fresh in Hfresh. rewrite Hk in Hfresh.
  by apply bool_decide_eq_true_1 in Hfresh.
Qed.

Lemma filter_fresh_nil (seen : gset string) (rows : list posting) :
  (forall r, r ∈ rows -> exists k, fingerprint r = Ok k /\ k ∈ seen) ->
  List.filter (is_fresh seen) rows = [].
Proof.
  induction rows as [|r rows IH]; intros Hrows; [done|]. cbn [List.filter].
  destruct (Hrows r) as (k & Hk & Hin); [apply elem_of_cons; by left|].
  unfold is_fresh at 1. rewrite Hk.
  rewrite bool_decide_eq_false_2 by (by intros ?).
  apply IH. intros r' Hr'. apply Hrows. apply elem_of_cons. by right.
Qed.

Lemma nothing_fresh_after (seen : gset string) (rows : list posting) :
  Forall hashable rows ->
  List.filter (is_fresh (seen ∪ keys_of (List.filter (is_fresh seen) rows))) rows = [].
Proof.
  intros Hrows. apply filter_fresh_nil. intros r Hr.
  rewrite Forall_forall in Hrows. destruct (Hrows r Hr) as [k Hk].
  exists k. split; [done|]. apply elem_of_union.
  destruct (decide (k ∈ seen)) as [Hin|Hout]; [by left|right].
  apply elem_of_keys_of. exists r. split; [|done].
  apply list_elem_of_In, filter_In. split; [by apply list_elem_of_In|].
  unfold is_fresh. rewrite Hk. by apply bool_decide_eq_true_2.
Qed.

(** X8.  The keys a dedup run adds are new: none of them is in the seen set
    it started from, and every fresh posting has its key among them.  Once
    they are added to the seen set, a second run over the same postings
    finds nothing fresh. *)
Theorem dedup_then_nothing_fresh (v : dedup_vars) :
  Forall hashable (all_rows v) ->
  exists v',
    dedup v = Ok v' /\
    newkeys v' ## seen v /\
    Forall (fun r => exists k, fingerprint r = Ok k /\ k ∈ newkeys v') (fresh v') /\
    dedup (DedupVars (seen v ∪ newkeys v') (all_rows v) [] ∅) =
      Ok (DedupVars (seen v ∪ newkeys v') (all_rows v) [] ∅).
Proof.
  intros Hrows. eexists. split; [by apply dedup_run|]. cbn [newkeys fresh].
  split; [|split].
  - intros k Hk Hin. by apply fresh_not_seen in Hk.
  - apply Forall_forall. intros r Hr.
    assert (r ∈ all_rows v) as Hall.
    { apply list_elem_of_In, filter_In in Hr as [Hr _]. by apply list_elem_of_In. }
    rewrite Forall_forall in Hrows. destruct (Hrows r Hall) as [k Hk].
    exists k. split; [done|]. apply elem_of_keys_of. by exists r.
  - rewrite dedup_run by done. cbn [seen all_rows].
    rewrite nothing_fresh_after by done. done.
Qed.

(** *** The filter, the resolver and the detector *)

Section More.

Variable net : request -> result value.
Variable urlparse : string -> result url_parts.
Variable iso_utc : value -> result value.
Variable repr_other : value -> string.

Lemma keyword_filter_filter (rows : list posting) (kw_str : string) :
  keyword_filter repr_other rows kw_str =
    match keywords kw_str with
    | [] => rows
    | kws => List.filter (fun r => any_in kws (hay repr_other r)) rows
    end.
Proof.
  unfold keyword_filter. destruct (keywords kw_str) as [|k ks]; [done|].
  by rewrite keyword_loop_filter.
Qed.

Lemma filter_twice {A} (p : A -> bool) (l : list A) :
  List.filter p (List.filter p l) = List.filter p l.
Proof.
  induction l as [|x l IH]; [done|]. simpl.
  destruct (p x) eqn:Hx; [|done]. simpl. by rewrite Hx, IH.
Qed.

Lemma filter_swap {A} (p q : A -> bool) (l : list A) :
  List.filter p (List.filter q l) = List.filter q (List.filter p l).
Proof.
  induction l as [|x l IH]; [done|]. simpl.
  destruct (q x) eqn:Hq, (p x) eqn:Hp; simpl; rewrite ?Hq, ?Hp, IH; done.
Qed.

(** X9.  Filtering twice by the same keywords changes nothing more, and
    filtering by two keyword strings gives the same postings whichever is
    applied first. *)
Theorem keyword_filter_composes (rows : list posting) (a b : string) :
  keyword_filter repr_other (keyword_filter repr_other rows a) a
    = keyword_filter repr_other rows a /\
  keyword_filter repr_other (keyword_filter repr_other rows a) b
    = keyword_filter repr_other (keyword_filter repr_other rows b) a.
Proof.
  rewrite !keyword_filter_filter.
  destruct (keywords a) as [|ka kas], (keywords b) as [|kb kbs]; try done.
  - split; [apply filter_twice|done].
  - split; [apply filter_twice|apply filter_swap].
Qed.

Lemma lower_char_idem (c : ascii) :
  Text.lower_char (Text.lower_char c) = Text.lower_char c.
Proof. destruct c as [[] [] [] [] [] [] [] []]; reflexivity. Qed.

Lemma lower_idem (s : string) : Text.lower (Text.lower s) = Text.lower s.
Proof. induction s as [|c s IH]; simpl; [done|]. by rewrite lower_char_idem, IH. Qed.

Lemma lower_char_semicolon (c : ascii) :
  Ascii.eqb (Text.lower_char c) ";" = Ascii.eqb c ";".
Proof. destruct c as [[] [] [] [] [] [] [] []]; reflexivity. Qed.

Lemma split_lower (s : string) :
  Text.split ";" (Text.lower s) = map Text.lower (Text.split ";" s).
Proof.
  induction s as [|c s IH]; [done|]. cbn [Text.lower Text.split].
  rewrite lower_char_semicolon, IH.
  destruct (Ascii.eqb c ";"); [done|].
  by destruct (Text.split ";" s).
Qed.

Lemma keywords_lower (kw_str : string) : keywords (Text.lower kw_str) = keywords kw_str.
Proof.
  unfold keywords. rewrite split_lower.
  induction (Text.split ";" kw_str) as [|k ks IH]; [done|]. cbn [map List.filter].
  rewrite <- lower_strip, is_empty_lower.
  destruct (Text.is_empty (Text.strip k)); cbn [negb]; [exact IH|].
  cbn [map]. rewrite <- lower_strip, lower_idem. by f_equal.
Qed.

(** X10.  The letter case of the keywords does not matter: two keyword
    strings that are equal once lower-cased select the same postings. *)
Theorem keyword_filter_ignores_case (rows : list posting) (a b : string) :
  Text.lower a = Text.lower b ->
  keyword_filter repr_other rows a = keyword_filter repr_other rows b.
Proof.
  intros Hab. rewrite !keyword_filter_filter.
  by rewrite <- (keywords_lower a), <- (keywords_lower b), Hab.
Qed.

Lemma split_no_sep (sep : ascii) (s : string) :
  Forall (fun w => has_char sep w = false) (Text.split sep s).
Proof.
  induction s as [|c s IH]; [by repeat constructor|]. cbn [Text.split].
  destruct (Ascii.eqb c sep) eqn:Hc; [by constructor|].
  destruct (Text.split sep s) as [|w ws].
  - repeat constructor. simpl. by rewrite Hc.
  - inversion IH as [|? ? Hw Hws]; subst. constructor; [|done].
    simpl. by rewrite Hc.
Qed.

(** X11.  A slug that [slug_from_url] returns never contains [/], whatever
    the provider and the URL; and for a provider outside the five that take a
    slug it is the empty string. *)
Theorem slug_has_no_slash (prov career_url slug : string) :
  slug_from_url urlparse prov career_url = Ok slug ->
  has_char "/" slug = false /\
  (prov ∉ ["greenhouse"; "lever"; "workable"; "ashby"; "smartrecruiters"] -> slug = "").
Proof.
  unfold slug_from_url. destruct (urlparse career_url) as [u|]; [|done]. simpl.
  set (p := Text.strip_char "/" (path u)).
  assert (has_char "/" (match (if Text.is_empty p then [] else Text.split "/" p) with
                        | x :: _ => x | [] => "" end) = false) as Hfirst.
  { destruct (Text.is_empty p); [done|].
    pose proof (split_no_sep "/" p) as Hall.
    destruct (Text.split "/" p) as [|w ws]; [done|]. by inversion Hall. }
  intros H. split.
  - revert H. repeat (destruct (String.eqb prov _); [by intros [= <-]|]).
    by intros [= <-].
  - intros Hprov. revert H.
    repeat match goal with
           | |- context [String.eqb prov ?t] =>
               destruct (String.eqb_spec prov t) as [->|_];
               [exfalso; apply Hprov;
                repeat (first [apply list_elem_of_here|apply list_elem_of_further])|]
           end.
    by intros [= <-].
Qed.

(** X12.  Whatever it is given, [detect_provider] returns one of the six
    provider tags or the empty string, and nothing else. *)
Theorem detect_provider_range (provider slug career_url prov : string) :
  detect_provider urlparse provider slug career_url = Ok prov ->
  prov ∈ known_providers \/ prov = "".
Proof.
  unfold detect_provider.
  destruct (decide (_ ∈ known_providers)) as [Hin|_]; [intros [= <-]; by left|].
  destruct (urlparse career_url) as [u|]; [|done]. simpl. intros [= <-].
  unfold host_provider, known_providers.
  repeat (match goal with |- context [if ?b then _ else _] => destruct b end;
          [left; set_solver|]).
  by right.
Qed.

(** *** What every posting of an adapter carries *)










(** *** Requests and state *)

Lemma runs_as_ret {A} (a : A) : runs_as (mret a : M A) (Ok a) [] [].
Proof. intros st. simpl. by rewrite !app_nil_r. Qed.

Lemma runs_as_lift {A} (r : result A) : runs_as (lift r) r [] [].
Proof. intros st. simpl. by rewrite !app_nil_r. Qed.

Lemma runs_as_info (line : string) : runs_as (info line) (Ok tt) [] [line].
Proof. intros st. simpl. by rewrite app_nil_r. Qed.

Lemma runs_as_bind {A B} (m : M A) (f : A -> M B) (a : A) (r : result B)
    (q1 q2 : list request) (w1 w2 : list string) :
  runs_as m (Ok a) q1 w1 -> runs_as (f a) r q2 w2 ->
  runs_as (m ≫= f) r (q1 ++ q2) (w1 ++ w2).
Proof.
  intros Hm Hf st. destruct (Hm st) as (Hr & Hq & Hw).
  unfold mbind, M_bind. destruct (m st) as [r1 st1]. simpl in Hr, Hq, Hw. subst r1.
  destruct (Hf st1) as (Hr' & Hq' & Hw').
  rewrite Hr', Hq', Hw', Hq, Hw. by rewrite !app_assoc.
Qed.

Lemma runs_as_bind_raise {A B} (m : M A) (f : A -> M B)
    (q : list request) (w : list string) :
  runs_as m Raise q w -> runs_as (m ≫= f) Raise q w.
Proof.
  intros Hm st. destruct (Hm st) as (Hr & Hq & Hw).
  unfold mbind, M_bind. destruct (m st) as [r1 st1]. simpl in Hr, Hq, Hw. by subst r1.
Qed.

Lemma steady_ret {A} (n : nat) (a : A) : steady_within n (mret a : M A).
Proof. exists (Ok a), [], []. split; [apply runs_as_ret|simpl; lia]. Qed.

Lemma steady_lift {A} (n : nat) (r : result A) : steady_within n (lift r).
Proof. exists r, [], []. split; [apply runs_as_lift|simpl; lia]. Qed.

Lemma steady_info (n : nat) (line : string) : steady_within n (info line).
Proof. exists (Ok tt), [], [line]. split; [apply runs_as_info|simpl; lia]. Qed.

Lemma steady_bind {A B} (n1 n2 : nat) (m : M A) (f : A -> M B) :
  steady_within n1 m -> (forall a, steady_within n2 (f a)) ->
  steady_within (n1 + n2) (m ≫= f).
Proof.
  intros (r & q & w & Hm & Hq) Hf. destruct r as [a|].
  - destruct (Hf a) as (r' & q' & w' & Hfa & Hq').
    exists r', (q ++ q')%list, (w ++ w')%list. split; [by eapply runs_as_bind|].
    rewrite length_app. lia.
  - exists Raise, q, w. split; [by apply runs_as_bind_raise|lia].
Qed.

Lemma steady_more {A} (n1 n2 : nat) (m : M A) :
  n1 <= n2 -> steady_within n1 m -> steady_within n2 m.
Proof. intros Hn (r & q & w & Hm & Hq). exists r, q, w. split; [done|lia]. Qed.

Lemma after_runs (m : M (list posting)) (req : request) (msg : string)
    (r : list posting * bool) :
  (forall st, m st = (Ok r.1, after st [req] msg r)) ->
  runs_as m (Ok r.1) [req] (if r.2 then [] else [msg]).
Proof.
  intros Hm st. rewrite Hm. unfold after. simpl.
  destruct r.2; by rewrite ?app_nil_r.
Qed.

Lemma one_warning (b : bool) (msg : string) : length (if b then [] else [msg]) <= 1.
Proof. destruct b; simpl; lia. Qed.

Lemma fetch_workday_runs (career_url name : string) :
  exists rows reqs msgs,
    runs_as (fetch_workday net urlparse repr_other career_url name) (Ok rows) reqs msgs /\
    length reqs <= 1 /\ length msgs <= 1.
Proof.
  destruct (urlparse career_url) as [u|] eqn:Hu.
  - destruct (negb (Text.contains ".myworkdayjobs.com" (netloc u))
              || (length (path_parts (path u)) <? 1)%nat) eqn:Hguard.
    + exists [], [], []. split; [|simpl; lia].
      intros st. rewrite fetch_workday_run, Hu. simpl. rewrite Hguard. simpl.
      by rewrite !app_nil_r.
    + set (r := processed workday_entries
                  (every (workday_row repr_other (netloc u)
                            (hd "" (Text.split "." (netloc u))) name))
                  (net (workday_request (netloc u) (hd "" (path_parts (path u)))))).
      exists r.1, [workday_request (netloc u) (hd "" (path_parts (path u)))],
             (if r.2 then [] else ["[warn] workday " +:+ career_url]).
      split; [|split; [simpl; lia|apply one_warning]].
      intros st. rewrite fetch_workday_run, Hu. simpl. rewrite Hguard.
      unfold after. fold r. simpl. destruct r.2; by rewrite ?app_nil_r.
  - exists [], [], ["[warn] workday " +:+ career_url]. split; [|simpl; lia].
    intros st. rewrite fetch_workday_run, Hu. simpl. by rewrite app_nil_r.
Qed.

(** X14.  A call of a slug adapter issues exactly one request, to the
    endpoint of its provider, whatever is answered: no retry and no second
    page.  A call of the Workday adapter issues at most one.  Every call
    prints at most one warning, and what it returns does not depend on what
    earlier calls left behind. *)
Theorem adapters_one_request (slug name career_url : string) :
  (exists rows msgs,
     runs_as (fetch_greenhouse net slug name) (Ok rows) [greenhouse_request slug] msgs /\
     length msgs <= 1) /\
  (exists rows msgs,
     runs_as (fetch_lever net iso_utc slug name) (Ok rows) [lever_request slug] msgs /\
     length msgs <= 1) /\
  (exists rows msgs,
     runs_as (fetch_workable net slug name) (Ok rows) [workable_request slug] msgs /\
     length msgs <= 1) /\
  (exists rows msgs,
     runs_as (fetch_smartrecruiters net repr_other slug name) (Ok rows)
             [smartrecruiters_request slug] msgs /\
     length msgs <= 1) /\
  (exists rows msgs,
     runs_as (fetch_ashby net slug name) (Ok rows) [ashby_request slug] msgs /\
     length msgs <= 1) /\
  (exists rows reqs msgs,
     runs_as (fetch_workday net urlparse repr_other career_url name) (Ok rows) reqs msgs /\
     length reqs <= 1 /\ length msgs <= 1).
Proof.
  repeat split.
  - eexists _, _. split; [|apply one_warning].
    apply after_runs. intros st. apply fetch_greenhouse_run.
  - eexists _, _. split; [|apply one_warning].
    apply after_runs. intros st. apply fetch_lever_run.
  - eexists _, _. split; [|apply one_warning].
    apply after_runs. intros st. apply fetch_workable_run.
  - eexists _, _. split; [|apply one_warning].
    apply after_runs. intros st. apply fetch_smartrecruiters_run.
  - eexists _, _. split; [|apply one_warning].
    apply after_runs. intros st. apply fetch_ashby_run.
  - apply fetch_workday_runs.
Qed.

(** *** The loop of [main] over the sheet *)

Lemma steady_bind_within {A B} (n n1 n2 : nat) (m : M A) (f : A -> M B) :
  n1 + n2 <= n -> steady_within n1 m -> (forall a, steady_within n2 (f a)) ->
  steady_within n (m ≫= f).
Proof.
  intros Hn Hm Hf. apply (steady_more (n1 + n2)); [done|]. by apply steady_bind.
Qed.

Lemma after_steady (m : M (list posting)) (req : request) (msg : string)
    (r : list posting * bool) :
  (forall st, m st = (Ok r.1, after st [req] msg r)) -> steady_within 1 m.
Proof.
  intros Hm. exists (Ok r.1), [req], (if r.2 then [] else [msg]).
  split; [by apply after_runs|simpl; lia].
Qed.

Lemma fetch_by_slug_steady (prov slug name : string) :
  steady_within 1 (fetch_by_slug net iso_utc repr_other prov slug name).
Proof.
  unfold fetch_by_slug.
  destruct (String.eqb prov "greenhouse");
    [eapply after_steady; intros st; apply fetch_greenhouse_run|].
  destruct (String.eqb prov "lever");
    [eapply after_steady; intros st; apply fetch_lever_run|].
  destruct (String.eqb prov "workable");
    [eapply after_steady; intros st; apply fetch_workable_run|].
  destruct (String.eqb prov "ashby");
    [eapply after_steady; intros st; apply fetch_ashby_run|].
  destruct (String.eqb prov "smartrecruiters");
    [eapply after_steady; intros st; apply fetch_smartrecruiters_run|].
  apply steady_ret.
Qed.

Lemma fetch_workday_steady (career_url name : string) :
  steady_within 1 (fetch_workday net urlparse repr_other career_url name).
Proof.
  destruct (fetch_workday_runs career_url name) as (rows & reqs & msgs & Hrun & Hq & _).
  by exists (Ok rows), reqs, msgs.
Qed.

Lemma company_rows_steady (c : company_row) :
  steady_within 1 (company_rows net urlparse iso_utc repr_other c).
Proof.
  unfold company_rows.
  apply (steady_bind_within 1 0 1); [lia|apply steady_lift|]. intros prov.
  apply (steady_bind_within 1 1 0); [lia| |intros rows; apply steady_ret].
  destruct (bool_decide (prov ∈ slug_providers)).
  - apply (steady_bind_within 1 0 1); [lia| |].
    + destruct (Text.is_empty _); [apply steady_lift|apply steady_ret].
    + intros slug. destruct (Text.is_empty slug && _).
      * apply (steady_bind_within 1 0 0); [lia|apply steady_info|].
        intros _. apply steady_ret.
      * apply fetch_by_slug_steady.
  - destruct (String.eqb prov "workday"); [apply fetch_workday_steady|].
    apply (steady_bind_within 1 0 0); [lia|apply steady_info|].
    intros _. apply steady_ret.
Qed.

Lemma main_loop_steady (df : list company_row) (all_rows : list posting) :
  steady_within (length df) (main_loop net urlparse iso_utc repr_other df all_rows).
Proof.
  revert all_rows. induction df as [|c df IH]; intros all_rows; [apply steady_ret|].
  cbn [main_loop length].
  apply (steady_bind_within _ 1 (length df)); [lia|apply company_rows_steady|].
  intros rows. apply IH.
Qed.

Lemma main_runs (df : list company_row) (seen_csv : option string)
    (looped : result (list posting)) (reqs : list request) (msgs : list string) :
  runs_as (main_loop net urlparse iso_utc repr_other df []) looped reqs msgs ->
  runs_as (main net urlparse iso_utc repr_other df seen_csv)
          (main_outcome looped seen_csv) reqs msgs.
Proof.
  intros Hloop st. destruct (Hloop st) as (Hr & Hq & Hw).
  unfold main, main_outcome, mbind, M_bind, result_bind.
  destruct (main_loop net urlparse iso_utc repr_other df [] st) as [r1 st1].
  simpl in Hr, Hq, Hw. subst r1.
  destruct looped as [all_rows|]; [|done].
  unfold lift. destruct (load_seen seen_csv) as [s|]; [|done].
  destruct (dedup _) as [v|]; [|done].
  destruct (fresh v); done.
Qed.

(** X15.  A run of [main] issues at most one request for each row of the
    sheet, and what it returns, requests and prints does not depend on the
    state it starts from. *)
Theorem main_requests_bounded (df : list company_row) (seen_csv : option string) :
  exists r reqs msgs,
    runs_as (main net urlparse iso_utc repr_other df seen_csv) r reqs msgs /\
    length reqs <= length df.
Proof.
  destruct (main_loop_steady df []) as (looped & reqs & msgs & Hloop & Hq).
  exists (main_outcome looped seen_csv), reqs, msgs. split; [by apply main_runs|done].
Qed.

Lemma main_outcome_inv (looped : result (list posting)) (seen_csv : option string)
    (res : main_result) :
  main_outcome looped seen_csv = Ok res ->
  exists rows0 s,
    looped = Ok rows0 /\ load_seen seen_csv = Ok s /\ Forall hashable rows0 /\
    written res = List.filter (is_fresh s) rows0 /\
    seen_after res =
      match written res with
      | [] => seen_csv
      | _ :: _ => save_seen seen_csv (keys_of (written res))
      end.
Proof.
  unfold main_outcome, mbind, result_bind.
  destruct looped as [rows0|]; [|done].
  destruct (load_seen seen_csv) as [s|]; [|done].
  destruct (dedup _) as [v|] eqn:Hv; [|done].
  assert (Forall hashable rows0) as Hrows.
  { unfold dedup in Hv. by apply dedup_loop_hashable in Hv. }
  rewrite dedup_run in Hv by done. injection Hv as <-. cbn [fresh newkeys seen all_rows].
  intros H. exists rows0, s. split; [done|]. split; [done|]. split; [done|].
  destruct (List.filter _ rows0) as [|p fr] eqn:Hfr; by injection H as <-.
Qed.

Lemma main_outcome_again (looped : result (list posting)) (seen_csv : option string)
    (res : main_result) :
  complete seen_csv ->
  main_outcome looped seen_csv = Ok res ->
  main_outcome looped (seen_after res) = Ok (MainResult [] (seen_after res)).
Proof.
  intros Hc H.
  destruct (main_outcome_inv _ _ _ H) as (rows0 & s & -> & Hload & Hrows & Hw & Hs).
  assert (exists s', load_seen (seen_after res) = Ok s' /\
                     List.filter (is_fresh s') rows0 = []) as (s' & Hload' & Hnone).
  { rewrite Hs, Hw.
    destruct (List.filter (is_fresh s) rows0) as [|p fr] eqn:Hfr.
    - by exists s.
    - cbv beta iota. rewrite <- Hfr.
      destruct (load_save seen_csv (keys_of (List.filter (is_fresh s) rows0)) Hc)
        as (s0 & Hload0 & Hsaved); [apply keys_of_plain|].
      rewrite Hload in Hload0. injection Hload0 as <-.
      eexists. split; [exact Hsaved|]. by apply nothing_fresh_after. }
  unfold main_outcome, mbind, result_bind. rewrite Hload'.
  rewrite dedup_run by done. cbn [fresh newkeys seen all_rows]. by rewrite Hnone.
Qed.

(** X16.  Two runs in a row, over a seen file that ends where a record ends
    (one that does not exist, or one whose last line is terminated): when a
    run of [main] returns, a second run over the same sheet, with the
    providers answering as before and the seen file as the first run left it,
    writes no posting and leaves the seen file as it is. *)
Theorem second_run_writes_nothing (df : list company_row) (seen_csv : option string)
    (st st1 : state) (res : main_result) :
  complete seen_csv ->
  main net urlparse iso_utc repr_other df seen_csv st = (Ok res, st1) ->
  exists st2,
    main net urlparse iso_utc repr_other df (seen_after res) st1
      = (Ok (MainResult [] (seen_after res)), st2).
Proof.
  intros Hc Hrun.
  destruct (main_loop_steady df []) as (looped & reqs & msgs & Hloop & _).
  destruct (main_runs df seen_csv _ _ _ Hloop st) as (Hr & _).
  rewrite Hrun in Hr. simpl in Hr. symmetry in Hr.
  apply main_outcome_again in Hr; [|done].
  destruct (main_runs df (seen_after res) _ _ _ Hloop st1) as (Hr2 & _).
  rewrite Hr in Hr2.
  destruct (main net urlparse iso_utc repr_other df (seen_after res) st1) as [r2 st2].
  simpl in Hr2. subst r2. by exists st2.
Qed.

(** X17.  What a run of [main] does to a seen file that ends where a record
    ends: it is left as it was when nothing is written; otherwise its keys
    are the old ones, in their order, followed by the fingerprints of the
    postings written, each once and none of them a key the file already held.
    So no key is lost, a file without a repeated key stays without one, and
    the file again ends where a record ends. *)
Theorem seen_file_grows (df : list company_row) (seen_csv : option string)
    (st st1 : state) (res : main_result) :
  complete seen_csv ->
  main net urlparse iso_utc repr_other df seen_csv st = (Ok res, st1) ->
  (written res = [] -> seen_after res = seen_csv) /\
  (exists old new,
     file_keys seen_csv = Ok old /\
     file_keys (seen_after res) = Ok (old ++ new)%list /\
     NoDup new /\
     (forall k, k ∈ new -> k ∉ old) /\
     (forall k, k ∈ new <-> exists p, p ∈ written res /\ fingerprint p = Ok k) /\
     (NoDup old -> NoDup (old ++ new))) /\
  complete (seen_after res).
Proof.
  intros Hc Hrun.
  destruct (main_loop_steady df []) as (looped & reqs & msgs & Hloop & _).
  destruct (main_runs df seen_csv _ _ _ Hloop st) as (Hr & _).
  rewrite Hrun in Hr. simpl in Hr. symmetry in Hr.
  destruct (main_outcome_inv _ _ _ Hr) as (all_rows & s & _ & Hload & Hrows & Hw & Hs).
  destruct (file_keys_complete seen_csv Hc) as [old Hold].
  assert (s = list_to_set old) as Hset.
  { rewrite load_seen_keys, Hold in Hload. by injection Hload as <-. }
  assert (exists new,
            file_keys (seen_after res) = Ok (old ++ new)%list /\
            NoDup new /\
            (forall k, k ∈ new -> k ∉ old) /\
            (forall k, k ∈ new <-> exists p, p ∈ written res /\ fingerprint p = Ok k))
    as (new & Hkeys & Hnew & Hnot & Hfrom).
  { destruct (written res) as [|p fr].
    - exists []. rewrite Hs, app_nil_r. split; [done|]. split; [constructor|].
      split; [intros k Hk; by apply elem_of_nil in Hk|].
      intros k. split; [intros Hk; by apply elem_of_nil in Hk|].
      intros (q & Hq & _). by apply elem_of_nil in Hq.
    - exists (elements (keys_of (p :: fr))).
      rewrite Hs. split; [apply file_keys_save; [done|apply keys_of_plain|done]|].
      split; [apply NoDup_elements|]. split.
      + intros k Hk Hin. apply elem_of_elements in Hk. rewrite Hw in Hk.
        apply fresh_not_seen in Hk. apply Hk. rewrite Hset.
        by apply elem_of_list_to_set.
      + intros k. rewrite elem_of_elements. apply elem_of_keys_of. }
  split; [|split].
  - intros Hnone. rewrite Hs. by rewrite Hnone.
  - exists old, new. split; [done|]. split; [done|]. split; [done|].
    split; [done|]. split; [done|].
    intros Hnodup. apply NoDup_app. split; [done|].
    split; [|done]. intros k Hk Hk'. by apply (Hnot k).
  - rewrite Hs. destruct (written res); [done|].
    apply complete_save; [done|apply keys_of_plain].
Qed.

(** *** One row of the sheet *)



Lemma slug_provider_known (prov : string) :
  prov ∈ slug_providers -> prov ∈ known_providers /\ prov <> "workday" /\ prov <> "".
Proof.
  unfold slug_providers. rewrite !elem_of_cons, elem_of_nil.
  intros [->|[->|[->|[->|[->|[]]]]]];
    (split; [unfold known_providers; set_solver|by split]).
Qed.

(** X18.  A row of the sheet for which no provider is found, or for which a
    slug provider is found but neither the slug cell nor the career URL
    gives a slug, contributes no posting and causes no request: one
    informational line is printed. *)
Theorem row_without_target (c : company_row) :
  let name := Text.strip (row_company_name c) in
  let provider := Text.lower (Text.strip (row_provider c)) in
  let slug := Text.strip (row_slug c) in
  let career_url := Text.strip (row_career_url c) in
  (detect_provider urlparse provider slug career_url = Ok "" ->
     runs_as (company_rows net urlparse iso_utc repr_other c) (Ok []) []
       ["[info] Unknown provider for " +:+ name
          +:+ "; provide career_url or provider/slug"]) /\
  (forall prov,
     detect_provider urlparse provider slug career_url = Ok prov ->
     prov ∈ slug_providers -> slug = "" ->
     slug_from_url urlparse prov career_url = Ok "" ->
     runs_as (company_rows net urlparse iso_utc repr_other c) (Ok []) []
       ["[info] No slug for " +:+ name +:+ " (" +:+ prov +:+ "); skipping"]).
Proof.
  simpl. split.
  - intros Hdetect st.
    assert (company_rows net urlparse iso_utc repr_other c st =
              (Ok [], State (sent st)
                        (warnings st ++
                           ["[info] Unknown provider for "
                              +:+ Text.strip (row_company_name c)
                              +:+ "; provide career_url or provider/slug"])
                        (out st))) as ->.
    { unfold company_rows. unfold mbind at 1, M_bind at 1, lift at 1.
      rewrite Hdetect. simpl. unfold keyword_filter.
      by destruct (keywords (row_keywords c)). }
    simpl. by rewrite app_nil_r.
  - intros prov Hdetect Hprov Hslug Hfrom st.
    destruct (slug_provider_known prov Hprov) as (_ & Hwd & _).
    pose proof (bool_decide_eq_true_2 (prov ∈ slug_providers) Hprov) as Hb.
    assert (company_rows net urlparse iso_utc repr_other c st =
              (Ok [], State (sent st)
                        (warnings st ++
                           ["[info] No slug for " +:+ Text.strip (row_company_name c)
                              +:+ " (" +:+ prov +:+ "); skipping"])
                        (out st))) as ->.
    { unfold company_rows. unfold mbind at 1, M_bind at 1, lift at 1.
      rewrite Hdetect, Hslug, Hb.
      cbn [Text.is_empty]. unfold mbind, M_bind, lift. rewrite Hfrom.
      cbn [Text.is_empty andb].
      destruct (String.eqb_spec prov "workday") as [->|_]; [done|].
      simpl. unfold keyword_filter. by destruct (keywords (row_keywords c)). }
    simpl. by rewrite app_nil_r.
Qed.



End More.

(** *** The further properties at concrete inputs *)

Lemma sha1_digest_format_witness :
  sha1 (VStr "https://jobs.example.com/42") = Ok "889624714dd567591bd15e16942000a86f8f1453" /\
  String.length "889624714dd567591bd15e16942000a86f8f1453" = 40 /\
  all_of is_hex "889624714dd567591bd15e16942000a86f8f1453" = true.
Proof.
  assert (sha1 (VStr "https://jobs.example.com/42")
          = Ok "889624714dd567591bd15e16942000a86f8f1453") as H
    by (vm_compute; reflexivity).
  split; [exact H|]. exact (sha1_digest_format _ _ H).
Defined.

Lemma sha1_falsy_collide_witness :
  truthy (VList []) = false /\
  sha1 (VList []) = Ok "da39a3ee5e6b4b0d3255bfef95601890afd80709".
Proof.
  split; [reflexivity|]. exact (proj1 (sha1_falsy_collide (VList []) eq_refl)).
Defined.

Lemma strip_html_clean_witness :
  strip_html (VStr " <p>Build <b>things</b></p> ") = Ok "Build  things" /\
  has_tag "Build  things" = false.
Proof.
  assert (strip_html (VStr " <p>Build <b>things</b></p> ") = Ok "Build  things") as H
    by reflexivity.
  split; [exact H|]. exact (proj1 (strip_html_clean _ _ H)).
Defined.

Lemma strip_html_idempotent_witness :
  strip_html (VStr " <p>Build <b>things</b></p> ") = Ok "Build  things" /\
  strip_html (VStr "Build  things") = Ok "Build  things".
Proof.
  assert (strip_html (VStr " <p>Build <b>things</b></p> ") = Ok "Build  things") as H
    by reflexivity.
  split; [exact H|]. exact (strip_html_idempotent _ _ H).
Defined.

Lemma dedup_then_nothing_fresh_witness :
  Forall hashable (all_rows Fixture.batch) /\
  exists v',
    dedup Fixture.batch = Ok v' /\
    dedup (DedupVars (seen Fixture.batch ∪ newkeys v') (all_rows Fixture.batch) [] ∅) =
      Ok (DedupVars (seen Fixture.batch ∪ newkeys v') (all_rows Fixture.batch) [] ∅).
Proof.
  split; [exact batch_hashable|].
  destruct (dedup_then_nothing_fresh Fixture.batch batch_hashable)
    as (v' & Hrun & _ & _ & Hagain).
  exists v'. split; [exact Hrun|exact Hagain].
Defined.

Lemma keyword_filter_ignores_case_witness :
  Text.lower "Remote; ENGINEER" = Text.lower "remote; engineer" /\
  keyword_filter Fixture.repr_blank [Fixture.senior] "Remote; ENGINEER"
    = keyword_filter Fixture.repr_blank [Fixture.senior] "remote; engineer".
Proof.
  split; [reflexivity|].
  exact (keyword_filter_ignores_case Fixture.repr_blank [Fixture.senior]
           "Remote; ENGINEER" "remote; engineer" eq_refl).
Defined.

Lemma slug_has_no_slash_witness :
  slug_from_url Fixture.urlparse "lever" "https://jobs.lever.co//acme//x/" = Ok "acme" /\
  has_char "/" "acme" = false.
Proof.
  assert (slug_from_url Fixture.urlparse "lever" "https://jobs.lever.co//acme//x/"
          = Ok "acme") as H by reflexivity.
  split; [exact H|]. exact (proj1 (slug_has_no_slash Fixture.urlparse _ _ _ H)).
Defined.

Lemma detect_provider_range_witness :
  detect_provider Fixture.urlparse "" "" "https://acme.wd5.myworkdayjobs.com/External"
    = Ok "workday" /\
  ("workday" ∈ known_providers \/ "workday" = "").
Proof.
  assert (detect_provider Fixture.urlparse "" ""
            "https://acme.wd5.myworkdayjobs.com/External" = Ok "workday") as H
    by (vm_compute; reflexivity).
  split; [exact H|]. exact (detect_provider_range Fixture.urlparse _ _ _ _ H).
Defined.

Lemma first_run_runs :
  main (Fixture.answer (Ok Fixture.lever_doc)) Fixture.urlparse_strict Fixture.iso_epoch
       Fixture.repr_blank [Fixture.acme_row] None Fixture.start
    = (Ok Fixture.first_run, Fixture.after_first_run).
Proof. vm_compute. reflexivity. Defined.

Lemma save_then_load_witness :
  complete (Some ("bf92217410b8b9e933dd9ddb055ac2a5ca641a7d" +:+ Csv.CRLF)) /\
  exists s,
    load_seen (Some ("bf92217410b8b9e933dd9ddb055ac2a5ca641a7d" +:+ Csv.CRLF)) = Ok s /\
    load_seen (save_seen (Some ("bf92217410b8b9e933dd9ddb055ac2a5ca641a7d" +:+ Csv.CRLF))
                         {[ "5543734241644de7b3c080dcb9fc6043a560a88d" ]})
      = Ok (s ∪ {[ "5543734241644de7b3c080dcb9fc6043a560a88d" ]}).
Proof.
  assert (complete (Some ("bf92217410b8b9e933dd9ddb055ac2a5ca641a7d" +:+ Csv.CRLF))) as Hc.
  { split; [reflexivity|]. eexists. vm_compute. reflexivity. }
  assert (forall k, k ∈ ({[ "5543734241644de7b3c080dcb9fc6043a560a88d" ]} : gset string) ->
                    plain k = true) as Hkeys.
  { intros k Hk. apply elem_of_singleton in Hk. rewrite Hk. reflexivity. }
  split; [exact Hc|].
  exact (proj1 (save_then_load _ _ Hc Hkeys)).
Defined.

Lemma second_run_writes_nothing_witness :
  complete None /\
  main (Fixture.answer (Ok Fixture.lever_doc)) Fixture.urlparse_strict Fixture.iso_epoch
       Fixture.repr_blank [Fixture.acme_row] None Fixture.start
    = (Ok Fixture.first_run, Fixture.after_first_run) /\
  exists st2,
    main (Fixture.answer (Ok Fixture.lever_doc)) Fixture.urlparse_strict
         Fixture.iso_epoch Fixture.repr_blank [Fixture.acme_row]
         (seen_after Fixture.first_run) Fixture.after_first_run
      = (Ok (MainResult [] (seen_after Fixture.first_run)), st2).
Proof.
  split; [exact I|]. split; [exact first_run_runs|].
  exact (second_run_writes_nothing _ _ _ _ _ None _ _ _ I first_run_runs).
Defined.

Lemma seen_file_grows_witness :
  complete None /\
  main (Fixture.answer (Ok Fixture.lever_doc)) Fixture.urlparse_strict Fixture.iso_epoch
       Fixture.repr_blank [Fixture.acme_row] None Fixture.start
    = (Ok Fixture.first_run, Fixture.after_first_run) /\
  complete (seen_after Fixture.first_run).
Proof.
  split; [exact I|]. split; [exact first_run_runs|].
  exact (proj2 (proj2 (seen_file_grows _ _ _ _ _ None _ _ _ I first_run_runs))).
Defined.



(** *** Two more edges of the adapters *)

Section Edges.

Variable net : request -> result value.
Variable repr_other : value -> string.

(** X21.  A response of Ashby in which the job board is missing, null or
    empty (or which is itself null or empty) is no error: the adapter
    returns no posting and prints no warning. *)
Theorem ashby_empty_board (slug name : string) (st : state) (data b : value) :
  net (ashby_request slug) = Ok data ->
  (d ← or_else data (Ok (VDict [])); d ← get_or d "data" (VDict []);
   get_or d "jobBoard" (VDict [])) = Ok b ->
  truthy b = false ->
  fetch_ashby net slug name st =
    (Ok [], State (sent st ++ [ashby_request slug]) (warnings st) []).
Proof.
  intros Hnet Hboard Hb. rewrite fetch_ashby_run, Hnet.
  unfold ashby_processed, ashby_teams, after.
  unfold mbind, result_bind in *.
  destruct (or_else data (Ok (VDict []))) as [d|]; [|done].
  destruct (get_or d "data" (VDict [])) as [d'|]; [|done].
  rewrite Hboard.
  assert (or_else b (Ok (VDict [])) = Ok (VDict [])) as ->
    by (unfold or_else; by rewrite Hb).
  reflexivity.
Qed.

(** X22.  The url of a SmartRecruiters posting: the ad url of [ref] when it
    is truthy; and never falsy when the entry has a truthy [id], for then the
    link [https://jobs.smartrecruiters.com/{slug}/{id}] stands in for a url
    that none of the three fields gives. *)
Theorem smartrecruiters_url (slug name : string) (j : value) (p : posting) :
  smartrecruiters_row repr_other slug name j = Ok p ->
  (forall ref ad, get_or j "ref" (VDict []) = Ok ref -> get ref "jobAdUrl" = Ok ad ->
     truthy ad = true -> url p = ad) /\
  (forall id, get j "id" = Ok id -> truthy id = true -> truthy (url p) = true) /\
  (forall id a b,
     get j "id" = Ok id -> truthy id = true ->
     get j "applyUrl" = Ok a -> truthy a = false ->
     get j "postingUrl" = Ok b -> truthy b = false ->
     (forall ref ad, get_or j "ref" (VDict []) = Ok ref ->
        get ref "jobAdUrl" = Ok ad -> truthy ad = false) ->
     url p = VStr ("https://jobs.smartrecruiters.com/" +:+ slug +:+ "/"
                     +:+ format repr_other id)).
Proof.
  intros H. unfold smartrecruiters_row in H.
  unfold mbind, mret, result_bind, result_ret in H.
  destruct (get_or j "ref" (VDict [])) as [ref|] eqn:Href; [|done].
  destruct (get ref "jobAdUrl") as [ad|] eqn:Had; [|done].
  destruct (or_else ad (get j "applyUrl")) as [u1|] eqn:Hu1; [|done].
  destruct (or_else u1 (get j "postingUrl")) as [u2|] eqn:Hu2; [|done].
  destruct (get j "id") as [id|] eqn:Hid; [|done].
  destruct (negb (truthy u2) && truthy id) eqn:Hsynth;
    repeat match type of H with
           | match ?m with Ok _ => _ | Raise => _ end = Ok _ =>
               destruct m; [|discriminate H]
           end;
    injection H as <-; cbn [url].
  - apply andb_true_iff in Hsynth as [Hu2f Hidt]. apply negb_true_iff in Hu2f.
    assert (truthy u1 = false) as Hu1f.
    { unfold or_else in Hu2. destruct (truthy u1) eqn:E; [|done].
      injection Hu2 as <-. congruence. }
    assert (truthy ad = false) as Hadf.
    { unfold or_else in Hu1. destruct (truthy ad) eqn:E; [|done].
      injection Hu1 as <-. congruence. }
    split; [|split].
    + intros ref' ad' [= <-] Had'. rewrite Had in Had'. injection Had' as <-. congruence.
    + intros id' [= <-] _. reflexivity.
    + intros id' a' b' [= <-] _ _ _ _ _ _. reflexivity.
  - split; [|split].
    + intros ref' ad' [= <-] Had' Hadt. rewrite Had in Had'. injection Had' as <-.
      unfold or_else in Hu1, Hu2. rewrite Hadt in Hu1. injection Hu1 as <-.
      rewrite Hadt in Hu2. by injection Hu2 as <-.
    + intros id' [= <-] Hidt. rewrite Hidt, andb_true_r in Hsynth.
      by apply negb_false_iff in Hsynth.
    + intros id' a' b' [= <-] Hidt Ha Haf Hb Hbf Hno.
      rewrite Hidt, andb_true_r in Hsynth. apply negb_false_iff in Hsynth.
      specialize (Hno ref ad eq_refl Had).
      unfold or_else in Hu1, Hu2. rewrite Hno, Ha in Hu1. injection Hu1 as <-.
      rewrite Haf, Hb in Hu2. injection Hu2 as <-. congruence.
Qed.

End Edges.

Lemma ashby_empty_board_witness :
  Fixture.answer (Ok (VDict [("data", VDict [("jobBoard", VNone)])])) (ashby_request "acme")
    = Ok (VDict [("data", VDict [("jobBoard", VNone)])]) /\
  fetch_ashby (Fixture.answer (Ok (VDict [("data", VDict [("jobBoard", VNone)])])))
      "acme" "Acme" Fixture.start =
    (Ok [], State [ashby_request "acme"] [] []).
Proof.
  split; [reflexivity|].
  exact (ashby_empty_board (Fixture.answer (Ok (VDict [("data", VDict [("jobBoard", VNone)])])))
           "acme" "Acme" Fixture.start _ VNone eq_refl eq_refl eq_refl).
Defined.

Lemma smartrecruiters_url_witness :
  exists p,
    smartrecruiters_row Fixture.repr_blank "acme" "Acme"
      (VDict [("name", VStr "Engineer"); ("id", VInt 7)]) = Ok p /\
    url p = VStr "https://jobs.smartrecruiters.com/acme/7".
Proof.
  eexists. split; [reflexivity|].
  refine (proj2 (proj2 (smartrecruiters_url Fixture.repr_blank "acme" "Acme"
                          (VDict [("name", VStr "Engineer"); ("id", VInt 7)]) _ eq_refl))
                (VInt 7) VNone VNone eq_refl eq_refl eq_refl eq_refl eq_refl eq_refl _).
  intros ref ad [= <-] [= <-]. reflexivity.
Defined.
